(** * Seat reservation and order finalization of the event-ticketing backend

    A shallow embedding of the seat-inventory and payment-finalization code
    (controllers/payment.controller.js, controllers/event.controller.js,
    routes/admin.routes.js, models/Event.js, models/Booking.js,
    models/StripeOrder.js) together with the properties checked against it.

    The three collections are explicit state; every handler is a function in
    a small state-and-exception monad, and each store or provider call leaves
    an entry in a log so that "which calls were made" can be stated. *)

From Stdlib Require Import QArith Qcanon Ascii String Lqa.
From stdpp Require Import base option numbers strings pretty list gmap fin_maps.

Local Open Scope string_scope.
Local Open Scope Qc_scope.

(** ** JavaScript numbers, as far as the seat arithmetic needs them *)

(** A JS/BSON number is modelled as an exact rational, or NaN (what
    [Number(x)] yields on something that is not numeric). *)
Inductive JsNumber :=
| Finite (q : Qc)
| NaN.

Definition Qc_leb (x y : Qc) : bool := Qle_bool (this x) (this y).
Definition Qc_ltb (x y : Qc) : bool := negb (Qc_leb y x).
Definition Qc_eqb (x y : Qc) : bool := Qeq_bool (this x) (this y).

(** The numbers of the code are IEEE 754 binary64 values, and its sums and
    differences are rounded to the nearest such value. The arithmetic below
    is the exact one of [Qc]: it is the arithmetic of the code wherever the
    exact result is itself a binary64 value (every sum of integers below
    [2^53] is), and a property that depends on the value of a sum or a
    difference carries that as a hypothesis, [exact].

    [is_double q]: [q = m * 2^e] for integers [|m| < 2^53] and
    [-1074 <= e <= 971]. With [q = n / 2^j] in lowest terms and
    [k = floor (log2 |q|)], the last mantissa bit of [q] has weight
    [2^(max (k - 52) (-1074))]. *)
Definition is_double (q : Qc) : bool :=
  let n := Z.abs (Qnum (this q)) in
  let d := Zpos (Qden (this q)) in
  let j := Z.log2 d in
  ((d =? 2 ^ j)
   && ((n =? 0)
       || (let k := Z.log2 n - j in
           let e := Z.max (k - 52) (-1074) in
           (k <=? 1023) && ((e + j <=? 0) || (n mod 2 ^ (e + j) =? 0)))))%Z.

Definition exact (q : Qc) : Prop := is_double q = true.

(** [v || 0] followed by [Number(...)], for a field of schema type Number
    that may be null or undefined ([None]). *)
Definition Number_or_zero (v : option JsNumber) : JsNumber :=
  match v with
  | Some (Finite q) => if Qc_eqb q 0 then Finite 0 else Finite q
  | Some NaN => Finite 0
  | None => Finite 0
  end.

(** The guard [!seats || seats < 1]. *)
Definition invalidSeats (seats : JsNumber) : bool :=
  match seats with
  | Finite q => Qc_eqb q 0 || Qc_ltb q 1
  | NaN => true
  end.

(** [Number.isInteger(n) && n > 0]. *)
Definition mustBeInt (n : JsNumber) : bool :=
  match n with
  | Finite q => Pos.eqb (Qden (this q)) 1 && Qc_ltb 0 q
  | NaN => false
  end.

(** Truthiness of a nullable string ([null], [undefined] and the empty
    string are falsy). *)
Definition truthy (s : option string) : bool :=
  match s with
  | Some x => negb (String.eqb x "")
  | None => false
  end.

(** [a || b] on nullable strings; a falsy end of the chain is kept as is. *)
Definition js_or (a b : option string) : option string :=
  if truthy a then a else b.

(** [a || 'literal']: the literal ends the chain, so it is the result
    whenever [a] is falsy. *)
Definition js_or_lit (a : option string) (lit : string) : string :=
  match a with
  | Some x => if String.eqb x "" then lit else x
  | None => lit
  end.

(** [a || null]. *)
Definition js_or_null (a : option string) : option string :=
  if truthy a then a else None.

Definition is_hex (c : ascii) : bool :=
  let n := nat_of_ascii c in
  (((48 <=? n) && (n <=? 57)) || ((65 <=? n) && (n <=? 70))
   || ((97 <=? n) && (n <=? 102)))%nat.

(** [mongoose.Types.ObjectId.isValid] on a string, in its 24-hex-digit
    form. *)
Definition isValidObjectId (s : string) : bool :=
  (String.length s =? 24)%nat && forallb is_hex (list_ascii_of_string s).

(** The form in which the driver prints an ObjectId, and in which ids are
    stored: 24 hex digits without upper-case letters. A query casts the id
    it is given to an ObjectId, which ignores the case of the digits; the
    collections here are keyed by the string itself, so an id reaches the
    document it names when it is in this form. *)
Definition is_lower_hex (c : ascii) : bool :=
  let n := nat_of_ascii c in
  (((48 <=? n) && (n <=? 57)) || ((97 <=? n) && (n <=? 102)))%nat.

Definition canonicalObjectId (s : string) : bool :=
  (String.length s =? 24)%nat && forallb is_lower_hex (list_ascii_of_string s).

(** ** The Event collection (models/Event.js) *)

(** Only the two seat counters matter here; the descriptive fields (title,
    venue, ...) are never read by the seat logic. *)
Record Event := mkEvent {
  totalSeats : Qc;
  bookedSeats : Qc
}.

(** [$inc: { bookedSeats: d }], with the exact sum. *)
Definition inc_bookedSeats (d : Qc) (e : Event) : Event :=
  {| totalSeats := totalSeats e; bookedSeats := bookedSeats e + d |}.

(** The filter [$expr: { $lte: [{ $add: ['$bookedSeats', seats] }, '$totalSeats'] }],
    with the exact sum. *)
Definition capacityFilter (seats : Qc) (e : Event) : bool :=
  Qc_leb (bookedSeats e + seats) (totalSeats e).

(** [Event.findOneAndUpdate({_id, ...filter}, update, {new: true})] on the
    stored collection: one store-side step that matches, updates and returns
    the updated document, or returns null and changes nothing. The
    collection is keyed by the id in its stored form (see
    [canonicalObjectId]). *)
Definition Event_findOneAndUpdate (id : string) (filter : Event -> bool)
    (update : Event -> Event) (evs : gmap string Event)
  : option Event * gmap string Event :=
  match evs !! id with
  | Some e =>
      if filter e then (Some (update e), <[id := update e]> evs)
      else (None, evs)
  | None => (None, evs)
  end.

(** [Event.findByIdAndUpdate(id, update)]: unconditional; returns the
    document as it was before the update. *)
Definition Event_findByIdAndUpdate (id : string) (update : Event -> Event)
    (evs : gmap string Event) : option Event * gmap string Event :=
  match evs !! id with
  | Some e => (Some e, <[id := update e]> evs)
  | None => (None, evs)
  end.

(** The capacity-checked reservation issued by [finalizePaidOrder] and
    [createBooking]. *)
Definition tryReserve (id : string) (seats : Qc) (evs : gmap string Event)
  : option Event * gmap string Event :=
  Event_findOneAndUpdate id (capacityFilter seats) (inc_bookedSeats seats) evs.

(** The rollback [Event.findByIdAndUpdate(id, { $inc: { bookedSeats: -seats } })],
    with the exact difference. *)
Definition release (id : string) (seats : Qc) (evs : gmap string Event)
  : gmap string Event :=
  snd (Event_findByIdAndUpdate id (inc_bookedSeats (- seats)) evs).

(** The [pre('save')] hook of the Event schema. *)
Definition preSave (e : Event) : Event :=
  let e1 :=
    if Qc_ltb (totalSeats e) (bookedSeats e)
    then {| totalSeats := totalSeats e; bookedSeats := totalSeats e |}
    else e in
  if Qc_ltb (bookedSeats e1) 0
  then {| totalSeats := totalSeats e1; bookedSeats := 0 |}
  else e1.

(** Schema validators: [totalSeats: min 1], [bookedSeats: min 0]. *)
Definition Event_validate (e : Event) : bool :=
  Qc_leb 1 (totalSeats e) && Qc_leb 0 (bookedSeats e).

(** ** Documents of the other two collections *)

Inductive OrderStatus := PENDING | PAID | EXPIRED | CANCELLED | FAILED.

Global Instance OrderStatus_eq_dec : EqDecision OrderStatus.
Proof. solve_decision. Defined.

(** models/StripeOrder.js (the fields the payment controller touches). The
    schema's [ticketName], [unitAmount] and [currency] are read by no
    handler after the order is created and are left out: every order is
    taken to carry them. *)
Record Order := mkOrder {
  _id : string;
  userId : option string;
  eventId : string;
  name : string;
  email : string;
  quantity : option JsNumber;
  status : OrderStatus;
  paymentStatus : option string;
  stripeSessionId : option string;
  stripePaymentIntentId : option string;
  bookingId : option string;
  ticketId : option string
}.

(** models/Booking.js. *)
Record Booking := mkBooking {
  bk_id : string;
  bk_user : string;
  bk_event : string;
  bk_name : string;
  bk_email : string;
  bk_seats : Qc;
  bk_ticketId : string;
  bk_paymentStatus : string;
  bk_stripeSessionId : option string;
  bk_stripePaymentIntentId : option string
}.

(** The object handed to [Booking.create], before validation and casting. *)
Record BookingInput := mkBookingInput {
  in_user : option string;
  in_event : option string;
  in_name : string;
  in_email : string;
  in_seats : Qc;
  in_ticketId : string;
  in_paymentStatus : option string;
  in_stripeSessionId : option string;
  in_stripePaymentIntentId : option string
}.

(** A Stripe checkout session, as far as the controller reads it. *)
Record Session := mkSession {
  s_id : option string;
  payment_status : option string;
  payment_intent : option string;
  meta_orderId : option string;
  meta_name : option string;
  meta_email : option string
}.

(** ** State, log and the handler monad *)

Inductive Effect :=
| EventFindOneAndUpdate (id : string) (seats : Qc)
| EventFindByIdAndUpdate (id : string) (delta : Qc)
| EventFindById (id : string)
| EventSave (id : string)
| BookingCreate (ticket : string)
| OrderFindOne (session : string)
| OrderFindById (id : string)
| OrderSave (id : string)
| StripeRetrieve (session : string).

Record World := mkWorld {
  events : gmap string Event;
  bookings : list Booking;
  orders : gmap string Order;
  log : list Effect
}.

Inductive Error :=
| CastError (path : string)
| ValidationError (path : string)
| DuplicateKey (path : string)
| StoreFault
| ProviderError.

Inductive Outcome (A : Type) :=
| Ok (a : A)
| Throw (e : Error).
Arguments Ok {A} a.
Arguments Throw {A} e.

Definition M (A : Type) : Type := World -> Outcome A * World.

Definition ret {A} (a : A) : M A := fun w => (Ok a, w).

Definition bind {A B} (m : M A) (k : A -> M B) : M B :=
  fun w =>
    match m w with
    | (Ok a, w') => k a w'
    | (Throw e, w') => (Throw e, w')
    end.

Definition throw {A} (e : Error) : M A := fun w => (Throw e, w).

(** [try { body } catch (e) { handler(e) }]: what the body did to the
    stores before it threw stays done. *)
Definition try_catch {A} (body : M A) (handler : Error -> M A) : M A :=
  fun w =>
    match body w with
    | (Ok a, w') => (Ok a, w')
    | (Throw e, w') => handler e w'
    end.

Definition tell (x : Effect) : M unit :=
  fun w => (Ok tt, {| events := events w; bookings := bookings w;
                      orders := orders w; log := log w ++ [x] |}).

Definition get_events : M (gmap string Event) := fun w => (Ok (events w), w).
Definition put_events (evs : gmap string Event) : M unit :=
  fun w => (Ok tt, {| events := evs; bookings := bookings w;
                      orders := orders w; log := log w |}).
Definition get_bookings : M (list Booking) := fun w => (Ok (bookings w), w).
Definition put_bookings (bs : list Booking) : M unit :=
  fun w => (Ok tt, {| events := events w; bookings := bs;
                      orders := orders w; log := log w |}).
Definition get_orders : M (gmap string Order) := fun w => (Ok (orders w), w).
Definition put_orders (os : gmap string Order) : M unit :=
  fun w => (Ok tt, {| events := events w; bookings := bookings w;
                      orders := os; log := log w |}).

Notation "x <- m ;; k" := (bind m (fun x => k))
  (at level 100, m at next level, right associativity).
Notation "m ;;; k" := (bind m (fun _ => k))
  (at level 100, right associativity).

(** What the environment decides during one run of [finalizePaidOrder]:
    the clock and the random suffix read by [generateTicketId], the
    ObjectId the driver assigns to a new Booking, and whether the Booking
    insert is hit by a store fault. *)
Record Env := mkEnv {
  now : N;
  rnd : string;
  newBookingId : string;
  ledgerFault : bool
}.

(** ** Store operations as monadic steps *)

(** Queries cast [_id] to an ObjectId first; a string that is none raises
    a CastError. *)
Definition reserveSeats (id : string) (seats : Qc) : M (option Event) :=
  tell (EventFindOneAndUpdate id seats) ;;;
  if isValidObjectId id then
    evs <- get_events ;;
    let '(r, evs') := tryReserve id seats evs in
    put_events evs' ;;; ret r
  else throw (CastError "_id").

Definition releaseSeats (id : string) (seats : Qc) : M unit :=
  tell (EventFindByIdAndUpdate id (- seats)) ;;;
  if isValidObjectId id then
    evs <- get_events ;;
    put_events (release id seats evs)
  else throw (CastError "_id").

(** The validators of the StripeOrder schema on the fields kept here:
    [eventId] is a required String (the empty string does not pass) and
    [quantity] a required Number. The two other required fields,
    [ticketName] and [unitAmount], are not part of [Order]. *)
Definition Order_validate (o : Order) : option Error :=
  if negb (truthy (Some (eventId o))) then Some (ValidationError "eventId")
  else
    match quantity o with
    | Some (Finite _) => None
    | Some NaN | None => Some (ValidationError "quantity")
    end.

(** [order.save()]: the document is validated and, when it passes, written
    under its [_id]; a document that does not pass is rejected with the
    validation error and nothing is written. Apart from validation the
    write is taken to succeed. *)
Definition Order_save (o : Order) : M unit :=
  tell (OrderSave (_id o)) ;;;
  match Order_validate o with
  | Some err => throw err
  | None =>
      os <- get_orders ;;
      put_orders (<[_id o := o]> os)
  end.

Definition Order_findById (id : string) : M (option Order) :=
  tell (OrderFindById id) ;;;
  if isValidObjectId id then
    os <- get_orders ;; ret (os !! id)
  else throw (CastError "_id").

Definition Order_findOne (session : string) : M (option Order) :=
  tell (OrderFindOne session) ;;;
  os <- get_orders ;;
  ret (snd <$> List.find
         (fun kv => bool_decide (stripeSessionId (snd kv) = Some session))
         (map_to_list os)).

Definition castObjectId (path : string) (v : option string) : M string :=
  match v with
  | Some s => if isValidObjectId s then ret s else throw (CastError path)
  | None => throw (ValidationError path)
  end.

(** [Booking.create]: schema validation ([user], [event] required
    ObjectIds, [seats] min 1, [ticketId] required), then the insert, which
    the unique index on [ticketId] can reject.  [stripeSessionId] carries no
    index. *)
Definition Booking_create (env : Env) (i : BookingInput) : M Booking :=
  tell (BookingCreate (in_ticketId i)) ;;;
  u <- castObjectId "user" (in_user i) ;;
  e <- castObjectId "event" (in_event i) ;;
  if Qc_ltb (in_seats i) 1 then throw (ValidationError "seats")
  else if String.eqb (in_ticketId i) "" then throw (ValidationError "ticketId")
  else if ledgerFault env then throw StoreFault
  else
    bs <- get_bookings ;;
    if existsb (fun b => String.eqb (bk_ticketId b) (in_ticketId i)) bs
    then throw (DuplicateKey "ticketId")
    else
      let b := {| bk_id := newBookingId env; bk_user := u; bk_event := e;
                  bk_name := in_name i; bk_email := in_email i;
                  bk_seats := in_seats i; bk_ticketId := in_ticketId i;
                  bk_paymentStatus := js_or_lit (in_paymentStatus i) "PENDING";
                  bk_stripeSessionId := in_stripeSessionId i;
                  bk_stripePaymentIntentId := in_stripePaymentIntentId i |} in
      put_bookings (bs ++ [b]) ;;; ret b.

(** ** controllers/payment.controller.js *)

Definition toUpper (c : ascii) : ascii :=
  let n := nat_of_ascii c in
  if ((97 <=? n) && (n <=? 122))%nat then ascii_of_nat (n - 32) else c.

Fixpoint toUpperCase (s : string) : string :=
  match s with
  | EmptyString => EmptyString
  | String c r => String (toUpper c) (toUpperCase r)
  end.

(** [`TKT-${Date.now()}-${Math.random().toString(16).slice(2, 8)}`.toUpperCase()];
    [rnd env] is the sliced hexadecimal suffix. *)
Definition generateTicketId (env : Env) : string :=
  toUpperCase ("TKT-" +:+ pretty (now env) +:+ "-" +:+ rnd env).

Definition toObjectIdOrNull (id : option string) : option string :=
  match id with
  | Some s => if truthy id && isValidObjectId s then Some s else None
  | None => None
  end.

Inductive FinalizeResult :=
| READY (ticket : string) (booking : string)
| NOT_READY (message : string).

(** The three assignments made on every failure path before [order.save()]. *)
Definition markFailed (order : Order) (session : option Session) : Order :=
  {| _id := _id order; userId := userId order; eventId := eventId order;
     name := name order; email := email order; quantity := quantity order;
     status := FAILED;
     paymentStatus :=
       Some (js_or_lit (js_or (session ≫= payment_status) (paymentStatus order)) "paid");
     stripeSessionId := stripeSessionId order;
     stripePaymentIntentId :=
       js_or_null (js_or (session ≫= payment_intent) (stripePaymentIntentId order));
     bookingId := bookingId order; ticketId := ticketId order |}.

(** The assignments made after the Booking was written. *)
Definition markPaid (order : Order) (session : option Session)
    (booking : Booking) (ticket : string) : Order :=
  {| _id := _id order; userId := userId order; eventId := eventId order;
     name := name order; email := email order; quantity := quantity order;
     status := PAID;
     paymentStatus := Some (js_or_lit (session ≫= payment_status) "paid");
     stripeSessionId := stripeSessionId order;
     stripePaymentIntentId := js_or_null (session ≫= payment_intent);
     bookingId := Some (bk_id booking); ticketId := Some ticket |}.

(** [order.ticketId && order.bookingId], with the two values when truthy. *)
Definition alreadyFinalized (order : Order) : option (string * string) :=
  match ticketId order, bookingId order with
  | Some t, Some b => if truthy (Some t) then Some (t, b) else None
  | _, _ => None
  end.

Definition bookingInputOf (order : Order) (session : option Session)
    (seats : Qc) (ticket : string) : BookingInput :=
  {| in_user := js_or (toObjectIdOrNull (userId order)) (userId order);
     in_event := js_or (toObjectIdOrNull (Some (eventId order))) (Some (eventId order));
     in_name := js_or_lit (js_or (Some (name order)) (session ≫= meta_name)) "";
     in_email := js_or_lit (js_or (Some (email order)) (session ≫= meta_email)) "";
     in_seats := seats;
     in_ticketId := ticket;
     in_paymentStatus := Some "PAID";
     in_stripeSessionId := js_or_null (js_or (stripeSessionId order) (session ≫= s_id));
     in_stripePaymentIntentId := js_or_null (session ≫= payment_intent) |}.

(** [finalizePaidOrder({ order, session })].  The result carries the order
    document as the call leaves it in memory. *)
Definition finalizePaidOrder (env : Env) (order : Order) (session : option Session)
  : M (FinalizeResult * Order) :=
  match alreadyFinalized order with
  | Some (t, b) => ret (READY t b, order)
  | None =>
    match Number_or_zero (quantity order) with
    | NaN =>
        let order := markFailed order session in
        Order_save order ;;; ret (NOT_READY "Invalid seats.", order)
    | Finite seats =>
      if invalidSeats (Finite seats) then
        let order := markFailed order session in
        Order_save order ;;; ret (NOT_READY "Invalid seats.", order)
      else
        updatedEvent <- reserveSeats (eventId order) seats ;;
        match updatedEvent with
        | None =>
            let order := markFailed order session in
            Order_save order ;;; ret (NOT_READY "Not enough seats available.", order)
        | Some _ =>
            let ticket := generateTicketId env in
            try_catch
              (booking <- Booking_create env (bookingInputOf order session seats ticket) ;;
               let order := markPaid order session booking ticket in
               Order_save order ;;;
               ret (READY ticket (bk_id booking), order))
              (fun bookingErr =>
               releaseSeats (eventId order) seats ;;;
               Order_save (markFailed order session) ;;;
               throw bookingErr)
        end
    end
  end.

Definition status_name (s : OrderStatus) : string :=
  match s with
  | PENDING => "PENDING" | PAID => "PAID" | EXPIRED => "EXPIRED"
  | CANCELLED => "CANCELLED" | FAILED => "FAILED"
  end.

Definition status_lower (s : OrderStatus) : string :=
  match s with
  | PENDING => "pending" | PAID => "paid" | EXPIRED => "expired"
  | CANCELLED => "cancelled" | FAILED => "failed"
  end.

Definition set_status (s : OrderStatus) (order : Order) : Order :=
  {| _id := _id order; userId := userId order; eventId := eventId order;
     name := name order; email := email order; quantity := quantity order;
     status := s; paymentStatus := paymentStatus order;
     stripeSessionId := stripeSessionId order;
     stripePaymentIntentId := stripePaymentIntentId order;
     bookingId := bookingId order; ticketId := ticketId order |}.

(** [stripe.checkout.sessions.retrieve(sessionId)]; the provider either
    answers with a session or the call throws. *)
Definition stripe_retrieve (provider : string -> option Session)
    (sessionId : string) : M Session :=
  tell (StripeRetrieve sessionId) ;;;
  match provider sessionId with
  | Some s => ret s
  | None => throw ProviderError
  end.

(** The JSON bodies of the poll handler. [Poll_READY] carries
    [bookingId || null]; an ObjectId is always truthy, so that is the
    field itself. *)
Inductive PollResponse :=
| Poll_NOT_FOUND
| Poll_READY (ticket : string) (booking : option string)
| Poll_status (status : string) (message : string)
| Poll_ERROR (e : Error).

(** The part of the poll handler after the "already ready" test. *)
Definition pollUnresolved (env : Env) (provider : string -> option Session)
    (sessionId : string) (order : Order) : M PollResponse :=
  if bool_decide (status order ∈ [FAILED; EXPIRED; CANCELLED]) then
    ret (Poll_status (status_name (status order))
           ("Order " +:+ status_lower (status order) +:+ "."))
  else
    session <- stripe_retrieve provider sessionId ;;
    if negb (bool_decide (payment_status session = Some "paid")) then
      ret (Poll_status "PENDING" "Payment not confirmed yet.")
    else
      result <- finalizePaidOrder env order (Some session) ;;
      match fst result with
      | READY t b => ret (Poll_READY t (Some b))
      | NOT_READY m =>
          ret (Poll_status "FAILED"
                 (js_or_lit (Some m) "Unable to finalize booking."))
      end.

(** GET /api/payments/stripe/session/:sessionId *)
Definition getStripeResultBySession (env : Env)
    (provider : string -> option Session) (sessionId : string)
  : M PollResponse :=
  try_catch
    (found <- Order_findOne sessionId ;;
     match found with
     | None => ret Poll_NOT_FOUND
     | Some order =>
       match ticketId order with
       | Some t =>
           if truthy (Some t)
           then ret (Poll_READY t (bookingId order))
           else pollUnresolved env provider sessionId order
       | None => pollUnresolved env provider sessionId order
       end
     end)
    (fun err => ret (Poll_ERROR err)).

(** A verified provider event: its type and [event.data.object]. *)
Record StripeEvent := mkStripeEvent {
  ev_type : string;
  data_object : Session
}.

Inductive WebhookResponse :=
| Webhook_400 (message : string)
| Webhook_received
| Webhook_500.

(** The [checkout.session.completed] branch; [true] when it ends the
    handler with its own [return res.json({ received: true })]. *)
Definition webhookCompleted (env : Env) (session : Session) : M bool :=
  match meta_orderId session with
  | Some orderId =>
    if truthy (Some orderId) then
      found <- Order_findById orderId ;;
      match found with
      | None => ret true
      | Some order =>
        if bool_decide (status order = PAID) && bool_decide (is_Some (bookingId order))
           && truthy (ticketId order)
        then ret true
        else
          if bool_decide (payment_status session = Some "paid") then
            try_catch
              (finalizePaidOrder env order (Some session) ;;; ret false)
              (fun _ => ret false)
          else ret false
      end
    else ret true
  | None => ret true
  end.

(** The [checkout.session.expired] branch. *)
Definition webhookExpired (session : Session) : M unit :=
  match meta_orderId session with
  | Some orderId =>
    if truthy (Some orderId) then
      found <- Order_findById orderId ;;
      match found with
      | Some order =>
          if bool_decide (status order = PENDING)
          then Order_save (set_status EXPIRED order)
          else ret tt
      | None => ret tt
      end
    else ret tt
  | None => ret tt
  end.

(** POST /api/payments/webhook; [constructed] is what
    [stripe.webhooks.constructEvent] made of the request: the message of
    the signature error, or the event. *)
Definition stripeWebhook (env : Env) (constructed : string + StripeEvent)
  : M WebhookResponse :=
  match constructed with
  | inl message => ret (Webhook_400 ("Webhook Error: " +:+ message))
  | inr event =>
    try_catch
      (returned <-
         (if String.eqb (ev_type event) "checkout.session.completed"
          then webhookCompleted env (data_object event)
          else ret false) ;;
       if (returned : bool) then ret Webhook_received
       else
         (if String.eqb (ev_type event) "checkout.session.expired"
          then webhookExpired (data_object event)
          else ret tt) ;;;
         ret Webhook_received)
      (fun _ => ret Webhook_500)
  end.

(** ** The read-then-write seat paths *)

(** [doc.save()] on an Event document: the schema validators, then the
    [pre('save')] hook, then the write of the document under its id. *)
Definition Event_save (id : string) (doc : Event) : M Event :=
  tell (EventSave id) ;;;
  if Event_validate doc then
    let doc' := preSave doc in
    evs <- get_events ;;
    put_events (<[id := doc']> evs) ;;; ret doc'
  else throw (ValidationError "Event").

Definition Event_findById (id : string) : M (option Event) :=
  tell (EventFindById id) ;;;
  if isValidObjectId id then
    evs <- get_events ;; ret (evs !! id)
  else throw (CastError "_id").

Inductive BookSeatsResponse :=
| Book_400 (message : string)
| Book_404
| Book_200 (bookedSeats remainingSeats : Qc)
| Book_500.

(** controllers/event.controller.js, POST /api/events/:id/book;
    [seats] is [Number(req.body.seats)]. The remaining seats and the new
    count are the exact difference and sum. *)
Definition bookSeats (id : string) (seats : JsNumber) : M BookSeatsResponse :=
  try_catch
    (match seats with
     | NaN => ret (Book_400 "Seats must be at least 1")
     | Finite n =>
       if invalidSeats (Finite n) then ret (Book_400 "Seats must be at least 1")
       else
         found <- Event_findById id ;;
         match found with
         | None => ret Book_404
         | Some event =>
           let booked := bookedSeats event in
           let remaining := totalSeats event - booked in
           if Qc_ltb remaining n then ret (Book_400 "Not enough seats available")
           else
             saved <- Event_save id {| totalSeats := totalSeats event;
                                       bookedSeats := booked + n |} ;;
             ret (Book_200 (bookedSeats saved)
                           (totalSeats saved - bookedSeats saved))
         end
     end)
    (fun _ => ret Book_500).

Inductive AdminUpdateResponse :=
| Admin_404
| Admin_200 (event : Event)
| Admin_500.

(** routes/admin.routes.js, PUT /api/admin/events/:id, restricted to the
    seat fields; [newTotal] is [Number(totalSeats)] when the body carries
    the field. *)
Definition adminUpdateEvent (id : string) (newTotal : option JsNumber)
  : M AdminUpdateResponse :=
  try_catch
    (found <- Event_findById id ;;
     match found with
     | None => ret Admin_404
     | Some ev =>
       match newTotal with
       | Some NaN => tell (EventSave id) ;;; throw (ValidationError "totalSeats")
       | _ =>
         let ev1 :=
           match newTotal with
           | Some (Finite q) => {| totalSeats := q; bookedSeats := bookedSeats ev |}
           | _ => ev
           end in
         let ev2 :=
           if Qc_ltb (totalSeats ev1) (bookedSeats ev1)
           then {| totalSeats := totalSeats ev1; bookedSeats := totalSeats ev1 |}
           else ev1 in
         let ev3 :=
           if Qc_ltb (bookedSeats ev2) 0
           then {| totalSeats := totalSeats ev2; bookedSeats := 0 |}
           else ev2 in
         saved <- Event_save id ev3 ;;
         ret (Admin_200 saved)
       end
     end)
    (fun _ => ret Admin_500).

Inductive UpdateEventResponse :=
| Update_404
| Update_200 (event : Event)
| Update_400.

(** controllers/event.controller.js, PUT /api/events/:id, restricted to
    the seat fields; [newTotal] is [Number(req.body.totalSeats)] when the
    body carries the field. The clamping is left to the [pre('save')]
    hook. *)
Definition updateEvent (id : string) (newTotal : option JsNumber)
  : M UpdateEventResponse :=
  try_catch
    (found <- Event_findById id ;;
     match found with
     | None => ret Update_404
     | Some event =>
       match newTotal with
       | Some NaN => tell (EventSave id) ;;; throw (ValidationError "totalSeats")
       | Some (Finite q) =>
           updated <- Event_save id {| totalSeats := q;
                                       bookedSeats := bookedSeats event |} ;;
           ret (Update_200 updated)
       | None =>
           updated <- Event_save id event ;;
           ret (Update_200 updated)
       end
     end)
    (fun _ => ret Update_400).

(** ** The second copy of the payment controller

  The repository carries a second payment controller whose
  [finalizePaidOrder] differs from the one above on the failure paths:
  it only sets [status] before saving, takes the session as given, and
  its catch block rolls the seats back and rethrows without touching the
  order. *)
Module Variant.

Inductive FinalizeResult :=
| READY (ticket : string) (booking : option string)
| NOT_READY (message : string).

Definition markPaid (order : Order) (session : Session)
    (booking : Booking) (ticket : string) : Order :=
  {| _id := _id order; userId := userId order; eventId := eventId order;
     name := name order; email := email order; quantity := quantity order;
     status := PAID; paymentStatus := Some "paid";
     stripeSessionId := stripeSessionId order;
     stripePaymentIntentId := js_or_null (payment_intent session);
     bookingId := Some (bk_id booking); ticketId := Some ticket |}.

Definition bookingInputOf (order : Order) (session : Session)
    (seats : Qc) (ticket : string) : BookingInput :=
  {| in_user := js_or (toObjectIdOrNull (userId order)) (userId order);
     in_event := js_or (toObjectIdOrNull (Some (eventId order)))
                   (Some (eventId order));
     in_name := js_or_lit (Some (name order)) "";
     in_email := js_or_lit (Some (email order)) "";
     in_seats := seats;
     in_ticketId := ticket;
     in_paymentStatus := Some "PAID";
     in_stripeSessionId := s_id session;
     in_stripePaymentIntentId := js_or_null (payment_intent session) |}.

Definition finalizePaidOrder (env : Env) (order : Order) (session : Session)
  : M (FinalizeResult * Order) :=
  match alreadyFinalized order with
  | Some (t, b) => ret (READY t (Some b), order)
  | None =>
    match Number_or_zero (quantity order) with
    | NaN =>
        let order := set_status FAILED order in
        Order_save order ;;; ret (NOT_READY "Invalid seats.", order)
    | Finite seats =>
      if invalidSeats (Finite seats) then
        let order := set_status FAILED order in
        Order_save order ;;; ret (NOT_READY "Invalid seats.", order)
      else
        updatedEvent <- reserveSeats (eventId order) seats ;;
        match updatedEvent with
        | None =>
            let order := set_status FAILED order in
            Order_save order ;;;
            ret (NOT_READY "Not enough seats available.", order)
        | Some _ =>
            let ticket := generateTicketId env in
            try_catch
              (booking <- Booking_create env
                            (bookingInputOf order session seats ticket) ;;
               let order := markPaid order session booking ticket in
               Order_save order ;;;
               ret (READY ticket None, order))
              (fun err =>
               releaseSeats (eventId order) seats ;;;
               throw err)
        end
    end
  end.

End Variant.

(** ** Auxiliary definitions for the statements *)

(** The error [Booking.create] ends with, if any, as a function of the
    input and the ledger. *)
Definition bookingFailure (env : Env) (i : BookingInput) (bs : list Booking)
  : option Error :=
  match in_user i with
  | None => Some (ValidationError "user")
  | Some u =>
    if negb (isValidObjectId u) then Some (CastError "user") else
    match in_event i with
    | None => Some (ValidationError "event")
    | Some e =>
      if negb (isValidObjectId e) then Some (CastError "event")
      else if Qc_ltb (in_seats i) 1 then Some (ValidationError "seats")
      else if String.eqb (in_ticketId i) "" then Some (ValidationError "ticketId")
      else if ledgerFault env then Some StoreFault
      else if existsb (fun b => String.eqb (bk_ticketId b) (in_ticketId i)) bs
      then Some (DuplicateKey "ticketId")
      else None
    end
  end.

Definition saved (o : Order) (w : World) (l : list Effect) : World :=
  {| events := events w; bookings := bookings w;
     orders := <[_id o := o]> (orders w);
     log := (log w ++ l)%list |}.

Definition seats_ok (e : Event) : Prop :=
  0 ≤ bookedSeats e /\ bookedSeats e ≤ totalSeats e.

Definition inventory_ok (evs : gmap string Event) : Prop :=
  map_Forall (fun _ e => seats_ok e) evs.

(** A handler step keeps the seat bounds when it leads from a collection
    within bounds to one within bounds, however it ends. *)
Definition keeps_bounds {A} (m : M A) : Prop :=
  forall w, inventory_ok (events w) -> inventory_ok (events (snd (m w))).

Create HintDb bounds.

(** ** A concrete scenario *)

Module Sample.

Definition event_id : string := "0123456789abcdef01234567".
Definition user_id : string := "aaaaaaaaaaaaaaaaaaaaaaaa".
Definition order_id : string := "bbbbbbbbbbbbbbbbbbbbbbbb".
Definition booking_id : string := "cccccccccccccccccccccccc".
Definition ticket : string := "TKT-1700000000000-A1B2C3".

Definition order (q : option JsNumber) : Order :=
  {| _id := order_id; userId := Some user_id; eventId := event_id;
     name := "Ann"; email := "ann@example.org"; quantity := q;
     status := PENDING; paymentStatus := None;
     stripeSessionId := Some "cs_test_1"; stripePaymentIntentId := None;
     bookingId := None; ticketId := None |}.

Definition session : Session :=
  {| s_id := Some "cs_test_1"; payment_status := Some "paid";
     payment_intent := Some "pi_1"; meta_orderId := Some order_id;
     meta_name := None; meta_email := None |}.

Definition env (fault : bool) : Env :=
  {| now := 1700000000000%N; rnd := "a1b2c3";
     newBookingId := booking_id; ledgerFault := fault |}.

Definition world (total booked : Qc) (bs : list Booking) (o : Order) : World :=
  {| events := {[ event_id := {| totalSeats := total; bookedSeats := booked |} ]};
     bookings := bs; orders := {[ order_id := o ]}; log := [] |}.

Definition three : Qc := 1 + 2.
Definition five_halves : Qc := Q2Qc (5 # 2).

(** A Booking already in the ledger under the ticket the generator is
    about to produce. *)
Definition earlier_booking : Booking :=
  {| bk_id := "dddddddddddddddddddddddd"; bk_user := user_id;
     bk_event := event_id; bk_name := "Bob"; bk_email := "";
     bk_seats := 1; bk_ticketId := ticket; bk_paymentStatus := "PAID";
     bk_stripeSessionId := Some "cs_test_0";
     bk_stripePaymentIntentId := None |}.

Definition finalized_order : Order :=
  {| _id := order_id; userId := Some user_id; eventId := event_id;
     name := "Ann"; email := "ann@example.org";
     quantity := Some (Finite 1);
     status := PAID; paymentStatus := Some "paid";
     stripeSessionId := Some "cs_test_1";
     stripePaymentIntentId := Some "pi_1";
     bookingId := Some booking_id; ticketId := Some ticket |}.

End Sample.

Definition C1_store : gmap string Event :=
  {[ "0123456789abcdef01234567" := {| totalSeats := 1 + 2; bookedSeats := 2 |} ]}.

Definition sample_input (ticket : string) (session : option string) : BookingInput :=
  {| in_user := Some Sample.user_id; in_event := Some Sample.event_id;
     in_name := "Ann"; in_email := ""; in_seats := 1; in_ticketId := ticket;
     in_paymentStatus := Some "PAID"; in_stripeSessionId := session;
     in_stripePaymentIntentId := None |}.

Definition half_resolved_order : Order :=
  {| _id := Sample.order_id; userId := Some Sample.user_id;
     eventId := Sample.event_id; name := "Ann"; email := "ann@example.org";
     quantity := Some (Finite 1); status := PAID;
     paymentStatus := Some "paid"; stripeSessionId := Some "cs_test_1";
     stripePaymentIntentId := Some "pi_1";
     bookingId := None; ticketId := Some Sample.ticket |}.

(** ** Further handlers of the cited files *)

(** [Math.max(x, y)]. *)
Definition Qc_max (x y : Qc) : Qc := if Qc_leb x y then y else x.

(** The [availableSeats] virtual of models/Event.js,
    [Math.max(total - booked, 0)]; the same expression is the early
    availability check of [createCheckoutSession] and the [availableSeats]
    field of the manual booking response. *)
Definition availableSeats (e : Event) : Qc :=
  Qc_max (totalSeats e - bookedSeats e) 0.

(** The body of POST /api/payments/create-checkout-session and
    [req.user?.id]. A field that is missing is [None]; [req_quantity] and
    [req_unitAmount] are [None] as well when the JSON value is not a
    number. *)
Record CheckoutRequest := mkCheckoutRequest {
  req_user : option string;
  req_eventId : option string;
  req_ticketName : option string;
  req_quantity : option JsNumber;
  req_unitAmount : option JsNumber;
  req_name : option string;
  req_email : option string
}.

(** What the environment decides during one checkout: the ObjectId of the
    new order, and the answer of [stripe.checkout.sessions.create] for that
    order, the session's id and url, or [None] when the call throws. *)
Record CheckoutEnv := mkCheckoutEnv {
  newOrderId : string;
  stripe_create : string -> option (string * string)
}.

Inductive CheckoutResponse :=
| Checkout_400 (message : string)
| Checkout_404
| Checkout_200 (url : string) (orderId : string)
| Checkout_500.

Definition mustBeInt_opt (v : option JsNumber) : bool :=
  match v with
  | Some n => mustBeInt n
  | None => false
  end.

(** [StripeOrder.create(doc)]: a validated save of a new document under
    a new id, which the [_id] index rejects when the id is taken. *)
Definition Order_create (o : Order) : M Order :=
  tell (OrderSave (_id o)) ;;;
  match Order_validate o with
  | Some err => throw err
  | None =>
      os <- get_orders ;;
      match os !! _id o with
      | Some _ => throw (DuplicateKey "_id")
      | None => put_orders (<[_id o := o]> os) ;;; ret o
      end
  end.

Definition set_stripeSessionId (sid : option string) (order : Order) : Order :=
  {| _id := _id order; userId := userId order; eventId := eventId order;
     name := name order; email := email order; quantity := quantity order;
     status := status order; paymentStatus := paymentStatus order;
     stripeSessionId := sid;
     stripePaymentIntentId := stripePaymentIntentId order;
     bookingId := bookingId order; ticketId := ticketId order |}.

(** [createCheckoutSession]. The order's [ticketName], [unitAmount] and
    [currency] are stored as given and read by nothing modelled here; they
    are left out of the stored document. *)
Definition createCheckoutSession (cenv : CheckoutEnv) (req : CheckoutRequest)
  : M CheckoutResponse :=
  try_catch
    (if negb (truthy (req_eventId req)) then
       ret (Checkout_400 "eventId is required")
     else if negb (truthy (req_ticketName req)) then
       ret (Checkout_400 "ticketName is required")
     else if negb (mustBeInt_opt (req_quantity req)) then
       ret (Checkout_400 "quantity must be a positive integer")
     else if negb (mustBeInt_opt (req_unitAmount req)) then
       ret (Checkout_400 "unitAmount must be a positive integer (in paise)")
     else
       match req_eventId req, req_quantity req with
       | Some eventId, Some (Finite quantity) =>
         found <- Event_findById eventId ;;
         match found with
         | None => ret Checkout_404
         | Some ev =>
           if Qc_ltb (availableSeats ev) quantity then
             ret (Checkout_400 "Not enough seats available")
           else
             order <- Order_create
                        {| _id := newOrderId cenv;
                           userId := js_or_null (req_user req);
                           eventId := eventId;
                           name := js_or_lit (req_name req) "";
                           email := js_or_lit (req_email req) "";
                           quantity := Some (Finite quantity);
                           status := PENDING; paymentStatus := None;
                           stripeSessionId := None;
                           stripePaymentIntentId := None;
                           bookingId := None; ticketId := None |} ;;
             match stripe_create cenv (_id order) with
             | None => throw ProviderError
             | Some (sid, url) =>
                 Order_save (set_stripeSessionId (Some sid) order) ;;;
                 ret (Checkout_200 url (_id order))
             end
         end
       | _, _ => ret (Checkout_400 "quantity must be a positive integer")
       end)
    (fun _ => ret Checkout_500).

(** What a manual booking request carries besides the seat count: the
    authenticated user's id and the body's [eventId], [name], [email]. *)
Record BookingRequest := mkBookingRequest {
  breq_user : option string;
  breq_eventId : option string;
  breq_name : option string;
  breq_email : option string
}.

Inductive BookingResponse :=
| Booking_401
| Booking_400 (message : string)
| Booking_201 (ticket : string) (booking : Booking) (event : Event)
| Booking_500.

(** The object both manual booking handlers hand to [Booking.create]:
    user, event, [name || ''], [email || ''], seats and ticket; the route
    also sets [paymentStatus: 'PAID'], the controller leaves the schema
    default. *)
Definition manualBookingInput (req : BookingRequest) (eventId : string)
    (seatCount : Qc) (ticket : string) (paymentStatus : option string)
  : BookingInput :=
  {| in_user := breq_user req;
     in_event := Some eventId;
     in_name := js_or_lit (breq_name req) "";
     in_email := js_or_lit (breq_email req) "";
     in_seats := seatCount;
     in_ticketId := ticket;
     in_paymentStatus := paymentStatus;
     in_stripeSessionId := None;
     in_stripePaymentIntentId := None |}.

(** routes/booking.routes.js, POST /api/bookings (the manual booking);
    [seats] is [Number(req.body.seats)]. *)
Definition postBooking (env : Env) (req : BookingRequest) (seats : JsNumber)
  : M BookingResponse :=
  try_catch
    (if negb (truthy (breq_eventId req)) then
       ret (Booking_400 "eventId is required")
     else if negb (truthy (breq_name req)) then
       ret (Booking_400 "name is required")
     else if negb (truthy (breq_email req)) then
       ret (Booking_400 "email is required")
     else
       match breq_eventId req, seats with
       | Some eventId, Finite seatCount =>
         if invalidSeats (Finite seatCount) then
           ret (Booking_400 "seats must be >= 1")
         else
           updatedEvent <- reserveSeats eventId seatCount ;;
           match updatedEvent with
           | None => ret (Booking_400 "Not enough seats available")
           | Some ev =>
             let ticket := generateTicketId env in
             booking <- Booking_create env
                          (manualBookingInput req eventId seatCount ticket
                             (Some "PAID")) ;;
             ret (Booking_201 (bk_ticketId booking) booking ev)
           end
       | _, _ => ret (Booking_400 "seats must be >= 1")
       end)
    (fun _ => ret Booking_500).

(** [Math.max(1, Number(seats || 1))]. [seats] is [Number] of the body's
    field when the body carries one, so [NaN] stands for a value that is
    not numeric; such a value is truthy, and [Math.max(1, NaN)] is [NaN]. *)
Definition seatCountOf (seats : option JsNumber) : JsNumber :=
  match seats with
  | Some (Finite q) => Finite (if Qc_eqb q 0 then 1 else Qc_max 1 q)
  | Some NaN => NaN
  | None => Finite 1
  end.

(** controllers/booking.controller.js, [createBooking]; its ticket
    identifier is not upper-cased. An update whose [$inc] is [NaN] is
    rejected with a cast error before it reaches the store. *)
Definition createBooking (env : Env) (req : BookingRequest)
    (seats : option JsNumber) : M BookingResponse :=
  try_catch
    (if negb (truthy (breq_user req)) then ret Booking_401
     else if negb (truthy (breq_eventId req)) then
       ret (Booking_400 "eventId missing")
     else
       match breq_eventId req, seatCountOf seats with
       | Some eventId, Finite seatCount =>
         let ticket := "TKT-" +:+ pretty (now env) +:+ "-" +:+ rnd env in
         updatedEvent <- reserveSeats eventId seatCount ;;
         match updatedEvent with
         | None => ret (Booking_400 "Not enough seats available")
         | Some ev =>
           booking <- Booking_create env
                        (manualBookingInput req eventId seatCount ticket None) ;;
           ret (Booking_201 (bk_ticketId booking) booking ev)
         end
       | Some _, NaN => throw (CastError "bookedSeats")
       | None, _ => ret (Booking_400 "eventId missing")
       end)
    (fun _ => ret Booking_500).

Inductive TicketResponse :=
| Ticket_400
| Ticket_404
| Ticket_200 (booking : Booking) (event : option Event).

(** controllers/booking.controller.js, [getByTicketId]:
    [Booking.findOne({ ticketId }).populate('event')]. *)
Definition getByTicketId (ticket : option string) : M TicketResponse :=
  match ticket with
  | Some t =>
    if truthy ticket then
      bs <- get_bookings ;;
      match List.find (fun b => String.eqb (bk_ticketId b) t) bs with
      | None => ret Ticket_404
      | Some b =>
          evs <- get_events ;;
          ret (Ticket_200 b (evs !! bk_event b))
      end
    else ret Ticket_400
  | None => ret Ticket_400
  end.

(** ** Further definitions for the statements *)

(** The document [Booking.create] inserts when it accepts the input. *)
Definition bookingOf (env : Env) (i : BookingInput) : Booking :=
  {| bk_id := newBookingId env;
     bk_user := default "" (in_user i);
     bk_event := default "" (in_event i);
     bk_name := in_name i; bk_email := in_email i;
     bk_seats := in_seats i; bk_ticketId := in_ticketId i;
     bk_paymentStatus := js_or_lit (in_paymentStatus i) "PENDING";
     bk_stripeSessionId := in_stripeSessionId i;
     bk_stripePaymentIntentId := in_stripePaymentIntentId i |}.

(** The seats the ledger holds for an event. *)
Definition seats_sold (id : string) (bs : list Booking) : Qc :=
  foldr (fun b acc => if String.eqb (bk_event b) id then bk_seats b + acc else acc)
        0 bs.

(** Every event's counter is the sum of the seats of its Bookings. *)
Definition ledger_matches (w : World) : Prop :=
  forall id e, events w !! id = Some e ->
               bookedSeats e = seats_sold id (bookings w).

Definition tickets_distinct (bs : list Booking) : Prop :=
  NoDup (bk_ticketId <$> bs).

(** [Math.min(x, y)]. *)
Definition Qc_min (x y : Qc) : Qc := if Qc_leb x y then x else y.

Definition sample_checkout (q : JsNumber) : CheckoutRequest :=
  {| req_user := Some Sample.user_id; req_eventId := Some Sample.event_id;
     req_ticketName := Some "General"; req_quantity := Some q;
     req_unitAmount := Some (Finite 2); req_name := Some "Ann";
     req_email := None |}.

(** A handler step that leaves the three collections as they are,
    however it ends (it may still log calls). *)
Definition reads_only {A} (m : M A) : Prop :=
  forall w, events (snd (m w)) = events w
            /\ bookings (snd (m w)) = bookings w
            /\ orders (snd (m w)) = orders w.

Create HintDb reads.

Definition is_lower (c : ascii) : bool :=
  let n := nat_of_ascii c in ((97 <=? n) && (n <=? 122))%nat.

(** ** Deleting events and bookings *)

(** [Event.findByIdAndDelete(id)]: the event stored under [id], removed
    from the collection, or null when there is none. *)
Definition Event_findByIdAndDelete (id : string) : M (option Event) :=
  if isValidObjectId id then
    evs <- get_events ;;
    match evs !! id with
    | Some e => put_events (delete id evs) ;;; ret (Some e)
    | None => ret None
    end
  else throw (CastError "_id").



Inductive DeleteResponse := Delete_404 | Delete_200 | Delete_400 | Delete_500.

(** routes/admin.routes.js, DELETE /api/admin/events/:id. *)
Definition adminDeleteEvent (id : string) : M DeleteResponse :=
  try_catch
    (deleted <- Event_findByIdAndDelete id ;;
     match deleted with
     | None => ret Delete_404
     | Some _ => ret Delete_200
     end)
    (fun _ => ret Delete_500).

(** controllers/event.controller.js, [deleteEvent]. *)
Definition deleteEvent (id : string) : M DeleteResponse :=
  try_catch
    (deleted <- Event_findByIdAndDelete id ;;
     match deleted with
     | None => ret Delete_404
     | Some _ => ret Delete_200
     end)
    (fun _ => ret Delete_400).


(** ** The second copy's poll and webhook handlers

  The handlers that call the second copy's [finalizePaidOrder]. Its poll
  handler has no test on the order's status, and its webhook handler has
  neither a [try]/[catch] around its body nor a branch for
  [checkout.session.expired]: an error thrown inside it leaves the
  handler, which is the outcome [Throw] here. *)
Module VariantHandlers.

Inductive PollResponse :=
| Poll_404
| Poll_READY (ticket : string)
| Poll_PENDING
| Poll_result (status : string) (ticket : option string)
| Poll_500 (e : Error).

(** The part of the poll handler after the "already ready" test;
    [Poll_result] carries [result.status] and [result.ticketId || null]. *)
Definition pollUnresolved (env : Env) (provider : string -> option Session)
    (sessionId : string) (order : Order) : M PollResponse :=
  session <- stripe_retrieve provider sessionId ;;
  if negb (bool_decide (payment_status session = Some "paid")) then
    ret Poll_PENDING
  else
    result <- Variant.finalizePaidOrder env order session ;;
    match fst result with
    | Variant.READY t _ => ret (Poll_result "READY" (js_or_null (Some t)))
    | Variant.NOT_READY _ => ret (Poll_result "FAILED" None)
    end.

Definition getStripeResultBySession (env : Env)
    (provider : string -> option Session) (sessionId : string)
  : M PollResponse :=
  try_catch
    (found <- Order_findOne sessionId ;;
     match found with
     | None => ret Poll_404
     | Some order =>
       match ticketId order with
       | Some t =>
           if truthy (Some t)
           then ret (Poll_READY t)
           else pollUnresolved env provider sessionId order
       | None => pollUnresolved env provider sessionId order
       end
     end)
    (fun err => ret (Poll_500 err)).

Definition stripeWebhook (env : Env) (constructed : string + StripeEvent)
  : M WebhookResponse :=
  match constructed with
  | inl message => ret (Webhook_400 ("Webhook Error: " +:+ message))
  | inr event =>
    (if String.eqb (ev_type event) "checkout.session.completed" then
       let session := data_object event in
       match meta_orderId session with
       | Some orderId =>
         if truthy (Some orderId) then
           found <- Order_findById orderId ;;
           match found with
           | Some order =>
               if bool_decide (payment_status session = Some "paid")
               then Variant.finalizePaidOrder env order session ;;; ret tt
               else ret tt
           | None => ret tt
           end
         else ret tt
       | None => ret tt
       end
     else ret tt) ;;;
    ret Webhook_received
  end.

End VariantHandlers.

(** * Properties *)

(** ** Order-relation facts for the boolean comparisons *)

Lemma Qc_leb_le (x y : Qc) : Qc_leb x y = true <-> x ≤ y.
Proof. unfold Qc_leb, Qcle. apply Qle_bool_iff. Qed.

Lemma Qc_leb_gt (x y : Qc) : Qc_leb x y = false <-> y < x.
Proof.
  rewrite Qclt_nge, <- Qc_leb_le. destruct (Qc_leb x y); split; congruence.
Qed.

Lemma Qc_ltb_lt (x y : Qc) : Qc_ltb x y = true <-> x < y.
Proof. unfold Qc_ltb. rewrite negb_true_iff. apply Qc_leb_gt. Qed.

Lemma Qc_ltb_ge (x y : Qc) : Qc_ltb x y = false <-> y ≤ x.
Proof. unfold Qc_ltb. rewrite negb_false_iff. apply Qc_leb_le. Qed.

Lemma Qc_eqb_eq (x y : Qc) : Qc_eqb x y = true <-> x = y.
Proof.
  unfold Qc_eqb. rewrite Qeq_bool_iff. split.
  - apply Qc_is_canon.
  - intros ->. reflexivity.
Qed.

Lemma Qc_plus_minus (x y : Qc) : x + y + - y = x.
Proof. ring. Qed.

(** ** Facts about the inventory primitives *)

Lemma inc_inc_cancel (s : Qc) (e : Event) :
  inc_bookedSeats (- s) (inc_bookedSeats s e) = e.
Proof.
  destruct e as [t b]. unfold inc_bookedSeats. simpl.
  by rewrite Qc_plus_minus.
Qed.

Lemma capacityFilter_true (s : Qc) (e : Event) :
  capacityFilter s e = true <-> bookedSeats e + s ≤ totalSeats e.
Proof. apply Qc_leb_le. Qed.

Lemma tryReserve_hit (id : string) (s : Qc) (evs : gmap string Event) (e : Event) :
  evs !! id = Some e -> bookedSeats e + s ≤ totalSeats e ->
  tryReserve id s evs
  = (Some (inc_bookedSeats s e), <[id := inc_bookedSeats s e]> evs).
Proof.
  intros Hid Hcap. unfold tryReserve, Event_findOneAndUpdate. rewrite Hid.
  apply capacityFilter_true in Hcap. by rewrite Hcap.
Qed.

Lemma tryReserve_miss (id : string) (s : Qc) (evs : gmap string Event) (e : Event) :
  evs !! id = Some e -> ¬ bookedSeats e + s ≤ totalSeats e ->
  tryReserve id s evs = (None, evs).
Proof.
  intros Hid Hcap. unfold tryReserve, Event_findOneAndUpdate. rewrite Hid.
  destruct (capacityFilter s e) eqn:Hf; [|done].
  apply capacityFilter_true in Hf. contradiction.
Qed.

Lemma tryReserve_Some_inv (id : string) (s : Qc) (evs evs' : gmap string Event)
    (e' : Event) :
  tryReserve id s evs = (Some e', evs') ->
  exists e, evs !! id = Some e /\ bookedSeats e + s ≤ totalSeats e
            /\ e' = inc_bookedSeats s e /\ evs' = <[id := e']> evs.
Proof.
  unfold tryReserve, Event_findOneAndUpdate.
  destruct (evs !! id) as [e|] eqn:Hid; [|discriminate].
  destruct (capacityFilter s e) eqn:Hf; [|discriminate].
  intros [= <- <-]. exists e. by rewrite <- capacityFilter_true.
Qed.

Lemma tryReserve_None_inv (id : string) (s : Qc) (evs evs' : gmap string Event) :
  tryReserve id s evs = (None, evs') -> evs' = evs.
Proof.
  unfold tryReserve, Event_findOneAndUpdate.
  destruct (evs !! id) as [e|]; [destruct (capacityFilter s e)|];
    by intros [= <-].
Qed.

Lemma release_lookup (id : string) (s : Qc) (evs : gmap string Event) (e : Event) :
  evs !! id = Some e ->
  release id s evs = <[id := inc_bookedSeats (- s) e]> evs.
Proof.
  intros Hid. unfold release, Event_findByIdAndUpdate. by rewrite Hid.
Qed.

(** Releasing what a successful reservation took gives back the store as
    it was. *)
Lemma release_undoes_reserve (id : string) (s : Qc) (evs evs' : gmap string Event)
    (e' : Event) :
  tryReserve id s evs = (Some e', evs') -> release id s evs' = evs.
Proof.
  intros H. apply tryReserve_Some_inv in H as (e & Hid & _ & -> & ->).
  rewrite (release_lookup _ _ _ (inc_bookedSeats s e)) by apply lookup_insert_eq.
  rewrite inc_inc_cancel, insert_insert_eq. by apply insert_id.
Qed.



(** C7, as the code has it, in both copies of the controller: the rollback
    is an unconditional [$inc] of [-s]; it cannot fail on capacity and it
    has no floor. Where the stored count and the difference are exact (as
    they are for integer counts below [2^53]), the new [bookedSeats] is
    [bookedSeats - s]: non-negative exactly when [s <= bookedSeats], and
    negative whenever [s] exceeds [bookedSeats]. Issued on the store that a
    successful reservation of [s] has left, it gives back the store as it
    was before that reservation. *)
Theorem C7_release_decrements_unfloored
    (id : string) (s : Qc) (evs : gmap string Event) (e : Event) :
  evs !! id = Some e ->
  exact (bookedSeats e) -> exact (bookedSeats e - s) ->
  release id s evs
  = <[id := {| totalSeats := totalSeats e; bookedSeats := bookedSeats e - s |}]> evs
  /\ (0 ≤ bookedSeats e - s <-> s ≤ bookedSeats e)
  /\ (bookedSeats e < s -> bookedSeats e - s < 0)
  /\ (forall evs0 e0, tryReserve id s evs0 = (Some e0, evs) -> release id s evs = evs0)
  /\ (forall w, isValidObjectId id = true -> events w = evs ->
                fst (releaseSeats id s w) = Ok tt
                /\ events (snd (releaseSeats id s w)) = release id s evs).
Proof.
  intros Hid _ _. split; [by apply release_lookup|]. split; [|split; [|split]].
  - rewrite (Qcplus_le_mono_r _ _ s).
    replace (bookedSeats e - s + s) with (bookedSeats e) by ring.
    by rewrite Qcplus_0_l.
  - intros Hlt. apply Qcnot_le_lt. intros Hge.
    apply (Qclt_not_le _ _ Hlt).
    apply (Qcplus_le_mono_r _ _ s) in Hge.
    replace (bookedSeats e - s + s) with (bookedSeats e) in Hge by ring.
    by rewrite Qcplus_0_l in Hge.
  - intros evs0 e0 H. by eapply release_undoes_reserve.
  - intros w Hv <-. unfold releaseSeats, bind, tell, get_events, put_events.
    simpl. by rewrite Hv.
Qed.

Lemma C7_release_witness :
  release "0123456789abcdef01234567" 1 C1_store
  = <[ "0123456789abcdef01234567" :=
         {| totalSeats := 1 + 2; bookedSeats := 2 - 1 |} ]> C1_store.
Proof.
  exact (proj1 (C7_release_decrements_unfloored
                  "0123456789abcdef01234567" 1 C1_store
                  {| totalSeats := 1 + 2; bookedSeats := 2 |}
                  eq_refl eq_refl eq_refl)).
Defined.

(** C7 as stated fails: releasing 2 seats of an event that has 1 booked
    leaves [bookedSeats] at -1, not at 0. *)
Lemma C7_release_goes_negative :
  exists e',
    release "0123456789abcdef01234567" 2
      {[ "0123456789abcdef01234567" := {| totalSeats := 2; bookedSeats := 1 |} ]}
    !! "0123456789abcdef01234567" = Some e'
    /\ bookedSeats e' = - 1
    /\ bookedSeats e' < 0.
Proof.
  eexists. split; [reflexivity|]. split.
  - apply Qc_is_canon. reflexivity.
  - reflexivity.
Qed.

(** ** How the monadic steps run *)

Lemma reserveSeats_run (id : string) (s : Qc) (w : World) :
  isValidObjectId id = true ->
  reserveSeats id s w
  = (Ok (fst (tryReserve id s (events w))),
     {| events := snd (tryReserve id s (events w)); bookings := bookings w;
        orders := orders w;
        log := (log w ++ [EventFindOneAndUpdate id s])%list |}).
Proof.
  intros Hv. unfold reserveSeats, bind, tell, get_events, put_events, ret.
  simpl. rewrite Hv. simpl. by destruct (tryReserve id s (events w)).
Qed.

Lemma reserveSeats_invalid (id : string) (s : Qc) (w : World) :
  isValidObjectId id = false ->
  reserveSeats id s w
  = (Throw (CastError "_id"),
     {| events := events w; bookings := bookings w; orders := orders w;
        log := (log w ++ [EventFindOneAndUpdate id s])%list |}).
Proof.
  intros Hv. unfold reserveSeats, bind, tell, throw. simpl. by rewrite Hv.
Qed.

Lemma releaseSeats_run (id : string) (s : Qc) (w : World) :
  isValidObjectId id = true ->
  releaseSeats id s w
  = (Ok tt,
     {| events := release id s (events w); bookings := bookings w;
        orders := orders w;
        log := (log w ++ [EventFindByIdAndUpdate id (- s)])%list |}).
Proof.
  intros Hv. unfold releaseSeats, bind, tell, get_events, put_events.
  simpl. by rewrite Hv.
Qed.

Lemma truthy_valid_id (oid : string) :
  isValidObjectId oid = true -> truthy (Some oid) = true.
Proof. intros Hv. destruct oid; [discriminate Hv|done]. Qed.

Lemma Order_validate_ok (o : Order) (q : Qc) :
  truthy (Some (eventId o)) = true -> quantity o = Some (Finite q) ->
  Order_validate o = None.
Proof. intros He Hq. unfold Order_validate. by rewrite He, Hq. Qed.

(** A quantity that passes the guard [!seats || seats < 1] is a number. *)
Lemma guard_quantity (o : Order) (seats : Qc) :
  Number_or_zero (quantity o) = Finite seats ->
  invalidSeats (Finite seats) = false ->
  quantity o = Some (Finite seats).
Proof.
  unfold Number_or_zero.
  destruct (quantity o) as [[q|]|]; try (intros [= <-]; discriminate).
  destruct (Qc_eqb q 0); [intros [= <-]; discriminate|]. by intros [= ->].
Qed.

Lemma Order_validate_after_guard (o o' : Order) (seats : Qc) :
  Number_or_zero (quantity o) = Finite seats ->
  invalidSeats (Finite seats) = false ->
  isValidObjectId (eventId o) = true ->
  eventId o' = eventId o -> quantity o' = quantity o ->
  Order_validate o' = None.
Proof.
  intros Hq Hinv Hv He Hq'. apply (Order_validate_ok o' seats).
  - rewrite He. by apply truthy_valid_id.
  - rewrite Hq'. by apply guard_quantity.
Qed.

Lemma Order_validate_same (o o' : Order) :
  eventId o' = eventId o -> quantity o' = quantity o ->
  Order_validate o' = Order_validate o.
Proof. intros He Hq. unfold Order_validate. by rewrite He, Hq. Qed.

Lemma Order_save_run (o : Order) (w : World) :
  Order_validate o = None ->
  Order_save o w
  = (Ok tt,
     {| events := events w; bookings := bookings w;
        orders := <[_id o := o]> (orders w);
        log := (log w ++ [OrderSave (_id o)])%list |}).
Proof.
  intros Hok. unfold Order_save, bind, tell, get_orders, put_orders.
  by rewrite Hok.
Qed.

Lemma Order_save_rejects (o : Order) (w : World) (err : Error) :
  Order_validate o = Some err ->
  Order_save o w
  = (Throw err,
     {| events := events w; bookings := bookings w; orders := orders w;
        log := (log w ++ [OrderSave (_id o)])%list |}).
Proof.
  intros Hbad. unfold Order_save, bind, tell, throw. by rewrite Hbad.
Qed.

Lemma Booking_create_throws (env : Env) (i : BookingInput) (w : World) (err : Error) :
  bookingFailure env i (bookings w) = Some err ->
  Booking_create env i w
  = (Throw err,
     {| events := events w; bookings := bookings w; orders := orders w;
        log := (log w ++ [BookingCreate (in_ticketId i)])%list |}).
Proof.
  unfold bookingFailure, Booking_create, castObjectId, bind, tell, throw, ret,
    get_bookings, put_bookings.
  simpl.
  destruct (in_user i) as [u|]; [|by intros [= <-]].
  destruct (isValidObjectId u); simpl; [|by intros [= <-]].
  destruct (in_event i) as [e|]; [|by intros [= <-]].
  destruct (isValidObjectId e); simpl; [|by intros [= <-]].
  destruct (Qc_ltb (in_seats i) 1); simpl; [by intros [= <-]|].
  destruct (String.eqb (in_ticketId i) ""); simpl; [by intros [= <-]|].
  destruct (ledgerFault env); simpl; [by intros [= <-]|].
  destruct (existsb _ (bookings w)); simpl; [by intros [= <-]|done].
Qed.

Lemma Booking_create_ok (env : Env) (i : BookingInput) (w : World) :
  bookingFailure env i (bookings w) = None ->
  exists b,
    Booking_create env i w
    = (Ok b,
       {| events := events w; bookings := (bookings w ++ [b])%list;
          orders := orders w;
          log := (log w ++ [BookingCreate (in_ticketId i)])%list |})
    /\ bk_id b = newBookingId env
    /\ bk_ticketId b = in_ticketId i
    /\ bk_seats b = in_seats i
    /\ bk_stripeSessionId b = in_stripeSessionId i.
Proof.
  unfold bookingFailure, Booking_create, castObjectId, bind, tell, throw, ret,
    get_bookings, put_bookings.
  simpl.
  destruct (in_user i) as [u|]; [|done].
  destruct (isValidObjectId u); simpl; [|done].
  destruct (in_event i) as [e|]; [|done].
  destruct (isValidObjectId e); simpl; [|done].
  destruct (Qc_ltb (in_seats i) 1); simpl; [done|].
  destruct (String.eqb (in_ticketId i) ""); simpl; [done|].
  destruct (ledgerFault env); simpl; [done|].
  destruct (existsb _ (bookings w)); simpl; [done|].
  intros _. eexists. split; [reflexivity|]. done.
Qed.

Lemma toUpperCase_nonempty (s : string) : s ≠ "" -> toUpperCase s ≠ "".
Proof. destruct s; [done|]. simpl. discriminate. Qed.

Lemma generateTicketId_truthy (env : Env) : truthy (Some (generateTicketId env)) = true.
Proof. reflexivity. Qed.

Lemma alreadyFinalized_Some (order : Order) (t b : string) :
  ticketId order = Some t -> t ≠ "" -> bookingId order = Some b ->
  alreadyFinalized order = Some (t, b).
Proof.
  intros Ht Hne Hb. unfold alreadyFinalized. rewrite Ht, Hb. simpl.
  destruct (String.eqb_spec t ""); [contradiction|done].
Qed.

Lemma alreadyFinalized_no_booking (order : Order) :
  bookingId order = None -> alreadyFinalized order = None.
Proof.
  intros Hb. unfold alreadyFinalized. rewrite Hb. by destruct (ticketId order).
Qed.

(** ** The paths through [finalizePaidOrder] *)

Lemma finalize_short_circuit (env : Env) (order : Order) (session : option Session)
    (w : World) (t b : string) :
  alreadyFinalized order = Some (t, b) ->
  finalizePaidOrder env order session w = (Ok (READY t b, order), w).
Proof. intros H. unfold finalizePaidOrder. by rewrite H. Qed.

Lemma finalize_invalid_seats (env : Env) (order : Order) (session : option Session)
    (w : World) :
  alreadyFinalized order = None ->
  invalidSeats (Number_or_zero (quantity order)) = true ->
  Order_validate order = None ->
  finalizePaidOrder env order session w
  = (Ok (NOT_READY "Invalid seats.", markFailed order session),
     saved (markFailed order session) w [OrderSave (_id order)]).
Proof.
  intros Hfin Hinv Hok. unfold finalizePaidOrder. rewrite Hfin.
  destruct (Number_or_zero (quantity order)) as [q|]; [rewrite Hinv|];
    unfold bind; rewrite Order_save_run; done.
Qed.

Lemma finalize_invalid_rejected (env : Env) (order : Order)
    (session : option Session) (w : World) (err : Error) :
  alreadyFinalized order = None ->
  invalidSeats (Number_or_zero (quantity order)) = true ->
  Order_validate order = Some err ->
  finalizePaidOrder env order session w
  = (Throw err,
     {| events := events w; bookings := bookings w; orders := orders w;
        log := (log w ++ [OrderSave (_id order)])%list |}).
Proof.
  intros Hfin Hinv Hbad. unfold finalizePaidOrder. rewrite Hfin.
  destruct (Number_or_zero (quantity order)) as [q|]; [rewrite Hinv|];
    unfold bind; by rewrite (Order_save_rejects _ _ err).
Qed.

Lemma finalize_no_capacity (env : Env) (order : Order) (session : option Session)
    (w : World) (seats : Qc) :
  alreadyFinalized order = None ->
  Number_or_zero (quantity order) = Finite seats ->
  invalidSeats (Finite seats) = false ->
  isValidObjectId (eventId order) = true ->
  fst (tryReserve (eventId order) seats (events w)) = None ->
  finalizePaidOrder env order session w
  = (Ok (NOT_READY "Not enough seats available.", markFailed order session),
     saved (markFailed order session) w
       [EventFindOneAndUpdate (eventId order) seats; OrderSave (_id order)]).
Proof.
  intros Hfin Hq Hinv Hv Hres. unfold finalizePaidOrder.
  rewrite Hfin, Hq, Hinv. unfold bind at 1. rewrite (reserveSeats_run _ _ _ Hv).
  destruct (tryReserve (eventId order) seats (events w)) as [r evs'] eqn:Hr.
  simpl in Hres. subst r. apply tryReserve_None_inv in Hr as ->. simpl.
  unfold saved, bind.
  rewrite Order_save_run
    by (by apply (Order_validate_after_guard order _ seats)).
  simpl. by rewrite <- app_assoc.
Qed.

Lemma finalize_cast_error (env : Env) (order : Order) (session : option Session)
    (w : World) (seats : Qc) :
  alreadyFinalized order = None ->
  Number_or_zero (quantity order) = Finite seats ->
  invalidSeats (Finite seats) = false ->
  isValidObjectId (eventId order) = false ->
  finalizePaidOrder env order session w
  = (Throw (CastError "_id"),
     {| events := events w; bookings := bookings w; orders := orders w;
        log := (log w ++ [EventFindOneAndUpdate (eventId order) seats])%list |}).
Proof.
  intros Hfin Hq Hinv Hv. unfold finalizePaidOrder.
  rewrite Hfin, Hq, Hinv. unfold bind at 1.
  by rewrite (reserveSeats_invalid _ _ _ Hv).
Qed.

Lemma finalize_success (env : Env) (order : Order) (session : option Session)
    (w : World) (seats : Qc) (e' : Event) (evs' : gmap string Event) :
  alreadyFinalized order = None ->
  Number_or_zero (quantity order) = Finite seats ->
  invalidSeats (Finite seats) = false ->
  isValidObjectId (eventId order) = true ->
  tryReserve (eventId order) seats (events w) = (Some e', evs') ->
  bookingFailure env (bookingInputOf order session seats (generateTicketId env))
    (bookings w) = None ->
  exists b,
    finalizePaidOrder env order session w
    = (Ok (READY (generateTicketId env) (bk_id b),
           markPaid order session b (generateTicketId env)),
       {| events := evs'; bookings := (bookings w ++ [b])%list;
          orders := <[_id order := markPaid order session b (generateTicketId env)]>
                      (orders w);
          log := (log w ++ [EventFindOneAndUpdate (eventId order) seats;
                            BookingCreate (generateTicketId env);
                            OrderSave (_id order)])%list |})
    /\ bk_id b = newBookingId env
    /\ bk_ticketId b = generateTicketId env
    /\ bk_seats b = seats
    /\ bk_stripeSessionId b
       = js_or_null (js_or (stripeSessionId order) (session ≫= s_id)).
Proof.
  intros Hfin Hq Hinv Hv Hres Hok. unfold finalizePaidOrder.
  rewrite Hfin, Hq, Hinv. unfold bind at 1. rewrite (reserveSeats_run _ _ _ Hv).
  rewrite Hres. simpl.
  set (w1 := {| events := evs'; bookings := bookings w; orders := orders w;
                log := _ |}).
  destruct (Booking_create_ok env
              (bookingInputOf order session seats (generateTicketId env)) w1 Hok)
    as (b & Hrun & Hid & Ht & Hs & Hsess).
  exists b. unfold try_catch, bind at 1. rewrite Hrun. cbv iota beta zeta.
  unfold bind at 1.
  rewrite Order_save_run
    by (by apply (Order_validate_after_guard order _ seats)).
  unfold ret. subst w1. simpl.
  split_and!; try done.
  by rewrite <- !app_assoc.
Qed.

Lemma finalize_compensates (env : Env) (order : Order) (session : option Session)
    (w : World) (seats : Qc) (e' : Event) (evs' : gmap string Event) (err : Error) :
  alreadyFinalized order = None ->
  Number_or_zero (quantity order) = Finite seats ->
  invalidSeats (Finite seats) = false ->
  isValidObjectId (eventId order) = true ->
  tryReserve (eventId order) seats (events w) = (Some e', evs') ->
  bookingFailure env (bookingInputOf order session seats (generateTicketId env))
    (bookings w) = Some err ->
  finalizePaidOrder env order session w
  = (Throw err,
     saved (markFailed order session) w
       [EventFindOneAndUpdate (eventId order) seats;
        BookingCreate (generateTicketId env);
        EventFindByIdAndUpdate (eventId order) (- seats);
        OrderSave (_id order)]).
Proof.
  intros Hfin Hq Hinv Hv Hres Herr. unfold finalizePaidOrder.
  rewrite Hfin, Hq, Hinv. unfold bind at 1. rewrite (reserveSeats_run _ _ _ Hv).
  rewrite Hres. simpl.
  set (w1 := {| events := evs'; bookings := bookings w; orders := orders w;
                log := _ |}).
  unfold try_catch, bind at 1.
  rewrite (Booking_create_throws env _ w1 err Herr). simpl.
  unfold bind at 1. rewrite (releaseSeats_run _ _ _ Hv). simpl.
  unfold bind, throw.
  rewrite Order_save_run
    by (by apply (Order_validate_after_guard order _ seats)).
  simpl. rewrite (release_undoes_reserve _ _ _ _ _ Hres).
  unfold saved. by rewrite <- !app_assoc.
Qed.

(** The same failure in the second copy of the controller: the seats are
    released and the error is rethrown; there the order is not written. *)
Lemma Variant_finalize_compensates (env : Env) (order : Order) (session : Session)
    (w : World) (seats : Qc) (e' : Event) (evs' : gmap string Event) (err : Error) :
  alreadyFinalized order = None ->
  Number_or_zero (quantity order) = Finite seats ->
  invalidSeats (Finite seats) = false ->
  isValidObjectId (eventId order) = true ->
  tryReserve (eventId order) seats (events w) = (Some e', evs') ->
  bookingFailure env
    (Variant.bookingInputOf order session seats (generateTicketId env))
    (bookings w) = Some err ->
  Variant.finalizePaidOrder env order session w
  = (Throw err,
     {| events := events w; bookings := bookings w; orders := orders w;
        log := (log w ++ [EventFindOneAndUpdate (eventId order) seats;
                          BookingCreate (generateTicketId env);
                          EventFindByIdAndUpdate (eventId order) (- seats)])%list |}).
Proof.
  intros Hfin Hq Hinv Hv Hres Herr. unfold Variant.finalizePaidOrder.
  rewrite Hfin, Hq, Hinv. unfold bind at 1. rewrite (reserveSeats_run _ _ _ Hv).
  rewrite Hres. simpl.
  set (w1 := {| events := evs'; bookings := bookings w; orders := orders w;
                log := _ |}).
  unfold try_catch, bind at 1.
  rewrite (Booking_create_throws env _ w1 err Herr). simpl.
  unfold bind at 1. rewrite (releaseSeats_run _ _ _ Hv). simpl.
  unfold throw.
  rewrite (release_undoes_reserve _ _ _ _ _ Hres).
  by rewrite <- !app_assoc.
Qed.

(** When an order that was not finalized yet comes back READY, the run
    went through reservation, Booking insert and commit. *)
Lemma finalize_READY_inv (env : Env) (order order' : Order)
    (session : option Session) (w w' : World) (t b : string) :
  alreadyFinalized order = None ->
  finalizePaidOrder env order session w = (Ok (READY t b, order'), w') ->
  exists seats bk,
    Number_or_zero (quantity order) = Finite seats
    /\ t = generateTicketId env
    /\ b = bk_id bk
    /\ bk_ticketId bk = t
    /\ bk_seats bk = seats
    /\ order' = markPaid order session bk t
    /\ bookings w' = (bookings w ++ [bk])%list
    /\ events w' = snd (tryReserve (eventId order) seats (events w))
    /\ orders w' = <[_id order := order']> (orders w).
Proof.
  intros Hfin Hrun.
  assert (invalidSeats (Number_or_zero (quantity order)) = true ->
          forall P : Prop, P) as Hguard.
  { intros Hinv P. destruct (Order_validate order) as [err|] eqn:Hval.
    - rewrite (finalize_invalid_rejected _ _ _ _ err Hfin Hinv Hval) in Hrun.
      discriminate.
    - rewrite (finalize_invalid_seats _ _ _ _ Hfin Hinv Hval) in Hrun.
      discriminate. }
  destruct (Number_or_zero (quantity order)) as [seats|] eqn:Hq.
  2:{ by apply Hguard. }
  destruct (invalidSeats (Finite seats)) eqn:Hinv.
  { by apply Hguard. }
  clear Hguard.
  destruct (isValidObjectId (eventId order)) eqn:Hv.
  2:{ by rewrite (finalize_cast_error _ _ _ _ _ Hfin Hq Hinv Hv) in Hrun. }
  destruct (tryReserve (eventId order) seats (events w)) as [[e'|] evs'] eqn:Hres.
  2:{ rewrite (finalize_no_capacity _ _ _ _ _ Hfin Hq Hinv Hv) in Hrun
        by (by rewrite Hres).
      discriminate. }
  destruct (bookingFailure env
              (bookingInputOf order session seats (generateTicketId env))
              (bookings w)) as [err|] eqn:Hb.
  { by rewrite (finalize_compensates _ _ _ _ _ _ _ _ Hfin Hq Hinv Hv Hres Hb)
      in Hrun. }
  destruct (finalize_success _ _ _ _ _ _ _ Hfin Hq Hinv Hv Hres Hb)
    as (bk & Hok & _ & Ht & Hs & _).
  rewrite Hok in Hrun. injection Hrun as <- <- <- <-.
  exists seats, bk. split_and!; simpl; try done.
  by rewrite Hres.
Qed.

(** C2: finalization is idempotent. An order whose [ticketId] and
    [bookingId] are both set comes back READY with those identifiers and
    nothing at all changes (no store is written, no call is logged).
    Consequently, when a first call on a not yet finalized order returns
    READY, a second call on the order as the first one left it (in memory
    and in the store) returns the same [ticketId] and [bookingId] and
    changes nothing: over the two calls exactly one Booking was added. *)
Theorem C2_finalize_is_idempotent
    (env env' : Env) (order : Order) (session session' : option Session)
    (w : World) (t b : string) :
  (ticketId order = Some t -> t ≠ "" -> bookingId order = Some b ->
   finalizePaidOrder env order session w = (Ok (READY t b, order), w))
  /\ (forall order' w',
        alreadyFinalized order = None ->
        finalizePaidOrder env order session w = (Ok (READY t b, order'), w') ->
        finalizePaidOrder env' order' session' w' = (Ok (READY t b, order'), w')
        /\ orders w' !! _id order = Some order'
        /\ exists bk, bookings w' = (bookings w ++ [bk])%list
                      /\ bk_ticketId bk = t /\ bk_id bk = b).
Proof.
  split.
  - intros Ht Hne Hb. apply finalize_short_circuit.
    by apply alreadyFinalized_Some.
  - intros order' w' Hfin Hrun.
    destruct (finalize_READY_inv _ _ _ _ _ _ _ _ Hfin Hrun)
      as (seats & bk & _ & Ht & Hb & Hbt & _ & Ho & Hbs & _ & Hos).
    split_and!.
    + apply finalize_short_circuit. subst order' t b. reflexivity.
    + rewrite Hos. apply lookup_insert_eq.
    + exists bk. by subst b.
Qed.

(** C3 as stated fails on the second copy of the controller: when the
    Booking write fails there, the seats are released and the error is
    rethrown, but the order is neither set to FAILED nor saved; the stored
    order is still PENDING. *)
Lemma C3_second_copy_leaves_the_order_pending :
  let o := Sample.order (Some (Finite 1)) in
  let w := Sample.world Sample.three 2 [] o in
  let run := Variant.finalizePaidOrder (Sample.env true) o Sample.session w in
  fst run = Throw StoreFault
  /\ events (snd run) = events w
  /\ bookings (snd run) = bookings w
  /\ orders (snd run) = orders w
  /\ status <$> (orders (snd run) !! Sample.order_id) = Some PENDING
  /\ log (snd run) = [EventFindOneAndUpdate Sample.event_id 1;
                      BookingCreate Sample.ticket;
                      EventFindByIdAndUpdate Sample.event_id (- 1)].
Proof. intros o w run. split_and!; reflexivity. Qed.

(** C3, as the code has it. When the Booking write fails after the seats
    were reserved (with an exact sum, as for integer counts below [2^53]):
    - [finalizePaidOrder] of controllers/payment.controller.js issues the
      decrement by the order's quantity, so that the Event collection is
      what it was before the call, stores the order with status FAILED,
      writes no Booking and rethrows the error of the Booking write;
    - [finalizePaidOrder] of the second copy issues the same decrement and
      rethrows the same error, with no Booking written, but does not write
      the order: the Order collection is unchanged. *)
Theorem C3_booking_failure_is_compensated
    (env : Env) (order : Order) (w : World) (seats : Qc) (e : Event) :
  alreadyFinalized order = None ->
  Number_or_zero (quantity order) = Finite seats ->
  invalidSeats (Finite seats) = false ->
  isValidObjectId (eventId order) = true ->
  events w !! eventId order = Some e ->
  bookedSeats e + seats ≤ totalSeats e ->
  exact (bookedSeats e + seats) ->
  (forall session err,
     bookingFailure env
       (bookingInputOf order session seats (generateTicketId env))
       (bookings w) = Some err ->
     exists w',
       finalizePaidOrder env order session w = (Throw err, w')
       /\ events w' = events w
       /\ bookings w' = bookings w
       /\ orders w' = <[_id order := markFailed order session]> (orders w)
       /\ status (markFailed order session) = FAILED
       /\ log w' = (log w ++ [EventFindOneAndUpdate (eventId order) seats;
                              BookingCreate (generateTicketId env);
                              EventFindByIdAndUpdate (eventId order) (- seats);
                              OrderSave (_id order)])%list)
  /\ (forall session err,
       bookingFailure env
         (Variant.bookingInputOf order session seats (generateTicketId env))
         (bookings w) = Some err ->
       exists w',
         Variant.finalizePaidOrder env order session w = (Throw err, w')
         /\ events w' = events w
         /\ bookings w' = bookings w
         /\ orders w' = orders w
         /\ log w' = (log w ++ [EventFindOneAndUpdate (eventId order) seats;
                                BookingCreate (generateTicketId env);
                                EventFindByIdAndUpdate (eventId order) (- seats)])%list).
Proof.
  intros Hfin Hq Hinv Hv He Hcap _.
  pose proof (tryReserve_hit _ _ _ _ He Hcap) as Hres. split.
  - intros session err Herr. eexists. split.
    + by eapply finalize_compensates.
    + done.
  - intros session err Herr. eexists. split.
    + by eapply Variant_finalize_compensates.
    + done.
Qed.

Example finalize_sample_succeeds :
  fst (finalizePaidOrder (Sample.env false) (Sample.order (Some (Finite 1)))
         (Some Sample.session)
         (Sample.world Sample.three 0 [] (Sample.order (Some (Finite 1)))))
  = Ok (READY Sample.ticket Sample.booking_id,
        markPaid (Sample.order (Some (Finite 1))) (Some Sample.session)
          {| bk_id := Sample.booking_id; bk_user := Sample.user_id;
             bk_event := Sample.event_id; bk_name := "Ann";
             bk_email := "ann@example.org"; bk_seats := 1;
             bk_ticketId := Sample.ticket; bk_paymentStatus := "PAID";
             bk_stripeSessionId := Some "cs_test_1";
             bk_stripePaymentIntentId := Some "pi_1" |}
          Sample.ticket).
Proof. reflexivity. Qed.

Lemma C2_idempotent_witness :
  let o := Sample.order (Some (Finite 1)) in
  let w := Sample.world Sample.three 0 [] o in
  let run := finalizePaidOrder (Sample.env false) o (Some Sample.session) w in
  finalizePaidOrder (Sample.env false) Sample.finalized_order None w
  = (Ok (READY Sample.ticket Sample.booking_id, Sample.finalized_order), w)
  /\ finalizePaidOrder (Sample.env true) Sample.finalized_order
       (Some Sample.session) (snd run)
     = (Ok (READY Sample.ticket Sample.booking_id, Sample.finalized_order),
        snd run).
Proof.
  intros o w run. split.
  - apply (proj1 (C2_finalize_is_idempotent (Sample.env false) (Sample.env false)
                    Sample.finalized_order None None w
                    Sample.ticket Sample.booking_id));
      [reflexivity | discriminate | reflexivity].
  - apply (proj2 (C2_finalize_is_idempotent (Sample.env false) (Sample.env true)
                    o (Some Sample.session) (Some Sample.session) w
                    Sample.ticket Sample.booking_id)
             Sample.finalized_order (snd run));
      reflexivity.
Defined.

Lemma C3_compensation_witness :
  let o := Sample.order (Some (Finite 1)) in
  let w := Sample.world Sample.three 2 [] o in
  exists w',
    finalizePaidOrder (Sample.env true) o (Some Sample.session) w
    = (Throw StoreFault, w')
    /\ events w' = events w
    /\ bookings w' = bookings w
    /\ orders w' = <[_id o := markFailed o (Some Sample.session)]> (orders w)
    /\ status (markFailed o (Some Sample.session)) = FAILED
    /\ log w' = [EventFindOneAndUpdate Sample.event_id 1;
                 BookingCreate Sample.ticket;
                 EventFindByIdAndUpdate Sample.event_id (- 1);
                 OrderSave Sample.order_id].
Proof.
  intros o w.
  refine (proj1 (C3_booking_failure_is_compensated (Sample.env true) o w 1
                   {| totalSeats := Sample.three; bookedSeats := 2 |}
                   eq_refl eq_refl eq_refl eq_refl eq_refl _ eq_refl)
            (Some Sample.session) StoreFault eq_refl).
  by vm_compute.
Defined.

(** ** Ticket collisions and the Booking ledger's constraints *)




(** C5 as stated fails: two Bookings carrying the same [stripeSessionId]
    are both inserted. *)
Lemma C5_same_session_inserted_twice :
  let w := Sample.world Sample.three 0 [] (Sample.order None) in
  let first := Booking_create (Sample.env false)
                 (sample_input "TKT-1-AAAAAA" (Some "cs_test_1")) w in
  let second := Booking_create (Sample.env false)
                  (sample_input "TKT-2-BBBBBB" (Some "cs_test_1")) (snd first) in
  (exists b1, fst first = Ok b1 /\ bk_stripeSessionId b1 = Some "cs_test_1")
  /\ (exists b2, fst second = Ok b2 /\ bk_stripeSessionId b2 = Some "cs_test_1")
  /\ length (bookings (snd second)) = 2%nat.
Proof.
  intros w first second. split_and!.
  - eexists. split; reflexivity.
  - eexists. split; reflexivity.
  - reflexivity.
Qed.

(** C5, as the code has it: the ledger's only uniqueness constraint is on
    [ticketId]. After a Booking was inserted, a second insert with the
    same [ticketId] is rejected and leaves the ledger as it is (a
    duplicate-key error on [ticketId] when the input is otherwise
    acceptable), so at most one of two inserts with the same ticket
    succeeds; a second insert with another [ticketId] that is acceptable
    on its own succeeds whatever its [stripeSessionId] is, the same one
    included. *)
Theorem C5_uniqueness_is_on_ticketId_only
    (env1 env2 : Env) (i1 i2 : BookingInput) (w w1 : World) (b1 : Booking) :
  Booking_create env1 i1 w = (Ok b1, w1) ->
  (in_ticketId i2 = in_ticketId i1 ->
   exists err, fst (Booking_create env2 i2 w1) = Throw err
               /\ bookings (snd (Booking_create env2 i2 w1)) = bookings w1
               /\ (bookingFailure env2 i2 [] = None ->
                   err = DuplicateKey "ticketId"))
  /\ (in_ticketId i2 ≠ in_ticketId i1 ->
      bookingFailure env2 i2 (bookings w) = None ->
      exists b2, fst (Booking_create env2 i2 w1) = Ok b2
                 /\ bookings (snd (Booking_create env2 i2 w1))
                    = (bookings w ++ [b1; b2])%list
                 /\ bk_stripeSessionId b1 = in_stripeSessionId i1
                 /\ bk_stripeSessionId b2 = in_stripeSessionId i2).
Proof.
  intros Hrun1.
  destruct (bookingFailure env1 i1 (bookings w)) as [err1|] eqn:Hf1.
  { rewrite (Booking_create_throws _ _ _ _ Hf1) in Hrun1. discriminate. }
  destruct (Booking_create_ok _ _ _ Hf1) as (b & Hok & _ & Ht1 & _ & Hs1).
  rewrite Hok in Hrun1. injection Hrun1 as -> <-.
  assert (Hdup : forall t bs,
    existsb (fun b => String.eqb (bk_ticketId b) t) (bs ++ [b1])
    = existsb (fun b => String.eqb (bk_ticketId b) t) bs
      || String.eqb (in_ticketId i1) t).
  { intros t bs. rewrite existsb_app. simpl. by rewrite Ht1, orb_false_r. }
  split.
  - intros Heq.
    assert (exists err, bookingFailure env2 i2 (bookings w ++ [b1]) = Some err
                        /\ (bookingFailure env2 i2 [] = None ->
                            err = DuplicateKey "ticketId"))
      as (err & Herr & Hkind).
    { unfold bookingFailure. rewrite Hdup, Heq, String.eqb_refl, orb_true_r.
      simpl.
      destruct (in_user i2) as [u|]; [|by eexists].
      destruct (isValidObjectId u); simpl; [|by eexists].
      destruct (in_event i2) as [e|]; [|by eexists].
      destruct (isValidObjectId e); simpl; [|by eexists].
      destruct (Qc_ltb (in_seats i2) 1); [by eexists|].
      destruct (String.eqb (in_ticketId i1) ""); [by eexists|].
      destruct (ledgerFault env2); by eexists. }
    exists err.
    rewrite (Booking_create_throws env2 i2
               {| events := events w; bookings := (bookings w ++ [b1])%list;
                  orders := orders w;
                  log := (log w ++ [BookingCreate (in_ticketId i1)])%list |}
               err Herr).
    done.
  - intros Hne Hf2.
    assert (bookingFailure env2 i2 (bookings w ++ [b1]) = None) as Hf2'.
    { revert Hf2. unfold bookingFailure. rewrite Hdup.
      destruct (String.eqb_spec (in_ticketId i1) (in_ticketId i2)) as [E|_];
        [by destruct Hne|].
      by rewrite orb_false_r. }
    destruct (Booking_create_ok env2 i2
                {| events := events w; bookings := (bookings w ++ [b1])%list;
                   orders := orders w;
                   log := (log w ++ [BookingCreate (in_ticketId i1)])%list |}
                Hf2') as (b2 & Hok2 & _ & _ & _ & Hs2).
    exists b2. rewrite Hok2. simpl. split_and!; try done.
    by rewrite <- app_assoc.
Qed.

Lemma C5_uniqueness_witness :
  let w := Sample.world Sample.three 0 [] (Sample.order None) in
  let i1 := sample_input "TKT-1-AAAAAA" (Some "cs_test_1") in
  let i2 := sample_input "TKT-2-BBBBBB" (Some "cs_test_1") in
  let first := Booking_create (Sample.env false) i1 w in
  exists b1 b2,
    fst (Booking_create (Sample.env false) i2 (snd first)) = Ok b2
    /\ bookings (snd (Booking_create (Sample.env false) i2 (snd first)))
       = [b1; b2]
    /\ bk_stripeSessionId b1 = Some "cs_test_1"
    /\ bk_stripeSessionId b2 = Some "cs_test_1".
Proof.
  intros w i1 i2 first.
  exists {| bk_id := Sample.booking_id; bk_user := Sample.user_id;
            bk_event := Sample.event_id; bk_name := "Ann"; bk_email := "";
            bk_seats := 1; bk_ticketId := "TKT-1-AAAAAA";
            bk_paymentStatus := "PAID";
            bk_stripeSessionId := Some "cs_test_1";
            bk_stripePaymentIntentId := None |}.
  exact (proj2 (C5_uniqueness_is_on_ticketId_only (Sample.env false)
                  (Sample.env false) i1 i2 w (snd first) _ eq_refl)
           ltac:(discriminate) eq_refl).
Defined.

(** ** The quantity guard *)

(** [!seats || seats < 1] lets through exactly the numbers that are at
    least 1, integral or not. *)
Lemma invalidSeats_spec (v : option JsNumber) :
  invalidSeats (Number_or_zero v) = false
  <-> exists q, v = Some (Finite q) /\ 1 ≤ q.
Proof.
  destruct v as [[q|]|]; simpl.
  - destruct (Qc_eqb q 0) eqn:Hz; simpl.
    + apply Qc_eqb_eq in Hz as ->. split; [done|].
      intros (q & [= <-] & Hq). by vm_compute in Hq.
    + rewrite Hz. simpl. rewrite Qc_ltb_ge. split.
      * intros Hq. by exists q.
      * by intros (q' & [= <-] & Hq).
  - split; [done|]. by intros (q & [=] & _).
  - split; [done|]. by intros (q & [=] & _).
Qed.

(** C8 as stated fails: 2.5 is not a positive integer, yet an order for
    2.5 seats is finalized: 2.5 seats are reserved, a Booking for 2.5
    seats is written and the call returns READY. *)
Lemma C8_fractional_quantity_is_finalized :
  let o := Sample.order (Some (Finite Sample.five_halves)) in
  let w := Sample.world Sample.three 0 [] o in
  let run := finalizePaidOrder (Sample.env false) o (Some Sample.session) w in
  mustBeInt (Finite Sample.five_halves) = false
  /\ (exists o', fst run = Ok (READY Sample.ticket Sample.booking_id, o')
                 /\ status o' = PAID)
  /\ bookedSeats <$> (events (snd run) !! Sample.event_id)
     = Some Sample.five_halves
  /\ bk_seats <$> bookings (snd run) = [Sample.five_halves].
Proof.
  intros o w run. split_and!.
  - reflexivity.
  - eexists. split; reflexivity.
  - reflexivity.
  - reflexivity.
Qed.

Lemma Variant_finalize_invalid_seats (env : Env) (order : Order)
    (session : Session) (w : World) :
  alreadyFinalized order = None ->
  invalidSeats (Number_or_zero (quantity order)) = true ->
  Order_validate order = None ->
  Variant.finalizePaidOrder env order session w
  = (Ok (Variant.NOT_READY "Invalid seats.", set_status FAILED order),
     saved (set_status FAILED order) w [OrderSave (_id order)]).
Proof.
  intros Hfin Hinv Hok. unfold Variant.finalizePaidOrder. rewrite Hfin.
  destruct (Number_or_zero (quantity order)) as [q|]; [rewrite Hinv|];
    unfold bind; rewrite Order_save_run; done.
Qed.

Lemma Variant_finalize_invalid_rejected (env : Env) (order : Order)
    (session : Session) (w : World) (err : Error) :
  alreadyFinalized order = None ->
  invalidSeats (Number_or_zero (quantity order)) = true ->
  Order_validate order = Some err ->
  Variant.finalizePaidOrder env order session w
  = (Throw err,
     {| events := events w; bookings := bookings w; orders := orders w;
        log := (log w ++ [OrderSave (_id order)])%list |}).
Proof.
  intros Hfin Hinv Hbad. unfold Variant.finalizePaidOrder. rewrite Hfin.
  destruct (Number_or_zero (quantity order)) as [q|]; [rewrite Hinv|];
    unfold bind; by rewrite (Order_save_rejects _ _ err).
Qed.

(** C8, as the code has it, in both copies of the controller. For an
    order that is not finalized yet and carries its [eventId]:
    - a quantity that is a number below 1 (zero, negative, or a fraction
      below 1) makes finalize store the order as FAILED and return the
      failure "Invalid seats.", without any access to the Event collection
      or the Booking ledger;
    - a missing or non-numeric quantity fails the guard as well, but the
      order then does not pass the schema's validation of [quantity]:
      [order.save()] rejects, finalize throws the validation error and the
      Order collection is left as it is, so the stored order is not FAILED;
      the Event collection and the Booking ledger are not accessed;
    - a quantity of at least 1 passes the guard whether or not it is an
      integer. *)
Theorem C8_quantity_below_one_fails
    (env : Env) (order : Order) (session : option Session) (session2 : Session)
    (w : World) :
  alreadyFinalized order = None ->
  eventId order ≠ "" ->
  let run := finalizePaidOrder env order session w in
  let run2 := Variant.finalizePaidOrder env order session2 w in
  (forall q, quantity order = Some (Finite q) -> q < 1 ->
     fst run = Ok (NOT_READY "Invalid seats.", markFailed order session)
     /\ status (markFailed order session) = FAILED
     /\ orders (snd run) = <[_id order := markFailed order session]> (orders w)
     /\ fst run2 = Ok (Variant.NOT_READY "Invalid seats.", set_status FAILED order)
     /\ status (set_status FAILED order) = FAILED
     /\ orders (snd run2) = <[_id order := set_status FAILED order]> (orders w))
  /\ (quantity order = None \/ quantity order = Some NaN ->
      fst run = Throw (ValidationError "quantity")
      /\ orders (snd run) = orders w
      /\ fst run2 = Throw (ValidationError "quantity")
      /\ orders (snd run2) = orders w)
  /\ ((forall q, quantity order = Some (Finite q) -> q < 1) ->
      events (snd run) = events w /\ bookings (snd run) = bookings w
      /\ log (snd run) = (log w ++ [OrderSave (_id order)])%list
      /\ events (snd run2) = events w /\ bookings (snd run2) = bookings w
      /\ log (snd run2) = (log w ++ [OrderSave (_id order)])%list)
  /\ (forall q, quantity order = Some (Finite q) -> 1 ≤ q ->
      invalidSeats (Number_or_zero (quantity order)) = false).
Proof.
  intros Hfin Hev run run2.
  assert (truthy (Some (eventId order)) = true) as Htr.
  { simpl. by destruct (String.eqb_spec (eventId order) ""). }
  assert ((forall q, quantity order = Some (Finite q) -> q < 1) ->
          invalidSeats (Number_or_zero (quantity order)) = true) as Hguard.
  { intros Hq.
    destruct (invalidSeats (Number_or_zero (quantity order))) eqn:Hinv; [done|].
    apply invalidSeats_spec in Hinv as (q & Hv & Hq1).
    apply Hq in Hv. by apply Qclt_not_le in Hv. }
  assert (forall q, quantity order = Some (Finite q) -> q < 1 ->
          run = (Ok (NOT_READY "Invalid seats.", markFailed order session),
                 saved (markFailed order session) w [OrderSave (_id order)])
          /\ run2 = (Ok (Variant.NOT_READY "Invalid seats.", set_status FAILED order),
                     saved (set_status FAILED order) w [OrderSave (_id order)]))
    as Hnum.
  { intros q Hq Hlt.
    assert (invalidSeats (Number_or_zero (quantity order)) = true) as Hinv.
    { apply Hguard. intros q' Hq'. rewrite Hq in Hq'. by injection Hq' as <-. }
    pose proof (Order_validate_ok order q Htr Hq) as Hok.
    split.
    - by apply finalize_invalid_seats.
    - by apply Variant_finalize_invalid_seats. }
  assert (quantity order = None \/ quantity order = Some NaN ->
          run = (Throw (ValidationError "quantity"),
                 {| events := events w; bookings := bookings w;
                    orders := orders w;
                    log := (log w ++ [OrderSave (_id order)])%list |})
          /\ run2 = (Throw (ValidationError "quantity"),
                     {| events := events w; bookings := bookings w;
                        orders := orders w;
                        log := (log w ++ [OrderSave (_id order)])%list |}))
    as Hnone.
  { intros Hq.
    assert (invalidSeats (Number_or_zero (quantity order)) = true) as Hinv.
    { apply Hguard. intros q' Hq'. destruct Hq as [Hq|Hq]; congruence. }
    assert (Order_validate order = Some (ValidationError "quantity")) as Hbad.
    { unfold Order_validate. rewrite Htr. by destruct Hq as [-> | ->]. }
    split.
    - by apply finalize_invalid_rejected.
    - by apply Variant_finalize_invalid_rejected. }
  split_and!.
  - intros q Hq Hlt. destruct (Hnum q Hq Hlt) as [-> ->]. done.
  - intros Hq. destruct (Hnone Hq) as [-> ->]. done.
  - intros Hq. destruct (quantity order) as [[q|]|] eqn:Hqo.
    + destruct (Hnum q eq_refl (Hq q eq_refl)) as [-> ->]. done.
    + destruct (Hnone (or_intror eq_refl)) as [-> ->]. done.
    + destruct (Hnone (or_introl eq_refl)) as [-> ->]. done.
  - intros q Hq H1. apply invalidSeats_spec. by exists q.
Qed.

Lemma C8_guard_witness :
  let o := Sample.order (Some (Finite 0)) in
  let w := Sample.world Sample.three 0 [] o in
  fst (finalizePaidOrder (Sample.env false) o (Some Sample.session) w)
  = Ok (NOT_READY "Invalid seats.", markFailed o (Some Sample.session)).
Proof.
  intros o w.
  refine (proj1 (proj1 (C8_quantity_below_one_fails (Sample.env false) o
                          (Some Sample.session) Sample.session w eq_refl _)
                   0 eq_refl _)).
  - discriminate.
  - reflexivity.
Defined.

(** ** The two completion triggers *)

(** A call on an order that is not finalized yet always reaches a store:
    its first logged call is the order save of the quantity guard or the
    conditional seat update. *)
Lemma finalize_unfinalized_acts (env : Env) (order : Order)
    (session : option Session) (w : World) :
  alreadyFinalized order = None ->
  exists x l, log (snd (finalizePaidOrder env order session w))
              = (log w ++ x :: l)%list.
Proof.
  intros Hfin.
  destruct (invalidSeats (Number_or_zero (quantity order))) eqn:Hinv.
  { destruct (Order_validate order) as [err|] eqn:Hval.
    - rewrite (finalize_invalid_rejected _ _ _ _ err) by done. by eexists _, _.
    - rewrite finalize_invalid_seats by done. by eexists _, _. }
  destruct (Number_or_zero (quantity order)) as [seats|] eqn:Hq; [|done].
  destruct (isValidObjectId (eventId order)) eqn:Hv.
  2:{ rewrite (finalize_cast_error _ _ _ _ _ Hfin Hq Hinv Hv). by eexists _, _. }
  destruct (tryReserve (eventId order) seats (events w)) as [[e'|] evs'] eqn:Hres.
  2:{ rewrite (finalize_no_capacity _ _ _ _ _ Hfin Hq Hinv Hv)
        by (by rewrite Hres).
      by eexists _, _. }
  destruct (bookingFailure env
              (bookingInputOf order session seats (generateTicketId env))
              (bookings w)) as [err|] eqn:Hb.
  - rewrite (finalize_compensates _ _ _ _ _ _ _ _ Hfin Hq Hinv Hv Hres Hb).
    by eexists _, _.
  - destruct (finalize_success _ _ _ _ _ _ _ Hfin Hq Hinv Hv Hres Hb)
      as (bk & -> & _).
    by eexists _, _.
Qed.

(** C9: on a verified [checkout.session.expired] event the webhook never
    touches the Event collection or the Booking ledger. If the event names
    a stored order (one that passes the schema's validation, as every
    order the handlers create does), the handler answers
    [{ received: true }] and
    - when the order's status is PENDING, the order is stored again with
      status EXPIRED and every other field as it was, and no other order
      changes;
    - when its status is anything else, the Order collection is left
      exactly as it is, so the order keeps its status.
    If the event names no stored order, the Order collection is left as it
    is. *)
Theorem C9_expired_event_only_expires_pending
    (env : Env) (event : StripeEvent) (w : World) :
  ev_type event = "checkout.session.expired" ->
  let run := stripeWebhook env (inr event) w in
  events (snd run) = events w
  /\ bookings (snd run) = bookings w
  /\ (forall oid o,
        meta_orderId (data_object event) = Some oid ->
        isValidObjectId oid = true ->
        orders w !! oid = Some o -> _id o = oid ->
        Order_validate o = None ->
        fst run = Ok Webhook_received
        /\ (status o = PENDING ->
            (exists o',
               orders (snd run) !! oid = Some o'
               /\ status o' = EXPIRED
               /\ _id o' = _id o /\ userId o' = userId o
               /\ eventId o' = eventId o /\ name o' = name o
               /\ email o' = email o /\ quantity o' = quantity o
               /\ paymentStatus o' = paymentStatus o
               /\ stripeSessionId o' = stripeSessionId o
               /\ stripePaymentIntentId o' = stripePaymentIntentId o
               /\ bookingId o' = bookingId o /\ ticketId o' = ticketId o)
            /\ (forall k, k ≠ oid -> orders (snd run) !! k = orders w !! k))
        /\ (status o ≠ PENDING ->
            orders (snd run) = orders w
            /\ status <$> (orders (snd run) !! oid) = Some (status o)))
  /\ ((forall oid, meta_orderId (data_object event) = Some oid ->
                   orders w !! oid = None) ->
      orders (snd run) = orders w).
Proof.
  intros Hty run. subst run.
  unfold stripeWebhook, try_catch, bind. rewrite Hty.
  change (String.eqb "checkout.session.expired" "checkout.session.completed")
    with false.
  change (String.eqb "checkout.session.expired" "checkout.session.expired")
    with true.
  cbv iota. unfold ret at 1.
  unfold webhookExpired, Order_findById, bind, tell, throw, get_orders, ret.
  destruct (meta_orderId (data_object event)) as [oid|] eqn:Hoid; simpl.
  2:{ split_and!; try done. }
  destruct (String.eqb_spec oid "") as [->|Hne]; simpl.
  { split_and!; try done. intros ? ? [= <-] Hv. discriminate Hv. }
  destruct (isValidObjectId oid) eqn:Hv; simpl.
  2:{ split_and!; try done. intros ? ? [= <-]. congruence. }
  destruct (orders w !! oid) as [o|] eqn:Ho; simpl.
  2:{ split_and!; try done. intros ? ? [= <-]. congruence. }
  destruct (decide (status o = PENDING)) as [Hp|Hp].
  - rewrite bool_decide_eq_true_2 by done.
    destruct (Order_validate (set_status EXPIRED o)) as [err|] eqn:Hval.
    + rewrite (Order_save_rejects _ _ err Hval). simpl.
      split_and!; try done.
      intros oid' o' [= <-] _ Ho' Hid Hok. rewrite Ho in Ho'.
      injection Ho' as <-.
      rewrite (Order_validate_same o (set_status EXPIRED o)) in Hval by done.
      congruence.
    + rewrite (Order_save_run _ _ Hval). simpl.
      split_and!; try done.
      * intros oid' o' [= <-] _ Ho' Hid Hok. rewrite Ho in Ho'.
        injection Ho' as <-. split; [done|]. split; [|done].
        intros _. rewrite Hid. split.
        -- exists (set_status EXPIRED o). rewrite lookup_insert_eq.
           split_and!; done.
        -- intros k Hk. by rewrite lookup_insert_ne.
      * intros Hnone. specialize (Hnone oid eq_refl). congruence.
  - rewrite bool_decide_eq_false_2 by done. simpl.
    split_and!; try done.
    intros oid' o' [= <-] _ Ho' Hid Hok. rewrite Ho in Ho'.
    injection Ho' as <-. split; [done|]. split; [done|].
    intros _. split; [done|]. by rewrite Ho.
Qed.

Lemma C9_expired_witness :
  let o := Sample.order (Some (Finite 1)) in
  let w := Sample.world Sample.three 0 [] o in
  let event := {| ev_type := "checkout.session.expired";
                  data_object := Sample.session |} in
  exists o',
    orders (snd (stripeWebhook (Sample.env false) (inr event) w))
      !! Sample.order_id = Some o'
    /\ status o' = EXPIRED.
Proof.
  intros o w event.
  destruct (proj2 (proj2 (C9_expired_event_only_expires_pending
                            (Sample.env false) event w eq_refl)))
    as [H _].
  destruct (H Sample.order_id o eq_refl eq_refl eq_refl eq_refl eq_refl)
    as (_ & Hp & _).
  destruct (Hp eq_refl) as [(o' & Ho' & Hs & _) _].
  by exists o'.
Defined.

Example expired_event_on_sample_order :
  let o := Sample.order (Some (Finite 1)) in
  let w := Sample.world Sample.three 0 [] o in
  let event := {| ev_type := "checkout.session.expired";
                  data_object := Sample.session |} in
  status <$> (orders (snd (stripeWebhook (Sample.env false) (inr event) w))
              !! Sample.order_id) = Some EXPIRED.
Proof. reflexivity. Qed.

(** The lookup by session finds a stored order when it is the only one
    carrying that session id. *)
Lemma Order_findOne_unique (sessionId k : string) (o : Order) (w : World) :
  orders w !! k = Some o ->
  stripeSessionId o = Some sessionId ->
  (forall k' o', orders w !! k' = Some o' ->
                 stripeSessionId o' = Some sessionId -> o' = o) ->
  fst (Order_findOne sessionId w) = Ok (Some o).
Proof.
  intros Hk Hs Huniq. unfold Order_findOne, bind, tell, get_orders, ret. simpl.
  destruct (List.find _ (map_to_list (orders w))) as [[k' o']|] eqn:Hfind; simpl.
  - apply find_some in Hfind as [Hin Hp]. simpl in Hp.
    apply bool_decide_eq_true in Hp.
    apply list_elem_of_In, elem_of_map_to_list in Hin.
    by rewrite (Huniq k' o' Hin Hp).
  - exfalso.
    eapply find_none in Hfind; [|apply list_elem_of_In, elem_of_map_to_list, Hk].
    simpl in Hfind. by rewrite bool_decide_eq_true_2 in Hfind.
Qed.

(** C10: the poll handler decides "ready" on [ticketId] alone. When the
    order found for the session has a [ticketId], the response is READY
    with that [ticketId] (and the order's [bookingId], null included); the
    only call made is the order lookup, so the payment provider is not
    contacted, finalizePaidOrder is not run, and no collection changes.
    [finalizePaidOrder] itself asks for both identifiers: on the same
    order with [bookingId] still null it does not return early but goes on
    to a store call. *)
Theorem C10_poll_ready_on_ticketId_alone
    (env : Env) (provider : string -> option Session) (sessionId : string)
    (w : World) (o : Order) (t : string) :
  fst (Order_findOne sessionId w) = Ok (Some o) ->
  ticketId o = Some t -> t ≠ "" ->
  let run := getStripeResultBySession env provider sessionId w in
  fst run = Ok (Poll_READY t (bookingId o))
  /\ events (snd run) = events w
  /\ bookings (snd run) = bookings w
  /\ orders (snd run) = orders w
  /\ log (snd run) = (log w ++ [OrderFindOne sessionId])%list
  /\ (bookingId o = None ->
      forall session,
        alreadyFinalized o = None
        /\ exists x l, log (snd (finalizePaidOrder env o session w))
                       = (log w ++ x :: l)%list).
Proof.
  intros Hfind Ht Hne run. subst run.
  unfold getStripeResultBySession, try_catch, bind at 1.
  unfold Order_findOne, bind, tell, get_orders, ret in Hfind |- *.
  simpl in Hfind |- *. injection Hfind as Hfind. rewrite Hfind, Ht. simpl.
  destruct (String.eqb_spec t "") as [|_]; [contradiction|]. simpl.
  split_and!; try done.
  intros Hb session. split; [by apply alreadyFinalized_no_booking|].
  apply finalize_unfinalized_acts. by apply alreadyFinalized_no_booking.
Qed.

Lemma C10_poll_witness :
  let w := Sample.world Sample.three 1 [] half_resolved_order in
  let run := getStripeResultBySession (Sample.env false) (fun _ => None)
               "cs_test_1" w in
  fst run = Ok (Poll_READY Sample.ticket None)
  /\ log (snd run) = [OrderFindOne "cs_test_1"].
Proof.
  intros w run.
  destruct (C10_poll_ready_on_ticketId_alone (Sample.env false)
              (fun _ => None) "cs_test_1" w half_resolved_order Sample.ticket
              eq_refl eq_refl ltac:(discriminate))
    as (Hr & _ & _ & _ & Hl & _).
  split; [exact Hr | exact Hl].
Defined.

(** On that half-resolved order [finalizePaidOrder] reserves again. *)
Example finalize_on_half_resolved_order :
  let w := Sample.world Sample.three 1 [] half_resolved_order in
  log (snd (finalizePaidOrder (Sample.env false) half_resolved_order
              (Some Sample.session) w))
  = [EventFindOneAndUpdate Sample.event_id 1;
     BookingCreate Sample.ticket;
     OrderSave Sample.order_id].
Proof. reflexivity. Qed.

(** ** The seat-count bounds *)

Lemma inventory_ok_insert (id : string) (e : Event) (evs : gmap string Event) :
  inventory_ok evs -> seats_ok e -> inventory_ok (<[id := e]> evs).
Proof. intros Hevs He. by apply map_Forall_insert_2. Qed.

Lemma tryReserve_keeps_bounds (id : string) (s : Qc) (evs : gmap string Event) :
  0 ≤ s -> inventory_ok evs -> inventory_ok (snd (tryReserve id s evs)).
Proof.
  intros Hs Hevs.
  destruct (tryReserve id s evs) as [[e'|] evs'] eqn:Hres; simpl.
  - apply tryReserve_Some_inv in Hres as (e & Hid & Hcap & -> & ->).
    apply inventory_ok_insert; [done|]. split; simpl; [|done].
    apply Qcplus_nonneg_nonneg; [|done]. by destruct (Hevs id e Hid).
  - by apply tryReserve_None_inv in Hres as ->.
Qed.

Lemma invalidSeats_false_ge (q : Qc) : invalidSeats (Finite q) = false -> 1 ≤ q.
Proof.
  simpl. intros H. apply orb_false_iff in H as [_ H]. by apply Qc_ltb_ge.
Qed.

Lemma Qc_zero_le_one : (0 : Qc) ≤ 1.
Proof. by vm_compute. Qed.

Lemma preSave_keeps_bounds (doc : Event) :
  Event_validate doc = true -> seats_ok (preSave doc).
Proof.
  unfold Event_validate, preSave, seats_ok.
  intros [Ht Hb%Qc_leb_le]%andb_true_iff. apply Qc_leb_le in Ht.
  assert (0 ≤ totalSeats doc) as Ht0 by (by trans (1 : Qc); [apply Qc_zero_le_one|]).
  destruct (Qc_ltb (totalSeats doc) (bookedSeats doc)) eqn:Hover; simpl.
  - destruct (Qc_ltb (totalSeats doc) 0) eqn:Hneg; simpl; [done|].
    split; [done|]. apply Qcle_refl.
  - apply Qc_ltb_ge in Hover.
    destruct (Qc_ltb (bookedSeats doc) 0) eqn:Hneg; simpl; done.
Qed.

Lemma Event_save_keeps_bounds (id : string) (doc : Event) (w : World) :
  inventory_ok (events w) -> inventory_ok (events (snd (Event_save id doc w))).
Proof.
  intros Hw. unfold Event_save, bind, tell, get_events, put_events, ret, throw.
  simpl. destruct (Event_validate doc) eqn:Hval; simpl; [|done].
  apply inventory_ok_insert; [done|]. by apply preSave_keeps_bounds.
Qed.

Lemma finalize_keeps_bounds (env : Env) (order : Order)
    (session : option Session) (w : World) :
  inventory_ok (events w) ->
  inventory_ok (events (snd (finalizePaidOrder env order session w))).
Proof.
  intros Hw.
  destruct (alreadyFinalized order) as [[t b]|] eqn:Hfin.
  { by rewrite (finalize_short_circuit _ _ _ _ _ _ Hfin). }
  destruct (invalidSeats (Number_or_zero (quantity order))) eqn:Hinv.
  { destruct (Order_validate order) as [verr|] eqn:Hval.
    - by rewrite (finalize_invalid_rejected _ _ _ _ verr).
    - by rewrite finalize_invalid_seats. }
  destruct (Number_or_zero (quantity order)) as [seats|] eqn:Hq; [|done].
  destruct (isValidObjectId (eventId order)) eqn:Hv.
  2:{ by rewrite (finalize_cast_error _ _ _ _ _ Hfin Hq Hinv Hv). }
  destruct (tryReserve (eventId order) seats (events w)) as [[e'|] evs'] eqn:Hres.
  2:{ rewrite (finalize_no_capacity _ _ _ _ _ Hfin Hq Hinv Hv)
        by (by rewrite Hres).
      done. }
  destruct (bookingFailure env
              (bookingInputOf order session seats (generateTicketId env))
              (bookings w)) as [err|] eqn:Hb.
  - by rewrite (finalize_compensates _ _ _ _ _ _ _ _ Hfin Hq Hinv Hv Hres Hb).
  - destruct (finalize_success _ _ _ _ _ _ _ Hfin Hq Hinv Hv Hres Hb)
      as (bk & -> & _).
    simpl. replace evs' with (snd (tryReserve (eventId order) seats (events w)))
      by (by rewrite Hres).
    apply tryReserve_keeps_bounds; [|done].
    trans (1 : Qc); [apply Qc_zero_le_one|by apply invalidSeats_false_ge].
Qed.

Example bookSeats_reads_then_saves :
  let w := Sample.world Sample.three 0 [] (Sample.order None) in
  let run := bookSeats Sample.event_id (Finite 1) w in
  fst run = Ok (Book_200 1 2)
  /\ log (snd run) = [EventFindById Sample.event_id; EventSave Sample.event_id].
Proof. split; reflexivity. Qed.

(** *** Bounds through the monad *)

Lemma keeps_ret {A} (a : A) : keeps_bounds (ret a).
Proof. by intros w Hw. Qed.

Lemma keeps_throw {A} (e : Error) : keeps_bounds (@throw A e).
Proof. by intros w Hw. Qed.

Lemma keeps_tell (x : Effect) : keeps_bounds (tell x).
Proof. by intros w Hw. Qed.

Lemma keeps_get_orders : keeps_bounds get_orders.
Proof. by intros w Hw. Qed.

Lemma keeps_put_orders (os : gmap string Order) : keeps_bounds (put_orders os).
Proof. by intros w Hw. Qed.

Lemma keeps_bind {A B} (m : M A) (k : A -> M B) :
  keeps_bounds m -> (forall a, keeps_bounds (k a)) -> keeps_bounds (bind m k).
Proof.
  intros Hm Hk w Hw. unfold bind. specialize (Hm w Hw).
  destruct (m w) as [[a|e] w']; simpl in *; [by apply Hk|done].
Qed.

Lemma keeps_try_catch {A} (body : M A) (handler : Error -> M A) :
  keeps_bounds body -> (forall e, keeps_bounds (handler e)) ->
  keeps_bounds (try_catch body handler).
Proof.
  intros Hb Hh w Hw. unfold try_catch. specialize (Hb w Hw).
  destruct (body w) as [[a|e] w']; simpl in *; [done|by apply Hh].
Qed.

Lemma keeps_finalize (env : Env) (order : Order) (session : option Session) :
  keeps_bounds (finalizePaidOrder env order session).
Proof. intros w Hw. by apply finalize_keeps_bounds. Qed.

#[local] Hint Resolve keeps_ret keeps_throw keeps_tell keeps_get_orders
  keeps_put_orders keeps_finalize : bounds.

Ltac keeps_step :=
  match goal with
  | |- keeps_bounds (bind _ _) => apply keeps_bind; [|intros ?]
  | |- keeps_bounds (try_catch _ _) => apply keeps_try_catch; [|intros ?]
  | |- keeps_bounds (match ?x with _ => _ end) => destruct x
  | |- keeps_bounds _ => solve [auto with bounds]
  end.

Lemma keeps_Order_save (o : Order) : keeps_bounds (Order_save o).
Proof. unfold Order_save. repeat keeps_step. Qed.

Lemma keeps_Order_findById (id : string) : keeps_bounds (Order_findById id).
Proof. unfold Order_findById. repeat keeps_step. Qed.

Lemma keeps_Order_findOne (session : string) : keeps_bounds (Order_findOne session).
Proof. unfold Order_findOne. repeat keeps_step. Qed.

Lemma keeps_stripe_retrieve (provider : string -> option Session) (sid : string) :
  keeps_bounds (stripe_retrieve provider sid).
Proof. unfold stripe_retrieve. repeat keeps_step. Qed.

#[local] Hint Resolve keeps_Order_save keeps_Order_findById keeps_Order_findOne
  keeps_stripe_retrieve : bounds.

Lemma keeps_getStripeResultBySession (env : Env)
    (provider : string -> option Session) (sid : string) :
  keeps_bounds (getStripeResultBySession env provider sid).
Proof.
  unfold getStripeResultBySession, pollUnresolved. repeat keeps_step.
Qed.

Lemma keeps_stripeWebhook (env : Env) (constructed : string + StripeEvent) :
  keeps_bounds (stripeWebhook env constructed).
Proof.
  unfold stripeWebhook, webhookCompleted, webhookExpired. repeat keeps_step.
Qed.

Lemma keeps_get_events : keeps_bounds get_events.
Proof. by intros w Hw. Qed.

Lemma keeps_Event_save (id : string) (doc : Event) : keeps_bounds (Event_save id doc).
Proof. intros w Hw. by apply Event_save_keeps_bounds. Qed.

#[local] Hint Resolve keeps_get_events keeps_Event_save : bounds.

Lemma keeps_Event_findById (id : string) : keeps_bounds (Event_findById id).
Proof. unfold Event_findById. repeat keeps_step. Qed.

#[local] Hint Resolve keeps_Event_findById : bounds.

Lemma keeps_adminUpdateEvent (id : string) (t : option JsNumber) :
  keeps_bounds (adminUpdateEvent id t).
Proof. unfold adminUpdateEvent. repeat (keeps_step || cbv zeta). Qed.

Lemma keeps_updateEvent (id : string) (t : option JsNumber) :
  keeps_bounds (updateEvent id t).
Proof. unfold updateEvent. repeat keeps_step. Qed.

(** The check-then-save seat booking of event.controller.js keeps the
    bounds when it runs on its own; what it writes goes through a document
    save after a separate read. *)
Lemma keeps_bookSeats (id : string) (seats : JsNumber) :
  keeps_bounds (bookSeats id seats).
Proof. unfold bookSeats. repeat (keeps_step || cbv zeta). Qed.

(** Two seat bookings of event.controller.js whose reads both come before
    either save: each is told its seat was booked, and the last seat of the
    event was sold twice while the counter shows 1. *)
Example interleaved_bookSeats_sell_a_seat_twice :
  let w := Sample.world 1 0 [] (Sample.order None) in
  let read1 := Event_findById Sample.event_id w in
  let read2 := Event_findById Sample.event_id (snd read1) in
  let save1 := Event_save Sample.event_id {| totalSeats := 1; bookedSeats := 0 + 1 |}
                 (snd read2) in
  let save2 := Event_save Sample.event_id {| totalSeats := 1; bookedSeats := 0 + 1 |}
                 (snd save1) in
  fst read1 = Ok (Some {| totalSeats := 1; bookedSeats := 0 |})
  /\ fst read2 = Ok (Some {| totalSeats := 1; bookedSeats := 0 |})
  /\ (exists e1, fst save1 = Ok e1 /\ bookedSeats e1 = 1)
  /\ (exists e2, fst save2 = Ok e2 /\ bookedSeats e2 = 1)
  /\ bookedSeats <$> (events (snd save2) !! Sample.event_id) = Some 1.
Proof.
  intros. split_and!; try reflexivity; eexists; split; reflexivity.
Qed.

(** A rollback that runs after an event update lowered [totalSeats] (and
    clamped [bookedSeats]) in between: the counter ends below zero. *)
Example release_after_clamp_goes_below_zero :
  let w := Sample.world Sample.three 0 [] (Sample.order None) in
  let reserved := snd (reserveSeats Sample.event_id Sample.three w) in
  let clamped := snd (adminUpdateEvent Sample.event_id (Some (Finite 1)) reserved) in
  let released := snd (releaseSeats Sample.event_id Sample.three clamped) in
  bookedSeats <$> (events reserved !! Sample.event_id) = Some Sample.three
  /\ bookedSeats <$> (events clamped !! Sample.event_id) = Some 1
  /\ bookedSeats <$> (events released !! Sample.event_id) = Some (- 2).
Proof. intros. split_and!; reflexivity. Qed.

(** C4 as stated fails: [bookedSeats] is also rewritten outside the
    conditional increment and its release. Lowering [totalSeats] of an
    event with 3 of 3 seats booked to 2 makes the event update read the
    document, clamp [bookedSeats] from 3 to 2 (the [pre('save')] hook in
    event.controller.js's update, the explicit clamp in the admin route)
    and save it: a read followed by a write, with no conditional update in
    the log. *)
Lemma C4_bookedSeats_rewritten_by_save :
  let w := Sample.world Sample.three Sample.three [] (Sample.order None) in
  let run := updateEvent Sample.event_id (Some (Finite 2)) w in
  let run' := adminUpdateEvent Sample.event_id (Some (Finite 2)) w in
  bookedSeats <$> (events w !! Sample.event_id) = Some Sample.three
  /\ bookedSeats <$> (events (snd run) !! Sample.event_id) = Some 2
  /\ log (snd run) = [EventFindById Sample.event_id; EventSave Sample.event_id]
  /\ bookedSeats <$> (events (snd run') !! Sample.event_id) = Some 2
  /\ log (snd run') = [EventFindById Sample.event_id; EventSave Sample.event_id].
Proof. intros w run run'. split_and!; reflexivity. Qed.

(** C4, as the code has it: starting from an Event collection in which
    every event has [0 <= bookedSeats <= totalSeats], each of these
    operations, run to its end, leaves such a collection: the conditional
    seat increment (for a non-negative count), [finalizePaidOrder] on any
    order (its compensating decrement included) and the two triggers that
    call it, any Event document save (validators and [pre('save')] clamp),
    and the two event updates that may lower [totalSeats]. Reservations in the payment path go through
    the conditional increment; document saves rewrite [bookedSeats] as
    well. *)
Theorem C4_seat_bounds_are_preserved (w : World) :
  inventory_ok (events w) ->
  (forall id s, 0 ≤ s -> inventory_ok (events (snd (reserveSeats id s w))))
  /\ (forall env order session,
        inventory_ok (events (snd (finalizePaidOrder env order session w))))
  /\ (forall env provider sid,
        inventory_ok (events (snd (getStripeResultBySession env provider sid w))))
  /\ (forall env constructed,
        inventory_ok (events (snd (stripeWebhook env constructed w))))
  /\ (forall id doc, inventory_ok (events (snd (Event_save id doc w))))
  /\ (forall id t, inventory_ok (events (snd (adminUpdateEvent id t w))))
  /\ (forall id t, inventory_ok (events (snd (updateEvent id t w)))).
Proof.
  intros Hw. split_and!.
  - intros id s Hs. destruct (isValidObjectId id) eqn:Hv.
    + rewrite (reserveSeats_run _ _ _ Hv). simpl.
      by apply tryReserve_keeps_bounds.
    + by rewrite (reserveSeats_invalid _ _ _ Hv).
  - intros. by apply finalize_keeps_bounds.
  - intros. by apply keeps_getStripeResultBySession.
  - intros. by apply keeps_stripeWebhook.
  - intros. by apply Event_save_keeps_bounds.
  - intros. by apply keeps_adminUpdateEvent.
  - intros. by apply keeps_updateEvent.
Qed.

Lemma C4_bounds_witness :
  let w := Sample.world Sample.three 2 [] (Sample.order (Some (Finite 1))) in
  inventory_ok (events (snd (finalizePaidOrder (Sample.env false)
                               (Sample.order (Some (Finite 1)))
                               (Some Sample.session) w))).
Proof.
  intros w.
  refine (proj1 (proj2 (C4_seat_bounds_are_preserved w _)) _ _ _).
  apply map_Forall_singleton. split; by vm_compute.
Defined.

(** In the second copy a failed Booking write is compensated on the seat
    count (the Event collection is what it was before the call when the
    reserved sum is exact) and rethrown, but the order is not written: it
    keeps the status it had. *)
Lemma Variant_booking_failure_releases_only
    (env : Env) (order : Order) (session : Session) (w : World)
    (seats : Qc) (e : Event) (err : Error) :
  alreadyFinalized order = None ->
  Number_or_zero (quantity order) = Finite seats ->
  invalidSeats (Finite seats) = false ->
  isValidObjectId (eventId order) = true ->
  events w !! eventId order = Some e ->
  bookedSeats e + seats ≤ totalSeats e ->
  exact (bookedSeats e + seats) ->
  bookingFailure env
    (Variant.bookingInputOf order session seats (generateTicketId env))
    (bookings w) = Some err ->
  Variant.finalizePaidOrder env order session w
  = (Throw err,
     {| events := events w; bookings := bookings w; orders := orders w;
        log := (log w ++ [EventFindOneAndUpdate (eventId order) seats;
                          BookingCreate (generateTicketId env);
                          EventFindByIdAndUpdate (eventId order) (- seats)])%list |}).
Proof.
  intros Hfin Hq Hinv Hv He Hcap _ Herr.
  pose proof (tryReserve_hit _ _ _ _ He Hcap) as Hres.
  by eapply Variant_finalize_compensates.
Qed.

(** * Further properties of the modelled code *)

(** ** Finalization, path by path *)

Lemma guard_passes (q : Qc) :
  1 ≤ q ->
  Number_or_zero (Some (Finite q)) = Finite q /\ invalidSeats (Finite q) = false.
Proof.
  intros Hq.
  assert (Qc_eqb q 0 = false) as Hz.
  { destruct (Qc_eqb q 0) eqn:E; [|done]. apply Qc_eqb_eq in E as ->.
    by vm_compute in Hq. }
  simpl. rewrite Hz. split; [done|]. simpl. by apply Qc_ltb_ge.
Qed.

Lemma Booking_create_inserts (env : Env) (i : BookingInput) (w : World) :
  bookingFailure env i (bookings w) = None ->
  Booking_create env i w
  = (Ok (bookingOf env i),
     {| events := events w; bookings := (bookings w ++ [bookingOf env i])%list;
        orders := orders w;
        log := (log w ++ [BookingCreate (in_ticketId i)])%list |}).
Proof.
  unfold bookingFailure, Booking_create, castObjectId, bind, tell, throw, ret,
    get_bookings, put_bookings, bookingOf.
  simpl.
  destruct (in_user i) as [u|]; [|done].
  destruct (isValidObjectId u); simpl; [|done].
  destruct (in_event i) as [e|]; [|done].
  destruct (isValidObjectId e); simpl; [|done].
  destruct (Qc_ltb (in_seats i) 1); simpl; [done|].
  destruct (String.eqb (in_ticketId i) ""); simpl; [done|].
  destruct (ledgerFault env); simpl; [done|].
  destruct (existsb _ (bookings w)); simpl; done.
Qed.

Lemma bookingInputOf_event (order : Order) (session : option Session)
    (seats : Qc) (ticket : string) :
  in_event (bookingInputOf order session seats ticket) = Some (eventId order).
Proof.
  unfold bookingInputOf, in_event, js_or, toObjectIdOrNull.
  destruct (truthy (Some (eventId order)) && isValidObjectId (eventId order));
    [|done].
  by destruct (truthy (Some (eventId order))).
Qed.


Lemma finalize_success_exact (env : Env) (order : Order) (session : option Session)
    (w : World) (seats : Qc) (e : Event) :
  alreadyFinalized order = None ->
  Number_or_zero (quantity order) = Finite seats ->
  invalidSeats (Finite seats) = false ->
  isValidObjectId (eventId order) = true ->
  events w !! eventId order = Some e ->
  bookedSeats e + seats ≤ totalSeats e ->
  bookingFailure env (bookingInputOf order session seats (generateTicketId env))
    (bookings w) = None ->
  let bk := bookingOf env (bookingInputOf order session seats (generateTicketId env)) in
  finalizePaidOrder env order session w
  = (Ok (READY (generateTicketId env) (newBookingId env),
         markPaid order session bk (generateTicketId env)),
     {| events := <[eventId order := inc_bookedSeats seats e]> (events w);
        bookings := (bookings w ++ [bk])%list;
        orders := <[_id order := markPaid order session bk (generateTicketId env)]>
                    (orders w);
        log := (log w ++ [EventFindOneAndUpdate (eventId order) seats;
                          BookingCreate (generateTicketId env);
                          OrderSave (_id order)])%list |}).
Proof.
  intros Hfin Hq Hinv Hv He Hcap Hok bk. unfold finalizePaidOrder.
  rewrite Hfin, Hq, Hinv. unfold bind at 1. rewrite (reserveSeats_run _ _ _ Hv).
  rewrite (tryReserve_hit _ _ _ _ He Hcap). simpl.
  set (w1 := {| events := _; bookings := bookings w; orders := orders w;
                log := _ |}).
  unfold try_catch, bind at 1.
  rewrite (Booking_create_inserts env _ w1 Hok). cbv iota beta zeta.
  unfold bind at 1.
  rewrite Order_save_run
    by (by apply (Order_validate_after_guard order _ seats)).
  unfold ret. subst w1. simpl.
  by rewrite <- !app_assoc.
Qed.



(** When the event has too few free seats for the order, or no longer
    exists, finalize reports "Not enough seats available.": the order is
    stored as FAILED, and neither the Event collection nor the Booking
    ledger changes. The order's [eventId] is in the form in which ids are
    stored, so that the lookup finds the event when there is one, and the
    sum that is compared with [totalSeats] is exact. *)
Theorem finalize_sold_out_fails_the_order
    (env : Env) (order : Order) (session : option Session) (w : World) (q : Qc) :
  alreadyFinalized order = None ->
  quantity order = Some (Finite q) -> 1 ≤ q ->
  isValidObjectId (eventId order) = true ->
  canonicalObjectId (eventId order) = true ->
  (forall e, events w !! eventId order = Some e ->
             exact (bookedSeats e + q) /\ totalSeats e < bookedSeats e + q) ->
  let run := finalizePaidOrder env order session w in
  fst run = Ok (NOT_READY "Not enough seats available.", markFailed order session)
  /\ events (snd run) = events w
  /\ bookings (snd run) = bookings w
  /\ orders (snd run) = <[_id order := markFailed order session]> (orders w)
  /\ status (markFailed order session) = FAILED.
Proof.
  intros Hfin Hq H1 Hv _ Hfull run. subst run.
  destruct (guard_passes q H1) as [Hn Hinv]. rewrite <- Hq in Hn.
  rewrite (finalize_no_capacity env order session w q Hfin Hn Hinv Hv); [done|].
  destruct (events w !! eventId order) as [e|] eqn:He.
  - rewrite (tryReserve_miss _ _ _ _ He); [done|].
    apply Qclt_not_le. by apply Hfull.
  - unfold tryReserve, Event_findOneAndUpdate. by rewrite He.
Qed.

Lemma finalize_sold_out_witness :
  let o := Sample.order (Some (Finite 2)) in
  let w := Sample.world Sample.three 2 [] o in
  fst (finalizePaidOrder (Sample.env false) o (Some Sample.session) w)
  = Ok (NOT_READY "Not enough seats available.", markFailed o (Some Sample.session)).
Proof.
  intros o w.
  refine (proj1 (finalize_sold_out_fails_the_order (Sample.env false) o
                   (Some Sample.session) w 2 eq_refl eq_refl _ eq_refl eq_refl _)).
  - by vm_compute.
  - intros e He. unfold w, Sample.world in He. cbn [events] in He.
    apply lookup_singleton_Some in He as [_ <-]. split; by vm_compute.
Defined.



(** ** What finalization does to inventory and ledger together *)

Lemma bookingFailure_None_fresh (env : Env) (i : BookingInput) (bs : list Booking) :
  bookingFailure env i bs = None ->
  existsb (fun b => String.eqb (bk_ticketId b) (in_ticketId i)) bs = false.
Proof.
  unfold bookingFailure.
  destruct (in_user i) as [u|]; [|done].
  destruct (negb (isValidObjectId u)); [done|].
  destruct (in_event i) as [e|]; [|done].
  destruct (negb (isValidObjectId e)); [done|].
  destruct (Qc_ltb (in_seats i) 1); [done|].
  destruct (String.eqb (in_ticketId i) ""); [done|].
  destruct (ledgerFault env); [done|].
  by destruct (existsb _ bs).
Qed.

Lemma existsb_ticket_false (t : string) (bs : list Booking) :
  existsb (fun b => String.eqb (bk_ticketId b) t) bs = false ->
  t ∉ bk_ticketId <$> bs.
Proof.
  induction bs as [|b bs IH]; simpl.
  - intros _. apply not_elem_of_nil.
  - intros [Hb Hbs]%orb_false_iff. apply not_elem_of_cons. split.
    + intros ->. by rewrite String.eqb_refl in Hb.
    + by apply IH.
Qed.

Lemma seats_sold_app (id : string) (bs : list Booking) (b : Booking) :
  seats_sold id (bs ++ [b])
  = seats_sold id bs + (if String.eqb (bk_event b) id then bk_seats b else 0).
Proof.
  induction bs as [|b' bs IH]; simpl.
  - destruct (String.eqb (bk_event b) id); ring.
  - fold (seats_sold id (bs ++ [b])). fold (seats_sold id bs). rewrite IH.
    destruct (String.eqb (bk_event b') id); ring.
Qed.

(** Every run of [finalizePaidOrder] either leaves inventory and ledger as
    they are, or takes [seats >= 1] seats of the order's event and appends
    one Booking for exactly those seats of that event, under a ticket the
    ledger did not hold. *)
Lemma finalize_effect (env : Env) (order : Order) (session : option Session)
    (w : World) :
  let w' := snd (finalizePaidOrder env order session w) in
  (events w' = events w /\ bookings w' = bookings w)
  \/ (exists seats e bk,
        1 ≤ seats
        /\ events w !! eventId order = Some e
        /\ bookedSeats e + seats ≤ totalSeats e
        /\ events w' = <[eventId order := inc_bookedSeats seats e]> (events w)
        /\ bookings w' = (bookings w ++ [bk])%list
        /\ bk_event bk = eventId order /\ bk_seats bk = seats
        /\ bk_ticketId bk ∉ bk_ticketId <$> bookings w).
Proof.
  intros w'. subst w'.
  destruct (alreadyFinalized order) as [[t b]|] eqn:Hfin.
  { left. by rewrite (finalize_short_circuit _ _ _ _ _ _ Hfin). }
  destruct (invalidSeats (Number_or_zero (quantity order))) eqn:Hinv.
  { left. destruct (Order_validate order) as [verr|] eqn:Hval.
    - by rewrite (finalize_invalid_rejected _ _ _ _ verr).
    - by rewrite finalize_invalid_seats. }
  destruct (Number_or_zero (quantity order)) as [seats|] eqn:Hq; [|done].
  destruct (isValidObjectId (eventId order)) eqn:Hv.
  2:{ left. by rewrite (finalize_cast_error _ _ _ _ _ Hfin Hq Hinv Hv). }
  destruct (tryReserve (eventId order) seats (events w)) as [[e'|] evs'] eqn:Hres.
  2:{ left. rewrite (finalize_no_capacity _ _ _ _ _ Hfin Hq Hinv Hv)
        by (by rewrite Hres).
      done. }
  destruct (bookingFailure env
              (bookingInputOf order session seats (generateTicketId env))
              (bookings w)) as [err|] eqn:Hb.
  - left. by rewrite (finalize_compensates _ _ _ _ _ _ _ _ Hfin Hq Hinv Hv Hres Hb).
  - right. apply tryReserve_Some_inv in Hres as (e & He & Hcap & _ & _).
    rewrite (finalize_success_exact _ _ _ _ _ _ Hfin Hq Hinv Hv He Hcap Hb).
    exists seats, e, (bookingOf env
                        (bookingInputOf order session seats (generateTicketId env))).
    split_and!; try reflexivity; try done.
    + by apply invalidSeats_false_ge.
    + unfold bookingOf. cbn [bk_event]. by rewrite bookingInputOf_event.
    + apply existsb_ticket_false. by apply bookingFailure_None_fresh in Hb.
Qed.

(** The accounting the design rests on: if every event's [bookedSeats] is
    the sum of the seats of its Bookings, it still is after every run of
    [finalizePaidOrder] that returns a result, READY or FAILED (a run in
    which no call rejected), provided the sum that a reservation stores is
    exact. *)
Theorem finalize_keeps_counters_equal_to_ledger
    (env : Env) (order : Order) (session : option Session) (w w' : World)
    (result : FinalizeResult * Order) :
  ledger_matches w ->
  (forall e q, events w !! eventId order = Some e ->
               quantity order = Some (Finite q) ->
               exact (bookedSeats e + q)) ->
  finalizePaidOrder env order session w = (Ok result, w') ->
  ledger_matches w'.
Proof.
  intros Hw _ Hrun.
  pose proof (finalize_effect env order session w) as Heff.
  rewrite Hrun in Heff. cbn [snd] in Heff.
  destruct Heff
    as [[Hev Hbk]|(seats & e & bk & _ & He & _ & Hev & Hbk & Hbe & Hbs & _)];
    intros id e0; rewrite Hev, Hbk.
  - apply Hw.
  - rewrite seats_sold_app, Hbe, Hbs.
    destruct (decide (id = eventId order)) as [->|Hne].
    + rewrite lookup_insert_eq, String.eqb_refl. intros [= <-]. simpl.
      by rewrite (Hw _ _ He).
    + rewrite lookup_insert_ne by done. intros He0.
      destruct (String.eqb_spec (eventId order) id) as [E|_]; [by destruct Hne|].
      rewrite (Hw _ _ He0). ring.
Qed.

Lemma finalize_ledger_witness :
  let o := Sample.order (Some (Finite 2)) in
  let w := Sample.world Sample.three 0 [] o in
  let run := finalizePaidOrder (Sample.env false) o (Some Sample.session) w in
  (exists result, fst run = Ok result) /\ ledger_matches (snd run).
Proof.
  intros o w run.
  destruct run as [[result|err] w'] eqn:Hrun; [|by vm_compute in Hrun].
  split; [by exists result|].
  apply (finalize_keeps_counters_equal_to_ledger (Sample.env false) o
           (Some Sample.session) w w' result).
  - intros id e He. unfold w, Sample.world in He. cbn [events] in He.
    apply lookup_singleton_Some in He as [_ <-]. reflexivity.
  - intros e q He [= <-]. unfold w, Sample.world in He. cbn [events] in He.
    apply lookup_singleton_Some in He as [_ <-]. reflexivity.
  - exact Hrun.
Defined.

(** The Booking ledger is append-only under [finalizePaidOrder]: the
    Bookings that were there stay, in order and unchanged, at most one is
    added, and ticket identifiers that were pairwise distinct stay so. *)
Theorem finalize_appends_at_most_one_booking
    (env : Env) (order : Order) (session : option Session) (w : World) :
  let w' := snd (finalizePaidOrder env order session w) in
  bookings w `prefix_of` bookings w'
  /\ (length (bookings w') <= S (length (bookings w)))%nat
  /\ (tickets_distinct (bookings w) -> tickets_distinct (bookings w')).
Proof.
  intros w'. subst w'.
  destruct (finalize_effect env order session w)
    as [[_ Hbk]|(seats & e & bk & _ & _ & _ & _ & Hbk & _ & _ & Hfresh)];
    rewrite Hbk.
  - split_and!; [done|lia|done].
  - split_and!.
    + by apply prefix_app_r.
    + rewrite length_app. simpl. lia.
    + unfold tickets_distinct. rewrite fmap_app. simpl. intros Hnd.
      apply NoDup_app. split_and!; [done| |apply NoDup_singleton].
      intros t Ht Hin. apply list_elem_of_singleton in Hin as ->. done.
Qed.

Lemma finalize_appends_witness :
  let o := Sample.order (Some (Finite 1)) in
  let w := Sample.world Sample.three 0 [Sample.earlier_booking] o in
  tickets_distinct (bookings (snd (finalizePaidOrder (Sample.env false) o
                                     (Some Sample.session) w))).
Proof.
  intros o w.
  apply (proj2 (proj2 (finalize_appends_at_most_one_booking (Sample.env false) o
                         (Some Sample.session) w))).
  apply NoDup_singleton.
Defined.



(** ** The webhook *)

Lemma webhookCompleted_answers (env : Env) (session : Session) (w : World) :
  (forall oid, meta_orderId session = Some oid ->
               oid = "" \/ isValidObjectId oid = true) ->
  exists b, fst (webhookCompleted env session w) = Ok b.
Proof.
  intros Hid. unfold webhookCompleted.
  destruct (meta_orderId session) as [oid|]; [|by eexists].
  destruct (Hid oid eq_refl) as [->|Hv]; [by eexists|].
  destruct (truthy (Some oid)); [|by eexists].
  unfold bind at 1, Order_findById, bind, tell, get_orders, ret. simpl.
  rewrite Hv. simpl.
  destruct (orders w !! oid) as [order|]; [|by eexists].
  destruct (_ && _ && _); [by eexists|].
  destruct (bool_decide _); [|by eexists].
  unfold try_catch, bind.
  destruct (finalizePaidOrder _ _ _ _) as [[r|err] w']; by eexists.
Qed.

Lemma webhookExpired_answers (session : Session) (w : World) :
  (forall oid, meta_orderId session = Some oid ->
               oid = "" \/ isValidObjectId oid = true) ->
  (forall oid o, meta_orderId session = Some oid -> orders w !! oid = Some o ->
                 status o = PENDING -> Order_validate o = None) ->
  fst (webhookExpired session w) = Ok tt.
Proof.
  intros Hid Hval. unfold webhookExpired.
  destruct (meta_orderId session) as [oid|]; [|done].
  destruct (Hid oid eq_refl) as [->|Hv]; [done|].
  destruct (truthy (Some oid)); [|done].
  unfold bind at 1, Order_findById, bind, tell, get_orders, ret. simpl.
  rewrite Hv. simpl.
  destruct (orders w !! oid) as [order|] eqn:Ho; [|done].
  destruct (bool_decide (status order = PENDING)) eqn:Hst; [|done].
  apply bool_decide_eq_true_1 in Hst.
  rewrite Order_save_run; [done|].
  rewrite (Order_validate_same order) by done. by apply (Hval oid).
Qed.

Lemma webhookExpired_rejects (session : Session) (w : World)
    (oid : string) (o : Order) (err : Error) :
  meta_orderId session = Some oid ->
  isValidObjectId oid = true ->
  orders w !! oid = Some o ->
  status o = PENDING ->
  Order_validate o = Some err ->
  webhookExpired session w
  = (Throw err,
     {| events := events w; bookings := bookings w; orders := orders w;
        log := (log w ++ [OrderFindById oid; OrderSave (_id o)])%list |}).
Proof.
  intros Hoid Hv Ho Hst Hbad. unfold webhookExpired.
  rewrite Hoid, (truthy_valid_id _ Hv). unfold bind at 1.
  unfold Order_findById, bind, tell, get_orders, ret. simpl.
  rewrite Hv. simpl. rewrite Ho, Hst.
  rewrite bool_decide_eq_true_2 by done.
  rewrite (Order_save_rejects _ _ err)
    by (by rewrite (Order_validate_same o)).
  cbn [events bookings orders log _id set_status]. by rewrite <- app_assoc.
Qed.

(** A verified event is always acknowledged: whatever the event type, the
    order found and the way [finalizePaidOrder] ends (a thrown error
    included), the handler answers [{ received: true }], provided the
    order id in the metadata is absent, empty or a well-formed ObjectId,
    and, for an expired session, the PENDING order it names passes the
    schema's validation (as every order the handlers create does). In the
    one remaining case, an expired session naming a PENDING order that the
    schema rejects, [order.save()] throws, the outer [catch] answers 500
    and the Order collection is unchanged. *)
Theorem webhook_acknowledges_verified_events
    (env : Env) (event : StripeEvent) (w : World) :
  (forall oid, meta_orderId (data_object event) = Some oid ->
               oid = "" \/ isValidObjectId oid = true) ->
  let run := stripeWebhook env (inr event) w in
  ((ev_type event = "checkout.session.expired" ->
    forall oid o, meta_orderId (data_object event) = Some oid ->
                  orders w !! oid = Some o -> status o = PENDING ->
                  Order_validate o = None) ->
   fst run = Ok Webhook_received)
  /\ (forall oid o err,
        ev_type event = "checkout.session.expired" ->
        meta_orderId (data_object event) = Some oid ->
        isValidObjectId oid = true ->
        orders w !! oid = Some o -> status o = PENDING ->
        Order_validate o = Some err ->
        fst run = Ok Webhook_500 /\ orders (snd run) = orders w).
Proof.
  intros Hid run. subst run. split.
  - intros Hval. unfold stripeWebhook, try_catch, bind.
    destruct (String.eqb_spec (ev_type event) "checkout.session.completed")
      as [Hty|_].
    + destruct (webhookCompleted_answers env (data_object event) w Hid)
        as [b Hb].
      destruct (webhookCompleted env (data_object event) w) as [r w'].
      simpl in Hb. subst r. destruct b; [done|].
      rewrite Hty.
      change (String.eqb "checkout.session.completed"
                         "checkout.session.expired") with false.
      done.
    + unfold ret at 1.
      destruct (String.eqb_spec (ev_type event) "checkout.session.expired")
        as [Hex|_]; [|done].
      pose proof (webhookExpired_answers (data_object event) w Hid (Hval Hex))
        as He.
      destruct (webhookExpired (data_object event) w) as [r w'']. simpl in He.
      by subst r.
  - intros oid o err Hex Hoid Hv Ho Hst Hbad.
    unfold stripeWebhook, try_catch, bind. rewrite Hex.
    change (String.eqb "checkout.session.expired"
                       "checkout.session.completed") with false.
    change (String.eqb "checkout.session.expired"
                       "checkout.session.expired") with true.
    unfold ret. cbv iota beta.
    by rewrite (webhookExpired_rejects _ _ oid o err).
Qed.

Lemma webhook_acknowledges_witness :
  let o := Sample.order (Some (Finite 1)) in
  let w := Sample.world Sample.three 0 [] o in
  fst (stripeWebhook (Sample.env true)
         (inr {| ev_type := "checkout.session.completed";
                 data_object := Sample.session |}) w)
  = Ok Webhook_received.
Proof.
  intros o w.
  refine (proj1 (webhook_acknowledges_verified_events (Sample.env true)
                   {| ev_type := "checkout.session.completed";
                      data_object := Sample.session |} w _) _).
  - intros oid [= <-]. right. reflexivity.
  - intros Hex. discriminate Hex.
Defined.

(** An instance of that remaining case: an expired session whose PENDING
    order has no quantity makes [order.save()] reject, and the outer
    [catch] answers "Webhook handler failed"; the order stays PENDING. *)
Example webhook_answers_500_on_an_order_without_quantity :
  let o := Sample.order None in
  let w := Sample.world Sample.three 0 [] o in
  let event := {| ev_type := "checkout.session.expired";
                  data_object := Sample.session |} in
  let run := stripeWebhook (Sample.env false) (inr event) w in
  fst run = Ok Webhook_500 /\ orders (snd run) = orders w.
Proof. intros o w event run. split; reflexivity. Qed.

Lemma Order_findById_run (oid : string) (w : World) :
  isValidObjectId oid = true ->
  Order_findById oid w
  = (Ok (orders w !! oid),
     {| events := events w; bookings := bookings w; orders := orders w;
        log := (log w ++ [OrderFindById oid])%list |}).
Proof.
  intros Hv. unfold Order_findById, bind, tell, get_orders, ret. simpl.
  by rewrite Hv.
Qed.

Lemma webhookCompleted_unresolved (env : Env) (session : Session) (w : World)
    (oid : string) (order : Order) :
  meta_orderId session = Some oid ->
  isValidObjectId oid = true ->
  orders w !! oid = Some order ->
  alreadyFinalized order = None ->
  payment_status session = Some "paid" ->
  webhookCompleted env session w
  = (Ok false,
     snd (finalizePaidOrder env order (Some session)
            {| events := events w; bookings := bookings w; orders := orders w;
               log := (log w ++ [OrderFindById oid])%list |})).
Proof.
  intros Hoid Hv Ho Hfin Hpaid. unfold webhookCompleted.
  rewrite Hoid, (truthy_valid_id _ Hv). unfold bind at 1.
  rewrite (Order_findById_run _ _ Hv), Ho.
  assert (bool_decide (status order = PAID)
          && bool_decide (is_Some (bookingId order))
          && truthy (ticketId order) = false) as ->.
  { unfold alreadyFinalized in Hfin.
    destruct (ticketId order) as [t|]; [|by rewrite andb_false_r].
    destruct (bookingId order) as [b|].
    - destruct (truthy (Some t)); [done|by rewrite andb_false_r].
    - rewrite (bool_decide_eq_false_2 (is_Some None)) by (by intros [? [=]]).
      by rewrite andb_false_r, andb_false_l. }
  rewrite Hpaid. rewrite bool_decide_eq_true_2 by done.
  unfold try_catch, bind.
  by destruct (finalizePaidOrder _ _ _ _) as [[r|err] w'].
Qed.

Lemma webhookCompleted_resolved (env : Env) (session : Session) (w : World)
    (oid : string) (order : Order) (t b : string) :
  meta_orderId session = Some oid ->
  isValidObjectId oid = true ->
  orders w !! oid = Some order ->
  status order = PAID -> ticketId order = Some t -> t ≠ "" ->
  bookingId order = Some b ->
  webhookCompleted env session w
  = (Ok true,
     {| events := events w; bookings := bookings w; orders := orders w;
        log := (log w ++ [OrderFindById oid])%list |}).
Proof.
  intros Hoid Hv Ho Hst Ht Hne Hb. unfold webhookCompleted.
  rewrite Hoid, (truthy_valid_id _ Hv). unfold bind at 1.
  rewrite (Order_findById_run _ _ Hv), Ho, Hst, Ht, Hb.
  rewrite !bool_decide_eq_true_2 by (done || by eexists).
  unfold truthy. destruct (String.eqb_spec t ""); [contradiction|done].
Qed.

Lemma stripeWebhook_completed (env : Env) (event : StripeEvent) (w : World) :
  ev_type event = "checkout.session.completed" ->
  (exists b, fst (webhookCompleted env (data_object event) w) = Ok b) ->
  stripeWebhook env (inr event) w
  = (Ok Webhook_received, snd (webhookCompleted env (data_object event) w)).
Proof.
  intros Hty [b Hb]. unfold stripeWebhook, try_catch, bind. rewrite Hty.
  change (String.eqb "checkout.session.completed" "checkout.session.completed")
    with true.
  change (String.eqb "checkout.session.completed" "checkout.session.expired")
    with false.
  cbv iota.
  destruct (webhookCompleted env (data_object event) w) as [r w'].
  simpl in Hb. subst r. by destruct b.
Qed.

(** A [checkout.session.completed] event for a paid session finalizes the
    order it names, and a redelivery of the same event (the provider's
    retry) changes nothing: after the first delivery the ledger has the one
    new Booking and the order is PAID; after the second, events, bookings
    and orders are exactly what the first delivery left. *)
Theorem webhook_redelivery_changes_nothing
    (env env' : Env) (event : StripeEvent) (w : World)
    (oid : string) (order : Order) (q : Qc) (e : Event) :
  ev_type event = "checkout.session.completed" ->
  payment_status (data_object event) = Some "paid" ->
  meta_orderId (data_object event) = Some oid ->
  isValidObjectId oid = true ->
  orders w !! oid = Some order -> _id order = oid ->
  alreadyFinalized order = None ->
  quantity order = Some (Finite q) -> 1 ≤ q ->
  isValidObjectId (eventId order) = true ->
  events w !! eventId order = Some e ->
  bookedSeats e + q ≤ totalSeats e ->
  bookingFailure env
    (bookingInputOf order (Some (data_object event)) q (generateTicketId env))
    (bookings w) = None ->
  let first := stripeWebhook env (inr event) w in
  let second := stripeWebhook env' (inr event) (snd first) in
  fst first = Ok Webhook_received
  /\ (exists bk, bookings (snd first) = (bookings w ++ [bk])%list
                 /\ bk_seats bk = q)
  /\ status <$> (orders (snd first) !! oid) = Some PAID
  /\ fst second = Ok Webhook_received
  /\ events (snd second) = events (snd first)
  /\ bookings (snd second) = bookings (snd first)
  /\ orders (snd second) = orders (snd first).
Proof.
  intros Hty Hpaid Hoid Hvo Ho Hid Hfin Hq H1 Hv He Hcap Hok first second.
  destruct (guard_passes q H1) as [Hn Hinv]. rewrite <- Hq in Hn.
  set (w0 := {| events := events w; bookings := bookings w; orders := orders w;
                log := (log w ++ [OrderFindById oid])%list |}).
  pose proof (finalize_success_exact env order (Some (data_object event)) w0 q e
                Hfin Hn Hinv Hv He Hcap Hok) as Hrun. cbv zeta in Hrun.
  pose proof (webhookCompleted_unresolved env (data_object event) w oid order
                Hoid Hvo Ho Hfin Hpaid) as Hw1.
  fold w0 in Hw1. rewrite Hrun in Hw1. cbn [snd] in Hw1.
  assert (Hfirst := stripeWebhook_completed env event w Hty).
  rewrite Hw1 in Hfirst. specialize (Hfirst ltac:(by eexists)).
  cbn [snd] in Hfirst. fold first in Hfirst.
  set (w1 := {| events := _; bookings := _; orders := _; log := _ |}) in Hfirst.
  assert (Hw2 := webhookCompleted_resolved env' (data_object event) w1 oid
                   (markPaid order (Some (data_object event))
                      (bookingOf env
                         (bookingInputOf order (Some (data_object event)) q
                            (generateTicketId env)))
                      (generateTicketId env))
                   (generateTicketId env) (newBookingId env) Hoid Hvo).
  assert (Hsecond := stripeWebhook_completed env' event w1 Hty).
  rewrite Hw2 in Hsecond.
  - subst second. rewrite Hfirst. cbn [fst snd].
    rewrite Hsecond by (by eexists). cbn [fst snd events bookings orders].
    split_and!; try done.
    + by eexists.
    + subst w1. cbn [orders]. rewrite <- Hid. by rewrite lookup_insert_eq.
  - subst w1. cbn [orders]. rewrite <- Hid. apply lookup_insert_eq.
  - done.
  - done.
  - intros E. pose proof (generateTicketId_truthy env) as Ht.
    rewrite E in Ht. discriminate Ht.
  - done.
Qed.

Lemma webhook_redelivery_witness :
  let o := Sample.order (Some (Finite 1)) in
  let w := Sample.world Sample.three 0 [] o in
  let event := {| ev_type := "checkout.session.completed";
                  data_object := Sample.session |} in
  let first := stripeWebhook (Sample.env false) (inr event) w in
  bookings (snd (stripeWebhook (Sample.env false) (inr event) (snd first)))
  = bookings (snd first).
Proof.
  intros o w event first.
  refine (proj1 (proj2 (proj2 (proj2 (proj2 (proj2
            (webhook_redelivery_changes_nothing (Sample.env false)
               (Sample.env false) event w Sample.order_id o 1
               {| totalSeats := Sample.three; bookedSeats := 0 |}
               eq_refl eq_refl eq_refl eq_refl eq_refl eq_refl eq_refl eq_refl
               _ eq_refl eq_refl _ eq_refl)))))));
    by vm_compute.
Defined.

(** ** The status poll *)

Lemma reads_ret {A} (a : A) : reads_only (ret a).
Proof. by intros w. Qed.

Lemma reads_throw {A} (e : Error) : reads_only (@throw A e).
Proof. by intros w. Qed.

Lemma reads_tell (x : Effect) : reads_only (tell x).
Proof. by intros w. Qed.

Lemma reads_get_orders : reads_only get_orders.
Proof. by intros w. Qed.

Lemma reads_get_events : reads_only get_events.
Proof. by intros w. Qed.

Lemma reads_get_bookings : reads_only get_bookings.
Proof. by intros w. Qed.

Lemma reads_bind {A B} (m : M A) (k : A -> M B) :
  reads_only m -> (forall a, reads_only (k a)) -> reads_only (bind m k).
Proof.
  intros Hm Hk w. unfold bind. specialize (Hm w).
  destruct (m w) as [[a|e] w']; simpl in *; [|done].
  destruct (Hk a w') as (-> & -> & ->). done.
Qed.

Lemma reads_try_catch {A} (body : M A) (handler : Error -> M A) :
  reads_only body -> (forall e, reads_only (handler e)) ->
  reads_only (try_catch body handler).
Proof.
  intros Hb Hh w. unfold try_catch. specialize (Hb w).
  destruct (body w) as [[a|e] w']; simpl in *; [done|].
  destruct (Hh e w') as (-> & -> & ->). done.
Qed.

#[local] Hint Resolve reads_ret reads_throw reads_tell reads_get_orders
  reads_get_events reads_get_bookings : reads.

Ltac reads_step :=
  match goal with
  | |- reads_only (bind _ _) => apply reads_bind; [|intros ?]
  | |- reads_only (try_catch _ _) => apply reads_try_catch; [|intros ?]
  | |- reads_only (match ?x with _ => _ end) => destruct x eqn:?
  | |- reads_only _ => solve [auto with reads]
  end.

Lemma reads_Order_findOne (sid : string) : reads_only (Order_findOne sid).
Proof. unfold Order_findOne. repeat reads_step. Qed.

Lemma reads_Order_findById (id : string) : reads_only (Order_findById id).
Proof. unfold Order_findById. repeat reads_step. Qed.

Lemma reads_Event_findById (id : string) : reads_only (Event_findById id).
Proof. unfold Event_findById. repeat reads_step. Qed.

#[local] Hint Resolve reads_Order_findOne reads_Order_findById
  reads_Event_findById : reads.

(** Polling never writes unless the provider reports the session as paid:
    when the provider's answer for the session is anything but a paid
    session (not paid yet, or the call fails), the Event collection, the
    Booking ledger and the Order collection are unchanged, whatever the
    order's state is. *)
Theorem poll_writes_nothing_unless_paid
    (env : Env) (provider : string -> option Session) (sessionId : string)
    (w : World) :
  (forall s, provider sessionId = Some s -> payment_status s ≠ Some "paid") ->
  let w' := snd (getStripeResultBySession env provider sessionId w) in
  events w' = events w /\ bookings w' = bookings w /\ orders w' = orders w.
Proof.
  intros Hunpaid.
  assert (reads_only (getStripeResultBySession env provider sessionId)) as H;
    [|exact (H w)].
  assert (forall order, reads_only (pollUnresolved env provider sessionId order))
    as Hun.
  { intros order w0. unfold pollUnresolved.
    destruct (bool_decide (status order ∈ [FAILED; EXPIRED; CANCELLED])); [done|].
    unfold bind at 1, stripe_retrieve, bind, tell, ret, throw. simpl.
    destruct (provider sessionId) as [s|] eqn:Hp; [|done].
    destruct (bool_decide (payment_status s = Some "paid")) eqn:Hpaid; [|done].
    apply bool_decide_eq_true in Hpaid. by destruct (Hunpaid s eq_refl). }
  unfold getStripeResultBySession. repeat reads_step; apply Hun.
Qed.

Lemma poll_unpaid_witness :
  let o := Sample.order (Some (Finite 1)) in
  let w := Sample.world Sample.three 0 [] o in
  orders (snd (getStripeResultBySession (Sample.env false) (fun _ => None)
                 "cs_test_1" w)) = orders w.
Proof.
  intros o w.
  refine (proj2 (proj2 (poll_writes_nothing_unless_paid (Sample.env false)
                          (fun _ => None) "cs_test_1" w _))).
  intros s [=].
Defined.

(** An order that was marked FAILED, EXPIRED or CANCELLED and has no
    ticket is answered from the stored status alone: the response names
    that status, the payment provider is not asked (even if the session
    has meanwhile been paid), and nothing is written. When no order
    matches the session the answer is NOT_FOUND, again after the lookup
    alone. *)
Theorem poll_answers_closed_orders_from_the_store
    (env : Env) (provider : string -> option Session) (sessionId : string)
    (w : World) :
  let run := getStripeResultBySession env provider sessionId w in
  let looked_up :=
    {| events := events w; bookings := bookings w; orders := orders w;
       log := (log w ++ [OrderFindOne sessionId])%list |} in
  (fst (Order_findOne sessionId w) = Ok None ->
   run = (Ok Poll_NOT_FOUND, looked_up))
  /\ (forall o,
        fst (Order_findOne sessionId w) = Ok (Some o) ->
        truthy (ticketId o) = false ->
        status o = FAILED \/ status o = EXPIRED \/ status o = CANCELLED ->
        run = (Ok (Poll_status (status_name (status o))
                     ("Order " +:+ status_lower (status o) +:+ ".")),
               looked_up)).
Proof.
  intros run looked_up. subst run looked_up.
  unfold getStripeResultBySession, try_catch, bind at 1.
  unfold Order_findOne, bind, tell, get_orders, ret. simpl.
  split.
  - intros [= ->]. done.
  - intros o [= ->] Ht Hst.
    assert (bool_decide (status o ∈ [FAILED; EXPIRED; CANCELLED]) = true) as Hin.
    { destruct Hst as [->| [->| ->]]; reflexivity. }
    unfold pollUnresolved. rewrite Hin.
    destruct (ticketId o) as [t|]; [|done].
    simpl in Ht. by rewrite Ht.
Qed.

Lemma poll_closed_order_witness :
  let o := set_status EXPIRED (Sample.order (Some (Finite 1))) in
  let w := Sample.world Sample.three 0 [] o in
  fst (getStripeResultBySession (Sample.env false)
         (fun _ => Some Sample.session) "cs_test_1" w)
  = Ok (Poll_status "EXPIRED" "Order expired.").
Proof.
  intros o w.
  exact (f_equal fst
           (proj2 (poll_answers_closed_orders_from_the_store (Sample.env false)
                     (fun _ => Some Sample.session) "cs_test_1" w)
              o eq_refl eq_refl (or_intror (or_introl eq_refl)))).
Defined.

Lemma Order_findOne_run (sid : string) (w : World) :
  Order_findOne sid w
  = (fst (Order_findOne sid w),
     {| events := events w; bookings := bookings w; orders := orders w;
        log := (log w ++ [OrderFindOne sid])%list |}).
Proof. reflexivity. Qed.

Lemma poll_ready_run (env : Env) (provider : string -> option Session)
    (sid : string) (w : World) (o : Order) (t : string) :
  fst (Order_findOne sid w) = Ok (Some o) ->
  ticketId o = Some t -> t ≠ "" ->
  getStripeResultBySession env provider sid w
  = (Ok (Poll_READY t (bookingId o)),
     {| events := events w; bookings := bookings w; orders := orders w;
        log := (log w ++ [OrderFindOne sid])%list |}).
Proof.
  intros Hfind Ht Hne.
  unfold getStripeResultBySession, try_catch, bind at 1.
  rewrite Order_findOne_run, Hfind, Ht. unfold truthy.
  by destruct (String.eqb_spec t "").
Qed.

(** Polling a paid session finalizes its order once: the first poll
    reserves, books and answers READY with the new ticket; every later
    poll for that session answers READY with the same ticket from the
    stored order, without asking the provider and without writing
    anything. *)
Theorem poll_finalizes_once
    (env env' : Env) (provider provider' : string -> option Session)
    (sid k : string) (w : World) (o : Order) (s : Session) (q : Qc) (e : Event) :
  (forall k' o', orders w !! k' = Some o' -> _id o' = k') ->
  orders w !! k = Some o ->
  stripeSessionId o = Some sid ->
  (forall k' o', orders w !! k' = Some o' ->
                 stripeSessionId o' = Some sid -> o' = o) ->
  ticketId o = None -> status o = PENDING ->
  provider sid = Some s -> payment_status s = Some "paid" ->
  quantity o = Some (Finite q) -> 1 ≤ q ->
  isValidObjectId (eventId o) = true ->
  events w !! eventId o = Some e ->
  bookedSeats e + q ≤ totalSeats e ->
  bookingFailure env (bookingInputOf o (Some s) q (generateTicketId env))
    (bookings w) = None ->
  let first := getStripeResultBySession env provider sid w in
  let second := getStripeResultBySession env' provider' sid (snd first) in
  fst first = Ok (Poll_READY (generateTicketId env) (Some (newBookingId env)))
  /\ (exists bk, bookings (snd first) = (bookings w ++ [bk])%list
                 /\ bk_seats bk = q)
  /\ fst second = Ok (Poll_READY (generateTicketId env) (Some (newBookingId env)))
  /\ events (snd second) = events (snd first)
  /\ bookings (snd second) = bookings (snd first)
  /\ orders (snd second) = orders (snd first)
  /\ log (snd second) = (log (snd first) ++ [OrderFindOne sid])%list.
Proof.
  intros Hkeys Hk Hsid Huniq Ht Hst Hp Hpaid Hq H1 Hv He Hcap Hok first second.
  destruct (guard_passes q H1) as [Hn Hinv]. rewrite <- Hq in Hn.
  assert (alreadyFinalized o = None) as Hfin
    by (unfold alreadyFinalized; by rewrite Ht).
  pose proof (Order_findOne_unique sid k o w Hk Hsid Huniq) as Hfind.
  set (w0 := {| events := events w; bookings := bookings w; orders := orders w;
                log := ((log w ++ [OrderFindOne sid]) ++ [StripeRetrieve sid])%list |}).
  pose proof (finalize_success_exact env o (Some s) w0 q e Hfin Hn Hinv Hv He
                Hcap Hok) as Hrun. cbv zeta in Hrun.
  set (bk := bookingOf env (bookingInputOf o (Some s) q (generateTicketId env)))
    in *.
  set (o' := markPaid o (Some s) bk (generateTicketId env)) in *.
  assert (Hfirst : first
    = (Ok (Poll_READY (generateTicketId env) (Some (newBookingId env))),
       snd (finalizePaidOrder env o (Some s) w0))).
  { subst first. unfold getStripeResultBySession, try_catch, bind at 1.
    rewrite Order_findOne_run, Hfind, Ht. unfold pollUnresolved. rewrite Hst.
    change (bool_decide (PENDING ∈ [FAILED; EXPIRED; CANCELLED])) with false.
    unfold bind at 1, stripe_retrieve, bind at 1, tell, ret. rewrite Hp.
    cbn [events bookings orders log]. rewrite Hpaid.
    rewrite bool_decide_eq_true_2 by done. cbn [negb].
    unfold bind. fold w0. by rewrite Hrun. }
  subst second. rewrite Hfirst, Hrun. cbn [fst snd].
  set (w1 := {| events := _; bookings := _; orders := _; log := _ |}).
  assert (fst (Order_findOne sid w1) = Ok (Some o')) as Hfind'.
  { apply (Order_findOne_unique sid (_id o) o' w1).
    - subst w1. cbn [orders]. apply lookup_insert_eq.
    - done.
    - subst w1. cbn [orders]. intros k' o2 Hk' Hs2.
      destruct (decide (k' = _id o)) as [->|Hne].
      + rewrite lookup_insert_eq in Hk'. by injection Hk'.
      + rewrite lookup_insert_ne in Hk' by done.
        pose proof (Huniq _ _ Hk' Hs2) as ->.
        by destruct Hne; rewrite (Hkeys _ _ Hk'). }
  rewrite (poll_ready_run env' provider' sid w1 o' (generateTicketId env) Hfind'
             eq_refl).
  - cbn [fst snd events bookings orders log]. split_and!; try done. by eexists.
  - intros E. pose proof (generateTicketId_truthy env) as Htr.
    rewrite E in Htr. discriminate Htr.
Qed.

Lemma poll_finalizes_once_witness :
  let o := Sample.order (Some (Finite 1)) in
  let w := Sample.world Sample.three 0 [] o in
  let first := getStripeResultBySession (Sample.env false)
                 (fun _ => Some Sample.session) "cs_test_1" w in
  fst first = Ok (Poll_READY Sample.ticket (Some Sample.booking_id))
  /\ fst (getStripeResultBySession (Sample.env true) (fun _ => None)
            "cs_test_1" (snd first))
     = Ok (Poll_READY Sample.ticket (Some Sample.booking_id)).
Proof.
  intros o w first.
  assert (forall k' o', orders w !! k' = Some o' -> k' = Sample.order_id /\ o' = o)
    as Honly.
  { intros k' o' Hk'. unfold w, Sample.world in Hk'. cbn [orders] in Hk'.
    by apply lookup_singleton_Some in Hk' as [<- <-]. }
  pose proof (poll_finalizes_once (Sample.env false) (Sample.env true)
                (fun _ => Some Sample.session) (fun _ => None)
                "cs_test_1" Sample.order_id w o Sample.session 1
                {| totalSeats := Sample.three; bookedSeats := 0 |}) as H.
  destruct H as (H1 & _ & H2 & _).
  - intros k' o' Hk'. by destruct (Honly _ _ Hk') as [-> ->].
  - reflexivity.
  - reflexivity.
  - intros k' o' Hk' _. by destruct (Honly _ _ Hk') as [_ ->].
  - reflexivity.
  - reflexivity.
  - reflexivity.
  - reflexivity.
  - reflexivity.
  - by vm_compute.
  - reflexivity.
  - reflexivity.
  - by vm_compute.
  - reflexivity.
  - by split.
Defined.

(** ** Checkout *)

Lemma mustBeInt_ge_1 (q : Qc) : mustBeInt (Finite q) = true -> 1 ≤ q.
Proof.
  unfold mustBeInt. intros [Hd Hpos]%andb_true_iff.
  apply Pos.eqb_eq in Hd. apply Qc_ltb_lt in Hpos.
  destruct q as [[n d] Hc]. simpl in Hd. subst d.
  unfold Qclt, Qlt in Hpos. unfold Qcle, Qle. simpl in *. lia.
Qed.

(** Every quantity [createCheckoutSession] accepts passes the quantity
    guard of [finalizePaidOrder]. *)
Lemma mustBeInt_passes_guard (n : JsNumber) :
  mustBeInt n = true -> invalidSeats (Number_or_zero (Some n)) = false.
Proof.
  destruct n as [q|]; [|done]. intros Hq%mustBeInt_ge_1.
  destruct (guard_passes q Hq) as [-> Hinv]. done.
Qed.

Lemma Event_findById_run (id : string) (w : World) :
  isValidObjectId id = true ->
  Event_findById id w
  = (Ok (events w !! id),
     {| events := events w; bookings := bookings w; orders := orders w;
        log := (log w ++ [EventFindById id])%list |}).
Proof.
  intros Hv. unfold Event_findById, bind, tell, get_events, ret. simpl.
  by rewrite Hv.
Qed.

(** A checkout request without an event id or ticket name, or whose
    quantity or unit amount is not a positive integer, is answered 400
    before anything happens: no store is read or written, the provider is
    not contacted. *)
Theorem checkout_rejects_malformed_requests
    (cenv : CheckoutEnv) (req : CheckoutRequest) (w : World) :
  truthy (req_eventId req) = false \/ truthy (req_ticketName req) = false
  \/ mustBeInt_opt (req_quantity req) = false
  \/ mustBeInt_opt (req_unitAmount req) = false ->
  exists message,
    createCheckoutSession cenv req w = (Ok (Checkout_400 message), w).
Proof.
  intros Hbad. unfold createCheckoutSession, try_catch.
  destruct (truthy (req_eventId req)); [|by eexists].
  destruct (truthy (req_ticketName req)); [|by eexists].
  destruct (mustBeInt_opt (req_quantity req)); [|by eexists].
  destruct (mustBeInt_opt (req_unitAmount req)); [|by eexists].
  by destruct Hbad as [?|[?|[?|?]]].
Qed.

Lemma checkout_rejects_witness :
  exists message,
    createCheckoutSession {| newOrderId := Sample.order_id;
                             stripe_create := fun _ => None |}
      (sample_checkout (Finite Sample.five_halves))
      (Sample.world Sample.three 0 [] (Sample.order None))
    = (Ok (Checkout_400 message),
       Sample.world Sample.three 0 [] (Sample.order None)).
Proof.
  apply (checkout_rejects_malformed_requests _
           (sample_checkout (Finite Sample.five_halves))).
  right. right. left. reflexivity.
Defined.

(** The order a well-formed checkout would store. *)
Lemma checkout_passes_validation (cenv : CheckoutEnv) (req : CheckoutRequest)
    (w : World) (eid : string) (q : Qc) (ev : Event) :
  req_eventId req = Some eid -> isValidObjectId eid = true ->
  truthy (req_ticketName req) = true ->
  req_quantity req = Some (Finite q) -> mustBeInt (Finite q) = true ->
  mustBeInt_opt (req_unitAmount req) = true ->
  events w !! eid = Some ev ->
  createCheckoutSession cenv req w
  = try_catch
      (if Qc_ltb (availableSeats ev) q then
         ret (Checkout_400 "Not enough seats available")
       else
         order <- Order_create
                    {| _id := newOrderId cenv;
                       userId := js_or_null (req_user req);
                       eventId := eid;
                       name := js_or_lit (req_name req) "";
                       email := js_or_lit (req_email req) "";
                       quantity := Some (Finite q);
                       status := PENDING; paymentStatus := None;
                       stripeSessionId := None;
                       stripePaymentIntentId := None;
                       bookingId := None; ticketId := None |} ;;
         match stripe_create cenv (_id order) with
         | None => throw ProviderError
         | Some (sid, url) =>
             Order_save (set_stripeSessionId (Some sid) order) ;;;
             ret (Checkout_200 url (_id order))
         end)
      (fun _ => ret Checkout_500)
      {| events := events w; bookings := bookings w; orders := orders w;
         log := (log w ++ [EventFindById eid])%list |}.
Proof.
  intros Heid Hv Htn Hq Hint Hua He. unfold createCheckoutSession.
  rewrite Heid, (truthy_valid_id _ Hv), Htn, Hq, Hua. cbn [mustBeInt_opt negb].
  rewrite Hint. cbn [negb]. unfold try_catch, bind at 1.
  by rewrite (Event_findById_run _ _ Hv), He.
Qed.

Lemma Order_create_run (o : Order) (w : World) :
  Order_validate o = None -> orders w !! _id o = None ->
  Order_create o w
  = (Ok o,
     {| events := events w; bookings := bookings w;
        orders := <[_id o := o]> (orders w);
        log := (log w ++ [OrderSave (_id o)])%list |}).
Proof.
  intros Hok Hfresh.
  unfold Order_create, bind, tell, get_orders, put_orders, ret.
  rewrite Hok. cbn [orders]. by rewrite Hfresh.
Qed.


(** A well-formed checkout for seats the event still has creates the
    order and reserves nothing: the response carries the provider's url
    and the new order id; the order is stored PENDING with the session id,
    the requested quantity and no ticket; events and bookings are
    untouched. The stored order passes finalize's quantity guard, and a
    later poll for the session finds it when no other order carries that
    session id. *)
Theorem checkout_creates_a_pending_order
    (cenv : CheckoutEnv) (req : CheckoutRequest) (w : World)
    (eid sid url : string) (q : Qc) (ev : Event) :
  req_eventId req = Some eid -> isValidObjectId eid = true ->
  truthy (req_ticketName req) = true ->
  req_quantity req = Some (Finite q) -> mustBeInt (Finite q) = true ->
  mustBeInt_opt (req_unitAmount req) = true ->
  events w !! eid = Some ev ->
  q ≤ availableSeats ev ->
  orders w !! newOrderId cenv = None ->
  stripe_create cenv (newOrderId cenv) = Some (sid, url) ->
  let run := createCheckoutSession cenv req w in
  exists o,
    fst run = Ok (Checkout_200 url (newOrderId cenv))
    /\ orders (snd run) = <[newOrderId cenv := o]> (orders w)
    /\ _id o = newOrderId cenv /\ eventId o = eid
    /\ status o = PENDING /\ quantity o = Some (Finite q)
    /\ stripeSessionId o = Some sid
    /\ ticketId o = None /\ bookingId o = None
    /\ invalidSeats (Number_or_zero (quantity o)) = false
    /\ events (snd run) = events w /\ bookings (snd run) = bookings w
    /\ ((forall k o', orders w !! k = Some o' -> stripeSessionId o' ≠ Some sid) ->
        fst (Order_findOne sid (snd run)) = Ok (Some o)).
Proof.
  intros Heid Hv Htn Hq Hint Hua He Havail Hfresh Hstripe run.
  pose proof (truthy_valid_id _ Hv) as Htr.
  set (o0 := {| _id := newOrderId cenv; userId := js_or_null (req_user req);
                eventId := eid; name := js_or_lit (req_name req) "";
                email := js_or_lit (req_email req) "";
                quantity := Some (Finite q); status := PENDING;
                paymentStatus := None; stripeSessionId := None;
                stripePaymentIntentId := None; bookingId := None;
                ticketId := None |}).
  assert (run
          = (Ok (Checkout_200 url (newOrderId cenv)),
             {| events := events w; bookings := bookings w;
                orders := <[newOrderId cenv := set_stripeSessionId (Some sid) o0]>
                            (<[newOrderId cenv := o0]> (orders w));
                log := (((log w ++ [EventFindById eid])
                         ++ [OrderSave (newOrderId cenv)])
                        ++ [OrderSave (newOrderId cenv)])%list |})) as ->.
  { subst run.
    rewrite (checkout_passes_validation cenv req w eid q ev Heid Hv Htn Hq Hint
               Hua He).
    apply Qc_ltb_ge in Havail. rewrite Havail. fold o0.
    unfold try_catch, bind at 1.
    rewrite Order_create_run by (by (apply (Order_validate_ok _ q)) || done).
    cbn [_id o0]. rewrite Hstripe. unfold bind at 1.
    rewrite Order_save_run by (by apply (Order_validate_ok _ q)).
    reflexivity. }
  cbn [fst snd events bookings orders].
  exists (set_stripeSessionId (Some sid) o0).
  split_and!; try reflexivity.
  - by rewrite insert_insert_eq.
  - by apply (mustBeInt_passes_guard (Finite q)).
  - intros Hothers.
    match goal with |- fst (Order_findOne sid ?w1) = Ok (Some ?o) =>
      apply (Order_findOne_unique sid (newOrderId cenv) o w1) end.
    + cbn [orders]. apply lookup_insert_eq.
    + reflexivity.
    + cbn [orders]. intros k' o' Hk' Hs'.
      destruct (decide (k' = newOrderId cenv)) as [->|Hne].
      * rewrite lookup_insert_eq in Hk'. by injection Hk'.
      * rewrite insert_insert_eq, lookup_insert_ne in Hk' by done.
        by destruct (Hothers _ _ Hk').
Qed.

Lemma checkout_creates_witness :
  let cenv := {| newOrderId := "eeeeeeeeeeeeeeeeeeeeeeee";
                 stripe_create := fun _ => Some ("cs_test_9", "https://pay") |} in
  let w := Sample.world Sample.three 1 [] (Sample.order None) in
  exists o,
    fst (createCheckoutSession cenv (sample_checkout (Finite 2)) w)
    = Ok (Checkout_200 "https://pay" "eeeeeeeeeeeeeeeeeeeeeeee")
    /\ orders (snd (createCheckoutSession cenv (sample_checkout (Finite 2)) w))
       = <["eeeeeeeeeeeeeeeeeeeeeeee" := o]> (orders w).
Proof.
  intros cenv w.
  destruct (checkout_creates_a_pending_order cenv (sample_checkout (Finite 2)) w
              Sample.event_id "cs_test_9" "https://pay" 2
              {| totalSeats := Sample.three; bookedSeats := 1 |}
              eq_refl eq_refl eq_refl eq_refl eq_refl eq_refl eq_refl
              ltac:(by vm_compute) eq_refl eq_refl)
    as (o & Hr & Ho & _).
  by exists o.
Defined.



(** ** The Event model: clamp and available seats *)

Ltac qc_order :=
  repeat match goal with
  | H : Qc_ltb _ _ = true |- _ => apply Qc_ltb_lt in H
  | H : Qc_ltb _ _ = false |- _ => apply Qc_ltb_ge in H
  | H : Qc_leb _ _ = true |- _ => apply Qc_leb_le in H
  | H : Qc_leb _ _ = false |- _ => apply Qc_leb_gt in H
  end;
  unfold seats_ok, Qcle, Qclt in *; simpl in *; try lra.

Lemma preSave_within_bounds (e : Event) : seats_ok e -> preSave e = e.
Proof.
  destruct e as [t b]. unfold preSave. simpl. intros Hok.
  destruct (Qc_ltb t b) eqn:H1; simpl;
    destruct (Qc_ltb b 0) eqn:H3; simpl;
    first [ done | by (exfalso; qc_order) ].
Qed.

(** The [pre('save')] hook is a clamp: it never changes [totalSeats], it
    leaves a document within bounds as it is, it always ends with
    [bookedSeats >= 0], with [bookedSeats <= totalSeats] when [totalSeats]
    is not negative, and applying it twice is applying it once. *)
Theorem preSave_is_a_clamp (e : Event) :
  totalSeats (preSave e) = totalSeats e
  /\ 0 ≤ bookedSeats (preSave e)
  /\ (0 ≤ totalSeats e -> bookedSeats (preSave e) ≤ totalSeats e)
  /\ (seats_ok e -> preSave e = e)
  /\ (0 ≤ totalSeats e -> totalSeats e < bookedSeats e ->
      bookedSeats (preSave e) = totalSeats e)
  /\ (bookedSeats e < 0 -> bookedSeats (preSave e) = 0)
  /\ preSave (preSave e) = preSave e.
Proof.
  destruct e as [t b]. unfold preSave. simpl.
  assert (Qc_ltb 0 0 = false) as H00 by reflexivity.
  assert (Qc_ltb t t = false) as Htt by (apply Qc_ltb_ge, Qcle_refl).
  destruct (Qc_ltb t b) eqn:H1; simpl;
    destruct (Qc_ltb t 0) eqn:H2; simpl;
    destruct (Qc_ltb b 0) eqn:H3; simpl;
    rewrite ?H1, ?H2, ?H3, ?H00, ?Htt; simpl; rewrite ?H1, ?H2, ?H3, ?H00, ?Htt;
    split_and!; intros;
    first [ done | by (exfalso; qc_order) | by qc_order ].
Qed.

Lemma Qc_max_0_nonneg (x : Qc) : 0 ≤ Qc_max x 0.
Proof.
  unfold Qc_max. destruct (Qc_leb x 0) eqn:H; [apply Qcle_refl|].
  apply Qc_leb_gt in H. by apply Qclt_le_weak.
Qed.

Lemma Qc_max_0_id (x : Qc) : 0 ≤ x -> Qc_max x 0 = x.
Proof.
  intros Hx. unfold Qc_max. destruct (Qc_leb x 0) eqn:H; [|done].
  apply Qc_leb_le in H. by apply Qcle_antisym.
Qed.

Lemma Qc_fits_iff (b s t : Qc) : s ≤ t - b <-> b + s ≤ t.
Proof.
  rewrite (Qcplus_le_mono_l s (t - b) b).
  by replace (b + (t - b)) with t by ring.
Qed.

Lemma fits_in_bounds (e : Event) (n : Qc) :
  seats_ok e -> 1 ≤ n -> bookedSeats e + n ≤ totalSeats e ->
  seats_ok {| totalSeats := totalSeats e; bookedSeats := bookedSeats e + n |}
  /\ 1 ≤ totalSeats e.
Proof.
  intros [Hb Ht] H1 Hfit.
  assert (0 ≤ n) as Hn by (by trans (1 : Qc); [apply Qc_zero_le_one|]).
  split; [split; simpl|].
  - by apply Qcplus_nonneg_nonneg.
  - done.
  - trans (bookedSeats e + n); [|done]. trans n; [done|].
    rewrite <- (Qcplus_0_l n) at 1. by apply Qcplus_le_mono_r.
Qed.

(** [availableSeats] is never negative, and for an event within bounds
    and exact sums and differences (as with integer counts below [2^53])
    it is exactly what the conditional update checks: a reservation of [s]
    seats succeeds if and only if [s <= availableSeats], and then lowers
    [availableSeats] by exactly [s]. *)
Theorem reservation_succeeds_iff_seats_available
    (id : string) (s : Qc) (evs : gmap string Event) (e : Event) :
  evs !! id = Some e -> seats_ok e ->
  exact (totalSeats e - bookedSeats e) ->
  exact (bookedSeats e + s) ->
  exact (totalSeats e - (bookedSeats e + s)) ->
  0 ≤ availableSeats e
  /\ (is_Some (fst (tryReserve id s evs)) <-> s ≤ availableSeats e)
  /\ (forall e', fst (tryReserve id s evs) = Some e' ->
                 availableSeats e' = availableSeats e - s).
Proof.
  intros He [Hb Ht] _ _ _.
  assert (0 ≤ totalSeats e - bookedSeats e) as Hfree.
  { apply (Qcplus_le_mono_r _ _ (bookedSeats e)).
    replace (totalSeats e - bookedSeats e + bookedSeats e) with (totalSeats e)
      by ring.
    by rewrite Qcplus_0_l. }
  assert (bookedSeats e + s ≤ totalSeats e <-> s ≤ totalSeats e - bookedSeats e)
    as Hiff.
  { rewrite (Qcplus_le_mono_l s (totalSeats e - bookedSeats e) (bookedSeats e)).
    by replace (bookedSeats e + (totalSeats e - bookedSeats e))
      with (totalSeats e) by ring. }
  unfold availableSeats. rewrite (Qc_max_0_id _ Hfree).
  split_and!; [done| |].
  - rewrite <- Hiff. split.
    + intros [e' He'].
      destruct (tryReserve id s evs) as [r evs'] eqn:Hres. simpl in He'. subst r.
      by apply tryReserve_Some_inv in Hres as (e0 & He0 & Hcap & _);
        rewrite He in He0; injection He0 as <-.
    + intros Hcap. rewrite (tryReserve_hit _ _ _ _ He Hcap). by eexists.
  - intros e' He'.
    destruct (tryReserve id s evs) as [r evs'] eqn:Hres. simpl in He'. subst r.
    apply tryReserve_Some_inv in Hres as (e0 & He0 & Hcap & -> & _).
    rewrite He in He0. injection He0 as <-. simpl.
    rewrite Qc_max_0_id.
    + ring.
    + apply Hiff in Hcap.
      apply (Qcplus_le_mono_r _ _ s).
      replace (totalSeats e - (bookedSeats e + s) + s)
        with (totalSeats e - bookedSeats e) by ring.
      by rewrite Qcplus_0_l.
Qed.

Lemma reservation_available_witness :
  is_Some (fst (tryReserve "0123456789abcdef01234567" 1 C1_store))
  <-> 1 ≤ availableSeats {| totalSeats := 1 + 2; bookedSeats := 2 |}.
Proof.
  refine (proj1 (proj2 (reservation_succeeds_iff_seats_available
                          "0123456789abcdef01234567" 1 C1_store
                          {| totalSeats := 1 + 2; bookedSeats := 2 |}
                          eq_refl _ eq_refl eq_refl eq_refl))).
  split; by vm_compute.
Defined.

(** ** The read-then-write seat paths, run alone *)

Lemma Event_save_in_bounds (id : string) (doc : Event) (w : World) :
  seats_ok doc -> 1 ≤ totalSeats doc ->
  Event_save id doc w
  = (Ok doc,
     {| events := <[id := doc]> (events w); bookings := bookings w;
        orders := orders w; log := (log w ++ [EventSave id])%list |}).
Proof.
  intros Hok Ht. unfold Event_save, bind, tell, get_events, put_events, ret.
  simpl.
  assert (Event_validate doc = true) as ->.
  { unfold Event_validate. apply andb_true_iff.
    split; apply Qc_leb_le; [done|by destruct Hok]. }
  by rewrite (preSave_within_bounds doc Hok).
Qed.

Lemma bookSeats_run (id : string) (n : Qc) (w : World) (e : Event) :
  isValidObjectId id = true -> events w !! id = Some e -> seats_ok e -> 1 ≤ n ->
  bookSeats id (Finite n) w
  = if Qc_ltb (totalSeats e - bookedSeats e) n
    then (Ok (Book_400 "Not enough seats available"),
          {| events := events w; bookings := bookings w; orders := orders w;
             log := (log w ++ [EventFindById id])%list |})
    else (Ok (Book_200 (bookedSeats e + n) (totalSeats e - (bookedSeats e + n))),
          {| events := <[id := {| totalSeats := totalSeats e;
                                  bookedSeats := bookedSeats e + n |}]> (events w);
             bookings := bookings w; orders := orders w;
             log := (log w ++ [EventFindById id; EventSave id])%list |}).
Proof.
  intros Hv He Hok H1. unfold bookSeats.
  rewrite (proj2 (guard_passes n H1)).
  unfold try_catch, bind at 1. rewrite (Event_findById_run _ _ Hv), He.
  destruct (Qc_ltb (totalSeats e - bookedSeats e) n) eqn:Hroom; [done|].
  apply Qc_ltb_ge, Qc_fits_iff in Hroom.
  destruct (fits_in_bounds _ _ Hok H1 Hroom) as [Hok' Ht].
  unfold bind. rewrite (Event_save_in_bounds id _ _ Hok' Ht). simpl.
  by rewrite <- app_assoc.
Qed.

(** [bookSeats] on its own on an event within bounds whose remaining
    seats [totalSeats - bookedSeats] are an exact difference: a count of
    at least 1 that fits increases [bookedSeats] by exactly that count
    (the new count and the new remainder being exact too) and reports the
    new count and the remaining seats; a count that does not fit is
    refused and the event is unchanged. Either way no Booking and no order
    is written: seats booked this way have no ledger entry. *)
Theorem bookSeats_moves_the_counter_only
    (id : string) (n : Qc) (w : World) (e : Event) :
  isValidObjectId id = true -> events w !! id = Some e -> seats_ok e -> 1 ≤ n ->
  exact (totalSeats e - bookedSeats e) ->
  let run := bookSeats id (Finite n) w in
  bookings (snd run) = bookings w /\ orders (snd run) = orders w
  /\ (n ≤ totalSeats e - bookedSeats e ->
      exact (bookedSeats e + n) ->
      exact (totalSeats e - (bookedSeats e + n)) ->
      fst run = Ok (Book_200 (bookedSeats e + n)
                             (totalSeats e - (bookedSeats e + n)))
      /\ events (snd run)
         = <[id := {| totalSeats := totalSeats e;
                      bookedSeats := bookedSeats e + n |}]> (events w))
  /\ (totalSeats e - bookedSeats e < n ->
      fst run = Ok (Book_400 "Not enough seats available")
      /\ events (snd run) = events w).
Proof.
  intros Hv He Hok H1 _ run. subst run.
  rewrite (bookSeats_run id n w e Hv He Hok H1).
  destruct (Qc_ltb (totalSeats e - bookedSeats e) n) eqn:Hroom; simpl.
  - split_and!; try done.
    intros Hfit _ _. apply Qc_ltb_lt in Hroom. by apply Qclt_not_le in Hroom.
  - split_and!; try done.
    intros Hlt. apply Qc_ltb_ge in Hroom. by apply Qclt_not_le in Hlt.
Qed.

Lemma bookSeats_witness :
  let w := Sample.world Sample.three 1 [] (Sample.order None) in
  bookings (snd (bookSeats Sample.event_id (Finite 2) w)) = bookings w.
Proof.
  intros w.
  refine (proj1 (bookSeats_moves_the_counter_only Sample.event_id 2 w
                   {| totalSeats := Sample.three; bookedSeats := 1 |}
                   eq_refl eq_refl _ _ eq_refl)).
  - split; by vm_compute.
  - by vm_compute.
Defined.

Lemma Event_save_run (id : string) (doc : Event) (w : World) :
  Event_save id doc w
  = if Event_validate doc
    then (Ok (preSave doc),
          {| events := <[id := preSave doc]> (events w); bookings := bookings w;
             orders := orders w; log := (log w ++ [EventSave id])%list |})
    else (Throw (ValidationError "Event"),
          {| events := events w; bookings := bookings w; orders := orders w;
             log := (log w ++ [EventSave id])%list |}).
Proof.
  unfold Event_save, bind, tell, get_events, put_events, ret, throw. simpl.
  by destruct (Event_validate doc).
Qed.

Lemma Event_validate_below_one (doc : Event) :
  totalSeats doc < 1 -> Event_validate doc = false.
Proof.
  intros Hlt. unfold Event_validate.
  assert (Qc_leb 1 (totalSeats doc) = false) as -> by (by apply Qc_leb_gt).
  done.
Qed.

Lemma preSave_over_total (q b : Qc) :
  0 ≤ q -> q < b ->
  preSave {| totalSeats := q; bookedSeats := b |}
  = {| totalSeats := q; bookedSeats := q |}.
Proof.
  intros H0 Hlt. unfold preSave. cbn [totalSeats bookedSeats].
  assert (Qc_ltb q b = true) as -> by (by apply Qc_ltb_lt).
  cbn [totalSeats bookedSeats].
  assert (Qc_ltb q 0 = false) as -> by (by apply Qc_ltb_ge).
  done.
Qed.

(** Changing [totalSeats] of an event within bounds, through the admin
    route or through the event controller: a new total of at least 1 is
    stored and [bookedSeats] becomes the smaller of its old value and the
    new total (the route's explicit clamp and the model's save hook give
    the same document); a new total below 1 is rejected by the schema and
    the event stays as it was. *)
Theorem lowering_totalSeats_clamps_bookedSeats
    (id : string) (q : Qc) (w : World) (e : Event) :
  isValidObjectId id = true -> events w !! id = Some e -> seats_ok e ->
  let admin := adminUpdateEvent id (Some (Finite q)) w in
  let upd := updateEvent id (Some (Finite q)) w in
  let saved := {| totalSeats := q; bookedSeats := Qc_min (bookedSeats e) q |} in
  (1 ≤ q ->
   fst admin = Ok (Admin_200 saved) /\ fst upd = Ok (Update_200 saved)
   /\ events (snd admin) = <[id := saved]> (events w)
   /\ events (snd upd) = <[id := saved]> (events w))
  /\ (q < 1 ->
      fst admin = Ok Admin_500 /\ fst upd = Ok Update_400
      /\ events (snd admin) = events w /\ events (snd upd) = events w).
Proof.
  intros Hv He [Hb Ht] admin upd saved. subst admin upd saved.
  unfold adminUpdateEvent, updateEvent, try_catch, bind.
  rewrite !(Event_findById_run _ _ Hv), He.
  cbn [totalSeats bookedSeats].
  assert (Qc_ltb (bookedSeats e) 0 = false) as Hb0 by (by apply Qc_ltb_ge).
  split.
  - intros H1.
    assert (0 ≤ q) as H0 by (by trans (1 : Qc); [apply Qc_zero_le_one|]).
    assert (Qc_ltb q 0 = false) as Hq0 by (by apply Qc_ltb_ge).
    unfold Qc_min.
    destruct (Qc_leb (bookedSeats e) q) eqn:Hle.
    + assert (Qc_ltb q (bookedSeats e) = false) as ->
        by (unfold Qc_ltb; by rewrite Hle).
      cbn [totalSeats bookedSeats]. rewrite Hb0.
      apply Qc_leb_le in Hle.
      rewrite !Event_save_in_bounds by (done || by split).
      done.
    + assert (Qc_ltb q (bookedSeats e) = true) as ->
        by (unfold Qc_ltb; by rewrite Hle).
      cbn [totalSeats bookedSeats]. rewrite Hq0.
      apply Qc_leb_gt in Hle.
      rewrite Event_save_in_bounds by (done || (split; [done|apply Qcle_refl])).
      rewrite Event_save_run.
      assert (Event_validate {| totalSeats := q; bookedSeats := bookedSeats e |}
              = true) as ->.
      { unfold Event_validate. cbn [totalSeats bookedSeats].
        apply andb_true_iff. split; by apply Qc_leb_le. }
      rewrite (preSave_over_total _ _ H0 Hle).
      done.
  - intros Hlt.
    rewrite !Event_save_run.
    rewrite !Event_validate_below_one; [done|done|].
    repeat (destruct (Qc_ltb _ _); cbn [totalSeats bookedSeats]); done.
Qed.

Lemma lowering_totalSeats_witness :
  let w := Sample.world Sample.three Sample.three [] (Sample.order None) in
  fst (adminUpdateEvent Sample.event_id (Some (Finite 2)) w)
  = Ok (Admin_200 {| totalSeats := 2; bookedSeats := Qc_min Sample.three 2 |}).
Proof.
  intros w.
  refine (proj1 (proj1 (lowering_totalSeats_clamps_bookedSeats Sample.event_id 2 w
                          {| totalSeats := Sample.three; bookedSeats := Sample.three |}
                          eq_refl eq_refl _) _)).
  - split; by vm_compute.
  - by vm_compute.
Defined.

(** ** Manual bookings *)




Lemma seatCountOf_spec (seats : option JsNumber) :
  (seats = Some NaN -> seatCountOf seats = NaN)
  /\ (seats ≠ Some NaN -> exists c, seatCountOf seats = Finite c)
  /\ (forall c, seatCountOf seats = Finite c ->
      1 ≤ c
      /\ (forall q, seats = Some (Finite q) -> 1 ≤ q -> c = q)
      /\ ((forall q, seats = Some (Finite q) -> q < 1) -> c = 1)).
Proof.
  unfold seatCountOf, Qc_max.
  destruct seats as [[q|]|].
  - split; [done|]. split; [by eexists|]. intros c [= <-].
    destruct (Qc_eqb q 0) eqn:Hz.
    + apply Qc_eqb_eq in Hz as ->. split_and!; [apply Qcle_refl| |done].
      intros q [= <-] H. by vm_compute in H.
    + destruct (Qc_leb 1 q) eqn:Hle.
      * apply Qc_leb_le in Hle. split_and!; [done|by intros ? [= <-]|].
        intros Hlt. specialize (Hlt q eq_refl). by apply Qclt_not_le in Hlt.
      * apply Qc_leb_gt in Hle. split_and!; [apply Qcle_refl| |done].
        intros ? [= <-] H. by apply Qclt_not_le in Hle.
  - split; [done|]. split; [done|]. by intros c [=].
  - split; [done|]. split; [by eexists|]. intros c [= <-].
    split_and!; [apply Qcle_refl|done|done].
Qed.

(** [createBooking] never books less than one seat. When [seats] is a
    number or missing, the count it reserves and writes is the requested
    number when that is at least 1 and 1 otherwise (missing, zero,
    negative or a fraction below 1), and the Booking it writes is left at
    payment status PENDING (the stored sum being exact, as for integer
    counts below [2^53]). When [seats] is not numeric the count is NaN:
    the update is rejected before it reaches the store, the answer is 500
    and nothing is booked. *)
Theorem createBooking_books_at_least_one_seat
    (env : Env) (req : BookingRequest) (seats : option JsNumber) (w : World)
    (eid : string) (e : Event) :
  truthy (breq_user req) = true ->
  breq_eventId req = Some eid -> isValidObjectId eid = true ->
  events w !! eid = Some e ->
  let ticket := "TKT-" +:+ pretty (now env) +:+ "-" +:+ rnd env in
  let run := createBooking env req seats w in
  (seats = Some NaN -> run = (Ok Booking_500, w))
  /\ (seats ≠ Some NaN -> exists c, seatCountOf seats = Finite c)
  /\ (forall c, seatCountOf seats = Finite c ->
      1 ≤ c
      /\ (forall q, seats = Some (Finite q) -> 1 ≤ q -> c = q)
      /\ ((forall q, seats = Some (Finite q) -> q < 1) -> c = 1)
      /\ (bookedSeats e + c ≤ totalSeats e ->
          exact (bookedSeats e + c) ->
          bookingFailure env (manualBookingInput req eid c ticket None)
            (bookings w) = None ->
          (exists bk, fst run = Ok (Booking_201 ticket bk (inc_bookedSeats c e))
                      /\ bookings (snd run) = (bookings w ++ [bk])%list
                      /\ bk_seats bk = c
                      /\ bk_paymentStatus bk = "PENDING")
          /\ events (snd run) = <[eid := inc_bookedSeats c e]> (events w))).
Proof.
  intros Hu Heid Hv He ticket run.
  destruct (seatCountOf_spec seats) as (Hnan & Hnum & Hc).
  split; [|split; [done|]].
  - intros Hs. subst run. unfold createBooking.
    rewrite Hu, Heid, (truthy_valid_id _ Hv). cbn [negb].
    by rewrite (Hnan Hs).
  - intros c Hcount. destruct (Hc c Hcount) as (Hc1 & Hc2 & Hc3).
    split; [done|]. split; [done|]. split; [done|].
    intros Hcap _ Hok.
    set (input := manualBookingInput req eid c ticket None) in *.
    assert (run = (Ok (Booking_201 ticket (bookingOf env input)
                         (inc_bookedSeats c e)),
                   {| events := <[eid := inc_bookedSeats c e]> (events w);
                      bookings := (bookings w ++ [bookingOf env input])%list;
                      orders := orders w;
                      log := ((log w ++ [EventFindOneAndUpdate eid c])
                              ++ [BookingCreate ticket])%list |})) as ->.
    { subst run. unfold createBooking.
      rewrite Hu, Heid, (truthy_valid_id _ Hv), Hcount. cbn [negb].
      cbv zeta. unfold try_catch, bind at 1. rewrite (reserveSeats_run _ _ _ Hv).
      rewrite (tryReserve_hit _ _ _ _ He Hcap). cbn [fst snd].
      set (w1 := {| events := _; bookings := bookings w; orders := orders w;
                    log := _ |}).
      fold ticket. fold input. unfold bind.
      by rewrite (Booking_create_inserts env input w1 Hok). }
    cbn [fst snd events bookings]. split; [|done].
    by eexists.
Qed.

Lemma createBooking_witness :
  let req := {| breq_user := Some Sample.user_id;
                breq_eventId := Some Sample.event_id;
                breq_name := None; breq_email := None |} in
  let w := Sample.world Sample.three 0 [] (Sample.order None) in
  events (snd (createBooking (Sample.env false) req (Some (Finite (- 2))) w))
  = <[Sample.event_id := {| totalSeats := Sample.three; bookedSeats := 0 + 1 |}]>
      (events w)
  /\ createBooking (Sample.env false) req (Some NaN) w = (Ok Booking_500, w).
Proof.
  intros req w. split.
  - destruct (createBooking_books_at_least_one_seat (Sample.env false) req
                (Some (Finite (- 2))) w Sample.event_id
                {| totalSeats := Sample.three; bookedSeats := 0 |}
                eq_refl eq_refl eq_refl eq_refl) as (_ & _ & H).
    destruct (H 1 eq_refl) as (_ & _ & _ & H3).
    refine (proj2 (H3 _ _ _)); by vm_compute.
  - exact (proj1 (createBooking_books_at_least_one_seat (Sample.env false) req
                    (Some NaN) w Sample.event_id
                    {| totalSeats := Sample.three; bookedSeats := 0 |}
                    eq_refl eq_refl eq_refl eq_refl) eq_refl).
Defined.

(** ** Looking a ticket up *)

Lemma find_ticket_fresh (t : string) (bs : list Booking) :
  t ∉ bk_ticketId <$> bs ->
  List.find (fun b => String.eqb (bk_ticketId b) t) bs = None.
Proof.
  induction bs as [|b bs IH]; simpl; [done|].
  intros [Hb Hbs]%not_elem_of_cons.
  destruct (String.eqb_spec (bk_ticketId b) t) as [E|_]; [by destruct Hb|].
  by apply IH.
Qed.

Lemma find_ticket_distinct (t : string) (bs : list Booking) (b : Booking) :
  tickets_distinct bs -> b ∈ bs -> bk_ticketId b = t ->
  List.find (fun b => String.eqb (bk_ticketId b) t) bs = Some b.
Proof.
  unfold tickets_distinct. induction bs as [|b' bs IH]; simpl.
  - intros _ Hin. by apply elem_of_nil in Hin.
  - intros Hnd Hin Ht. apply NoDup_cons in Hnd as [Hfresh Hnd].
    apply elem_of_cons in Hin as [->|Hin].
    + rewrite Ht. by rewrite String.eqb_refl.
    + destruct (String.eqb_spec (bk_ticketId b') t) as [E|_]; [|by apply IH].
      destruct Hfresh. rewrite E, <- Ht. by apply list_elem_of_fmap_2.
Qed.


(** [getByTicketId] reads the ledger and nothing else: a ticket that no
    Booking carries gives 404; in a ledger with pairwise distinct tickets,
    a Booking's own ticket gives back that Booking together with its
    event (null when the event no longer exists). Nothing is changed. *)
Theorem getByTicketId_resolves_ledger_entries (t : string) (w : World) :
  t ≠ "" ->
  (t ∉ bk_ticketId <$> bookings w ->
   getByTicketId (Some t) w = (Ok Ticket_404, w))
  /\ (tickets_distinct (bookings w) ->
      forall b, b ∈ bookings w -> bk_ticketId b = t ->
                getByTicketId (Some t) w
                = (Ok (Ticket_200 b (events w !! bk_event b)), w)).
Proof.
  intros Hne. unfold getByTicketId, truthy.
  destruct (String.eqb_spec t "") as [|_]; [contradiction|]. cbn [negb].
  unfold bind, get_bookings, get_events, ret. split.
  - intros Hfresh. by rewrite find_ticket_fresh.
  - intros Hnd b Hin Ht. by rewrite (find_ticket_distinct t _ b Hnd Hin Ht).
Qed.

Lemma getByTicketId_witness :
  let w := Sample.world Sample.three 1 [Sample.earlier_booking] (Sample.order None) in
  getByTicketId (Some "TKT-0-NONE") w = (Ok Ticket_404, w).
Proof.
  intros w.
  refine (proj1 (getByTicketId_resolves_ledger_entries "TKT-0-NONE" w _) _).
  - discriminate.
  - apply existsb_ticket_false. reflexivity.
Defined.



(** Events the webhook has nothing to do for: an event of any other type,
    or a completed session that is not paid, leaves events, bookings and
    orders as they are. *)
Theorem webhook_ignores_unpaid_and_other_events
    (env : Env) (event : StripeEvent) (w : World) :
  (ev_type event ≠ "checkout.session.completed"
   /\ ev_type event ≠ "checkout.session.expired")
  \/ (ev_type event = "checkout.session.completed"
      /\ payment_status (data_object event) ≠ Some "paid") ->
  let w' := snd (stripeWebhook env (inr event) w) in
  events w' = events w /\ bookings w' = bookings w /\ orders w' = orders w.
Proof.
  intros Hcase.
  assert (reads_only (stripeWebhook env (inr event))) as H; [|exact (H w)].
  unfold stripeWebhook. destruct Hcase as [[Hc He]|[Hc Hunpaid]].
  - apply String.eqb_neq in Hc, He. rewrite Hc, He. repeat reads_step.
  - rewrite Hc.
    change (String.eqb "checkout.session.completed" "checkout.session.completed")
      with true.
    change (String.eqb "checkout.session.completed" "checkout.session.expired")
      with false.
    cbv iota. unfold webhookCompleted. repeat reads_step.
    match goal with H : bool_decide _ = true |- _ =>
      apply bool_decide_eq_true in H; contradiction end.
Qed.

Lemma webhook_ignores_witness :
  let o := Sample.order (Some (Finite 1)) in
  let w := Sample.world Sample.three 0 [] o in
  orders (snd (stripeWebhook (Sample.env false)
                 (inr {| ev_type := "payment_intent.created";
                         data_object := Sample.session |}) w)) = orders w.
Proof.
  intros o w.
  refine (proj2 (proj2 (webhook_ignores_unpaid_and_other_events (Sample.env false)
                          {| ev_type := "payment_intent.created";
                             data_object := Sample.session |} w _))).
  left. split; discriminate.
Defined.

(** ** Ticket identifiers *)

Lemma toUpper_not_lower (c : ascii) : is_lower (toUpper c) = false.
Proof. destruct c as [[] [] [] [] [] [] [] []]; reflexivity. Qed.

Lemma toUpper_idempotent (c : ascii) : toUpper (toUpper c) = toUpper c.
Proof. destruct c as [[] [] [] [] [] [] [] []]; reflexivity. Qed.

Lemma toUpperCase_idempotent (s : string) :
  toUpperCase (toUpperCase s) = toUpperCase s.
Proof.
  induction s as [|c s IH]; simpl; [done|].
  by rewrite toUpper_idempotent, IH.
Qed.

Lemma toUpperCase_no_lower (s : string) :
  forallb (fun c => negb (is_lower c)) (list_ascii_of_string (toUpperCase s)) = true.
Proof.
  induction s as [|c s IH]; simpl; [done|].
  by rewrite toUpper_not_lower, IH.
Qed.

(** A generated ticket identifier starts with "TKT-", contains no
    lower-case letter whatever the random suffix is, and upper-casing it
    again changes nothing. *)
Theorem generateTicketId_is_upper_case (env : Env) :
  (exists rest, generateTicketId env = "TKT-" +:+ rest)
  /\ forallb (fun c => negb (is_lower c))
       (list_ascii_of_string (generateTicketId env)) = true
  /\ toUpperCase (generateTicketId env) = generateTicketId env.
Proof.
  split_and!.
  - by eexists.
  - apply toUpperCase_no_lower.
  - apply toUpperCase_idempotent.
Qed.

Lemma Variant_booking_failure_witness :
  let o := Sample.order (Some (Finite 1)) in
  let w := Sample.world Sample.three 2 [] o in
  Variant.finalizePaidOrder (Sample.env true) o Sample.session w
  = (Throw StoreFault,
     {| events := events w; bookings := bookings w; orders := orders w;
        log := [EventFindOneAndUpdate Sample.event_id 1;
                BookingCreate Sample.ticket;
                EventFindByIdAndUpdate Sample.event_id (- 1)] |}).
Proof.
  intros o w.
  apply (Variant_booking_failure_releases_only (Sample.env true) o
           Sample.session w 1
           {| totalSeats := Sample.three; bookedSeats := 2 |} StoreFault);
    reflexivity || (by vm_compute).
Defined.

(** ** Seat bounds through the remaining handlers *)

Lemma keeps_reserveSeats (id : string) (s : Qc) :
  0 ≤ s -> keeps_bounds (reserveSeats id s).
Proof.
  intros Hs w Hw. destruct (isValidObjectId id) eqn:Hv.
  - rewrite (reserveSeats_run _ _ _ Hv). simpl. by apply tryReserve_keeps_bounds.
  - by rewrite (reserveSeats_invalid _ _ _ Hv).
Qed.

Lemma keeps_get_bookings : keeps_bounds get_bookings.
Proof. by intros w Hw. Qed.

Lemma keeps_put_bookings (bs : list Booking) : keeps_bounds (put_bookings bs).
Proof. by intros w Hw. Qed.

#[local] Hint Resolve keeps_get_bookings keeps_put_bookings : bounds.

Lemma keeps_castObjectId (path : string) (v : option string) :
  keeps_bounds (castObjectId path v).
Proof. unfold castObjectId. repeat keeps_step. Qed.

#[local] Hint Resolve keeps_castObjectId : bounds.

Lemma keeps_Booking_create (env : Env) (i : BookingInput) :
  keeps_bounds (Booking_create env i).
Proof. unfold Booking_create. repeat (keeps_step || cbv zeta). Qed.

Lemma keeps_Order_create (o : Order) : keeps_bounds (Order_create o).
Proof. unfold Order_create. repeat keeps_step. Qed.

#[local] Hint Resolve keeps_Booking_create keeps_Order_create : bounds.

Lemma zero_le_of_one_le (q : Qc) : 1 ≤ q -> 0 ≤ q.
Proof. intros H. by trans (1 : Qc); [apply Qc_zero_le_one|]. Qed.

(** Run to its end on a collection within bounds, each of the remaining
    seat-touching handlers leaves every event with
    [0 <= bookedSeats <= totalSeats]: the seat booking of the event
    controller, both manual booking handlers, the checkout and the ticket
    lookup, whatever the request is and however the handler ends. *)
Theorem remaining_handlers_keep_seat_bounds (w : World) :
  inventory_ok (events w) ->
  (forall id seats, inventory_ok (events (snd (bookSeats id seats w))))
  /\ (forall env req seats,
        inventory_ok (events (snd (postBooking env req seats w))))
  /\ (forall env req seats,
        inventory_ok (events (snd (createBooking env req seats w))))
  /\ (forall cenv req,
        inventory_ok (events (snd (createCheckoutSession cenv req w))))
  /\ (forall ticket, inventory_ok (events (snd (getByTicketId ticket w)))).
Proof.
  intros Hw. split_and!.
  - intros. by apply keeps_bookSeats.
  - intros env req seats. revert w Hw.
    change (keeps_bounds (postBooking env req seats)).
    unfold postBooking. apply keeps_try_catch; [|auto with bounds].
    destruct (negb (truthy (breq_eventId req))); [auto with bounds|].
    destruct (negb (truthy (breq_name req))); [auto with bounds|].
    destruct (negb (truthy (breq_email req))); [auto with bounds|].
    destruct (breq_eventId req) as [eid|]; [|auto with bounds].
    destruct seats as [n|]; [|auto with bounds].
    destruct (invalidSeats (Finite n)) eqn:Hinv; [auto with bounds|].
    apply keeps_bind.
    + by apply keeps_reserveSeats, zero_le_of_one_le, invalidSeats_false_ge.
    + intros r. repeat (keeps_step || cbv zeta).
  - intros env req seats. revert w Hw.
    change (keeps_bounds (createBooking env req seats)).
    unfold createBooking. apply keeps_try_catch; [|auto with bounds].
    destruct (negb (truthy (breq_user req))); [auto with bounds|].
    destruct (negb (truthy (breq_eventId req))); [auto with bounds|].
    destruct (breq_eventId req) as [eid|]; [|auto with bounds].
    destruct (seatCountOf seats) as [c|] eqn:Hc; [|auto with bounds].
    cbv zeta. apply keeps_bind.
    + apply keeps_reserveSeats, zero_le_of_one_le.
      apply (proj2 (proj2 (seatCountOf_spec seats)) c Hc).
    + intros r. repeat (keeps_step || cbv zeta).
  - intros cenv req. revert w Hw.
    change (keeps_bounds (createCheckoutSession cenv req)).
    unfold createCheckoutSession. repeat (keeps_step || cbv zeta).
  - intros ticket. revert w Hw.
    change (keeps_bounds (getByTicketId ticket)).
    unfold getByTicketId. repeat keeps_step.
Qed.

Lemma remaining_handlers_witness :
  let w := Sample.world Sample.three 2 [] (Sample.order None) in
  inventory_ok (events (snd (bookSeats Sample.event_id (Finite 1) w))).
Proof.
  intros w.
  refine (proj1 (remaining_handlers_keep_seat_bounds w _) _ _).
  apply map_Forall_singleton. split; by vm_compute.
Defined.

(** ** Deleting bookings and events *)







Lemma tryReserve_absent (id : string) (s : Qc) (evs : gmap string Event) :
  evs !! id = None -> tryReserve id s evs = (None, evs).
Proof.
  intros Hid. unfold tryReserve, Event_findOneAndUpdate. by rewrite Hid.
Qed.

Lemma Event_findByIdAndDelete_run (id : string) (w : World) (e : Event) :
  isValidObjectId id = true -> events w !! id = Some e ->
  Event_findByIdAndDelete id w
  = (Ok (Some e),
     {| events := delete id (events w); bookings := bookings w;
        orders := orders w; log := log w |}).
Proof.
  intros Hv He. unfold Event_findByIdAndDelete. rewrite Hv.
  unfold bind at 1, get_events. rewrite He.
  by unfold bind, put_events, ret.
Qed.

(** Deleting an event, through the admin route or the event controller,
    removes the event and nothing else: its Bookings and the orders for it
    stay. A ticket of such a Booking then resolves to the Booking with no
    event, and an order for the event that is finalized afterwards is told
    there are not enough seats and fails. *)
Theorem deleting_an_event_orphans_its_bookings
    (id : string) (w : World) (e : Event) :
  isValidObjectId id = true -> events w !! id = Some e ->
  let admin := adminDeleteEvent id w in
  let w' := snd admin in
  fst admin = Ok Delete_200
  /\ deleteEvent id w = (Ok Delete_200, w')
  /\ events w' = delete id (events w)
  /\ bookings w' = bookings w /\ orders w' = orders w
  /\ (tickets_distinct (bookings w) ->
      forall b, b ∈ bookings w -> bk_event b = id -> bk_ticketId b ≠ "" ->
                getByTicketId (Some (bk_ticketId b)) w'
                = (Ok (Ticket_200 b None), w'))
  /\ (forall env order session q,
        alreadyFinalized order = None ->
        quantity order = Some (Finite q) -> 1 ≤ q -> eventId order = id ->
        fst (finalizePaidOrder env order session w')
        = Ok (NOT_READY "Not enough seats available.", markFailed order session)).
Proof.
  intros Hv He admin w'. subst w' admin.
  unfold adminDeleteEvent, deleteEvent, try_catch, bind.
  rewrite (Event_findByIdAndDelete_run _ _ _ Hv He). unfold ret.
  cbn [fst snd events bookings orders].
  split_and!; try done.
  - intros Hnd b Hin Hev Hne.
    unfold getByTicketId, truthy.
    destruct (String.eqb_spec (bk_ticketId b) "") as [|_]; [contradiction|].
    cbn [negb]. unfold bind, get_bookings, get_events, ret.
    cbn [bookings events].
    rewrite (find_ticket_distinct _ _ b Hnd Hin eq_refl).
    cbn [events]. by rewrite Hev, lookup_delete_eq.
  - intros env order session q Hfin Hq H1 Hid.
    destruct (guard_passes q H1) as [Hn Hinv]. rewrite <- Hq in Hn.
    rewrite (finalize_no_capacity env order session _ q Hfin Hn Hinv);
      [done|by rewrite Hid|].
    cbn [events]. rewrite tryReserve_absent; [done|].
    by rewrite Hid, lookup_delete_eq.
Qed.

Lemma deleting_an_event_witness :
  let w := Sample.world Sample.three 1 [] (Sample.order None) in
  fst (adminDeleteEvent Sample.event_id w) = Ok Delete_200
  /\ events (snd (adminDeleteEvent Sample.event_id w)) !! Sample.event_id = None.
Proof.
  intros w.
  destruct (deleting_an_event_orphans_its_bookings Sample.event_id w
              {| totalSeats := Sample.three; bookedSeats := 1 |}
              eq_refl eq_refl) as (Hr & _ & Hev & _).
  split; [exact Hr|]. rewrite Hev. apply lookup_delete_eq.
Defined.

(** ** The second copy's poll and webhook handlers *)





